(** * CHDMOD Monte Carlo input generator: [montecarlo/montecarlo.py]

    A shallow embedding of the Python 2 program that perturbs the numeric
    tables ([DatFile], driven by an [SDFile]) and the scalar parameter files
    ([InpFile], driven by an [Effects] table) of the CHD model, followed by
    the properties of the embedding.

    Conventions.
    - A Python [str] is a [string] (a sequence of 8-bit characters).
    - A Python [int] is a [Z]; [/] on two ints is Python 2 floor division
      ([Z.div]) and [%] is [Z.modulo].
    - A Python [float] (and a numpy [float64]) is a [spec_float] read at
      precision 53 and maximal exponent 1024, that is IEEE 754 binary64.
    - A computation that may raise is a [result]; the exception classes are
      those the interpreter raises on the paths of this program.
    - The samples returned by [numpy.random.randn] are an input of the
      model (a function from the index of a cell to its value).
    - Files are their contents: a file that is read is a list of lines, and
      what [print_mc] writes is the list of the strings it prints.  The
      parsing of the command line and the names of the files are not
      modelled. *)

From Stdlib Require Import ZArith String Ascii DecimalString.
From Corelib Require Import SpecFloat.
From stdpp Require Import base list strings gmap.

Local Open Scope Z_scope.

(** ** Exceptions and results *)

Inductive exn : Type :=
  | ValueError
  | IndexError
  | AttributeError
  | TypeError
  | SystemExit.

Definition exn_name (e : exn) : string :=
  match e with
  | ValueError => "ValueError"
  | IndexError => "IndexError"
  | AttributeError => "AttributeError"
  | TypeError => "TypeError"
  | SystemExit => "SystemExit"
  end.

Inductive result (A : Type) : Type :=
  | Ok (a : A)
  | Raise (e : exn).
Arguments Ok {A} a.
Arguments Raise {A} e.

#[global] Instance result_ret : MRet result := fun A a => Ok a.
#[global] Instance result_bind : MBind result := fun A B f m =>
  match m with
  | Ok a => f a
  | Raise e => Raise e
  end.
#[global] Instance result_fmap : FMap result := fun A B f m =>
  match m with
  | Ok a => Ok (f a)
  | Raise e => Raise e
  end.

Definition raises {A} (m : result A) : Prop := ∃ e, m = Raise e.

(** [l[i]] for a non-negative index [i]. *)
Definition getitem {A} (l : list A) (i : nat) : result A :=
  match l !! i with
  | Some a => Ok a
  | None => Raise IndexError
  end.

(** ** Python string built-ins *)

Module Str.

Definition code (c : ascii) : N := N_of_ascii c.

(** [str.isdigit] on one character (C locale). *)
Definition isdigit (c : ascii) : bool :=
  ((48 <=? code c) && (code c <=? 57))%N.

(** [str.isspace] on one character (C locale): space, \t, \n, \v, \f, \r. *)
Definition isspace (c : ascii) : bool :=
  ((code c =? 32) || ((9 <=? code c) && (code c <=? 13)))%N.

Definition snoc (s : string) (c : ascii) : string := s +:+ String c "".

Definition nonempty (s : string) : bool :=
  match s with
  | EmptyString => false
  | String _ _ => true
  end.

(** [s.split()]: the maximal runs of non-whitespace characters.  [tok] is
    the run being read. *)
Fixpoint split_from (tok s : string) : list string :=
  match s with
  | EmptyString => if nonempty tok then [tok] else []
  | String c s' =>
      if isspace c
      then (if nonempty tok then tok :: split_from "" s' else split_from "" s')
      else split_from (snoc tok c) s'
  end.

Definition split (s : string) : list string := split_from "" s.

(** [s.split(sep)] for a one-character separator. *)
Fixpoint split_on_from (sep : ascii) (tok s : string) : list string :=
  match s with
  | EmptyString => [tok]
  | String c s' =>
      if Ascii.eqb c sep
      then tok :: split_on_from sep "" s'
      else split_on_from sep (snoc tok c) s'
  end.

Definition split_on (sep : ascii) (s : string) : list string :=
  split_on_from sep "" s.

(** [line.find(key)]: the least index at which [key] occurs, or [-1]. *)
Fixpoint find_from (i : Z) (line key : string) : Z :=
  if String.prefix key line then i
  else match line with
       | EmptyString => -1
       | String _ rest => find_from (i + 1) rest key
       end.

Definition find (line key : string) : Z := find_from 0 line key.

(** [s * n]. *)
Fixpoint times_nat (s : string) (n : nat) : string :=
  match n with
  | O => ""
  | S n' => s +:+ times_nat s n'
  end.

Definition times (s : string) (n : Z) : string := times_nat s (Z.to_nat n).

(** The longest prefix of [s] whose characters satisfy [p], and the rest. *)
Fixpoint span (p : ascii → bool) (s : string) : string * string :=
  match s with
  | EmptyString => ("", "")
  | String c s' =>
      if p c
      then let '(run, rest) := span p s' in (String c run, rest)
      else ("", s)
  end.

Fixpoint lstrip (s : string) : string :=
  match s with
  | EmptyString => ""
  | String c s' => if isspace c then lstrip s' else s
  end.

Fixpoint rstrip (s : string) : string :=
  match s with
  | EmptyString => ""
  | String c s' =>
      match rstrip s' with
      | EmptyString => if isspace c then "" else String c ""
      | r => String c r
      end
  end.

Definition strip (s : string) : string := rstrip (lstrip s).

Definition lower (c : ascii) : ascii :=
  if ((65 <=? code c) && (code c <=? 90))%N
  then ascii_of_N (code c + 32)
  else c.

Fixpoint lowercase (s : string) : string :=
  match s with
  | EmptyString => ""
  | String c s' => String (lower c) (lowercase s')
  end.

(** The value of a run of decimal digits, most significant first. *)
Fixpoint digits_value_from (acc : Z) (s : string) : Z :=
  match s with
  | EmptyString => acc
  | String c s' => digits_value_from (10 * acc + (Z.of_N (code c) - 48)) s'
  end.

Definition digits_value (s : string) : Z := digits_value_from 0 s.

Fixpoint all_digits (s : string) : bool :=
  match s with
  | EmptyString => true
  | String c s' => isdigit c && all_digits s'
  end.

(** An optional sign: whether it is [-], and what follows it. *)
Definition take_sign (s : string) : bool * string :=
  match s with
  | String "-" r => (true, r)
  | String "+" r => (false, r)
  | _ => (false, s)
  end.

(** [int(s)] in base ten. *)
Definition int (s : string) : result Z :=
  let '(neg, body) := take_sign (strip s) in
  if nonempty body && all_digits body
  then Ok (if neg then - digits_value body else digits_value body)
  else Raise ValueError.

End Str.

(** ** Python floats: IEEE 754 binary64 *)

Module Float.

Definition prec : Z := 53.
Definition emax : Z := 1024.

Definition add : spec_float → spec_float → spec_float := SFadd prec emax.
Definition mul : spec_float → spec_float → spec_float := SFmul prec emax.
(** [x == y] on floats. *)
Definition eqb : spec_float → spec_float → bool := SFeqb.

Definition zero : spec_float := S754_zero false.

(** Neither an infinity nor a NaN. *)
Definition is_finite (x : spec_float) : bool :=
  match x with
  | S754_zero _ | S754_finite _ _ _ => true
  | S754_infinity _ | S754_nan => false
  end.

(** The binary64 nearest to [±m * 10^e] (ties to even), computed as the
    correctly rounded quotient of two integers. *)
Definition of_decimal (neg : bool) (m e : Z) : spec_float :=
  match m * 10 ^ Z.max e 0 with
  | Zpos num =>
      SFdiv prec emax (S754_finite neg num 0)
                      (S754_finite false (Z.to_pos (10 ^ Z.max (- e) 0)) 0)
  | _ => S754_zero neg
  end.

(** [float(s)]: surrounding whitespace is ignored; an optional sign is
    followed by [inf], [infinity] or [nan] in any letter case, or by a
    decimal numeral with an optional fraction and an optional exponent. *)
Definition float (s : string) : result spec_float :=
  let '(neg, body) := Str.take_sign (Str.strip s) in
  let low := Str.lowercase body in
  if String.eqb low "inf" || String.eqb low "infinity" then Ok (S754_infinity neg)
  else if String.eqb low "nan" then Ok S754_nan
  else
    let '(ip, r1) := Str.span Str.isdigit body in
    let '(fp, r2) :=
      match r1 with
      | String "." r => Str.span Str.isdigit r
      | _ => (EmptyString, r1)
      end in
    let m := Str.digits_value (ip +:+ fp) in
    let scale := - Z.of_nat (String.length fp) in
    if negb (Str.nonempty ip || Str.nonempty fp) then Raise ValueError
    else
      match r2 with
      | EmptyString => Ok (of_decimal neg m scale)
      | String c r3 =>
          if Ascii.eqb c "e" || Ascii.eqb c "E"
          then
            let '(eneg, r4) := Str.take_sign r3 in
            if Str.nonempty r4 && Str.all_digits r4
            then
              let ex := Str.digits_value r4 in
              Ok (of_decimal neg m ((if eneg then - ex else ex) + scale))
            else Raise ValueError
          else Raise ValueError
      end.

(** The integer nearest to [num / den], ties to even ([0 < den]). *)
Definition round_half_even (num den : Z) : Z :=
  let '(q, r) := Z.div_eucl num den in
  match 2 * r ?= den with
  | Lt => q
  | Gt => q + 1
  | Eq => if Z.even q then q else q + 1
  end.

Definition decimal (n : Z) : string :=
  NilZero.string_of_uint (N.to_uint (Z.to_N n)).

(** The digits of [n / 10^p] with exactly [p] digits after the point. *)
Definition place_point (p : nat) (n : Z) : string :=
  let ds := decimal n in
  let ds := Str.times "0" (Z.of_nat (S p) - Z.of_nat (String.length ds)) +:+ ds in
  let k := (String.length ds - p)%nat in
  match p with
  | O => ds
  | _ => String.substring 0 k ds +:+ "." +:+ String.substring k p ds
  end.

Definition sign_string (neg : bool) : string := if neg then "-" else "".

(** [format(x, '.<p>f')]: fixed notation, correctly rounded to [p] digits. *)
Definition to_fixed (p : nat) (x : spec_float) : string :=
  match x with
  | S754_nan => "nan"
  | S754_infinity s => sign_string s +:+ "inf"
  | S754_zero s => sign_string s +:+ place_point p 0
  | S754_finite s m e =>
      let scaled := Zpos m * 10 ^ Z.of_nat p in
      let n := if 0 <=? e then scaled * 2 ^ e
               else round_half_even scaled (2 ^ (- e)) in
      sign_string s +:+ place_point p n
  end.

(** The [0] flag of a format specification, if any, and what follows. *)
Definition take_zero_flag (s : string) : bool * string :=
  match s with
  | String "0" r => (true, r)
  | _ => (false, s)
  end.

(** The precision of a format specification and what follows: [.] must be
    followed by digits; without [.] the precision is 6. *)
Definition take_precision (s : string) : result (nat * string) :=
  match s with
  | String "." r =>
      let '(ds, r') := Str.span Str.isdigit r in
      if Str.nonempty ds then Ok (Z.to_nat (Str.digits_value ds), r')
      else Raise ValueError
  | _ => Ok (6%nat, s)
  end.

(** [format(x, spec)] for the specifications this program builds: [<],
    then an optional [0] flag, an optional width, an optional [.] and
    precision, and the presentation type [f].  The default precision is 6;
    the fill character is a space, or [0] under the [0] flag.  Any other
    specification raises [ValueError] here. *)
Definition format_spec (spec : string) (x : spec_float) : result string :=
  match spec with
  | String "<" r =>
      let '(zero_flag, r1) := take_zero_flag r in
      let '(w, r2) := Str.span Str.isdigit r1 in
      '(p, r3) ← take_precision r2;
      if String.eqb r3 "f"
      then
        let body := to_fixed p x in
        let fill : string := if zero_flag then "0" else " " in
        Ok (body +:+ Str.times fill (Str.digits_value w - Z.of_nat (String.length body)))
      else Raise ValueError
  | _ => Raise ValueError
  end.

End Float.

(** ** [str.format] on float arguments

    The templates of this program are made of literal text and of
    replacement fields [{:spec}] that take the arguments in order; doubled
    braces stand for themselves.  The model covers these templates only: a
    brace out of place raises [ValueError], and so does, here, a field that
    names its argument or has no [:spec]. *)

Inductive fstate : Type :=
  | Lit
  | Field (body : string).

Definition format_field (body : string) (x : spec_float) : result string :=
  match body with
  | String ":" spec => Float.format_spec spec x
  | _ => Raise ValueError
  end.

Fixpoint format_from (st : fstate) (t : string) (args : list spec_float)
  : result string :=
  match t, st with
  | EmptyString, Lit => Ok ""
  | EmptyString, Field _ => Raise ValueError
  | String c t', Lit =>
      if Ascii.eqb c "{" then
        match t' with
        | String "{" t'' => String "{" <$> format_from Lit t'' args
        | _ => format_from (Field "") t' args
        end
      else if Ascii.eqb c "}" then
        match t' with
        | String "}" t'' => String "}" <$> format_from Lit t'' args
        | _ => Raise ValueError
        end
      else String c <$> format_from Lit t' args
  | String c t', Field body =>
      if Ascii.eqb c "}" then
        match args with
        | [] => Raise IndexError
        | x :: args' =>
            s ← format_field body x;
            rest ← format_from Lit t' args';
            mret (s +:+ rest)
        end
      else if Ascii.eqb c "{" then Raise ValueError
      else format_from (Field (Str.snoc body c)) t' args
  end.

(** [t.format( *args )] *)
Definition format (t : string) (args : list spec_float) : result string :=
  format_from Lit t args.

(** ** The regular expressions of [_parse_format] *)

Module Re.

(** [re.findall(r'(\d+)c', s)] for a character [c] that is not a digit:
    the maximal runs of digits that are followed by [c], in order.  [run]
    is the run of digits being read. *)
Fixpoint findall_digits_then_from (c : ascii) (run s : string) : list string :=
  match s with
  | EmptyString => []
  | String a s' =>
      if Str.isdigit a then findall_digits_then_from c (Str.snoc run a) s'
      else if Ascii.eqb a c && Str.nonempty run
           then run :: findall_digits_then_from c "" s'
           else findall_digits_then_from c "" s'
  end.

Definition findall_digits_then (c : ascii) (s : string) : list string :=
  findall_digits_then_from c "" s.

(** [re.search(r'(\d+)c', s)]: group 1 of the first match, if any. *)
Definition search_digits_then (c : ascii) (s : string) : option string :=
  head (findall_digits_then c s).

Definition spec_char (a : ascii) : bool := Str.isdigit a || Ascii.eqb a ".".

Definition after (a : ascii) : option string :=
  if Ascii.eqb a "f" then Some EmptyString else None.

Definition emit (run : string) (l : list string) : list string :=
  if Str.nonempty run then run :: l else l.

(** [re.findall(r'f([0-9.]+)', s)]: after each [f], the maximal non-empty
    run of digits and dots.  [st] is [Some run] after an [f]. *)
Fixpoint findall_f_from (st : option string) (s : string) : list string :=
  match s with
  | EmptyString =>
      match st with
      | Some run => emit run []
      | None => []
      end
  | String a s' =>
      match st with
      | Some run =>
          if spec_char a then findall_f_from (Some (Str.snoc run a)) s'
          else emit run (findall_f_from (after a) s')
      | None => findall_f_from (after a) s'
      end
  end.

Definition findall_f (s : string) : list string := findall_f_from None s.

End Re.

(** ** numpy arrays *)

Module Np.

(** A two-dimensional array of floats: its shape and its cells. *)
Record ndarray : Type := {
  nrows : nat;
  ncols : nat;
  cell : nat → nat → spec_float
}.

(** The shape [(r, c)] of a new array, [r] being an [int] and [c] an [int]
    or [None]: [None] is not an integer ([TypeError]), and a dimension is
    not negative ([ValueError]). *)
Definition shape (r : Z) (c : option Z) : result (nat * nat) :=
  match c with
  | None => Raise TypeError
  | Some c =>
      if (r <? 0) || (c <? 0) then Raise ValueError
      else Ok (Z.to_nat r, Z.to_nat c)
  end.

(** [np.zeros((r, c))] *)
Definition zeros (r : Z) (c : option Z) : result ndarray :=
  '(nr, nc) ← shape r c;
  mret {| nrows := nr; ncols := nc; cell := λ _ _, Float.zero |}.

(** [np.random.randn(r, c)], the samples being [draw]. *)
Definition randn (draw : nat → nat → spec_float) (r : Z) (c : option Z)
  : result ndarray :=
  '(nr, nc) ← shape r c;
  mret {| nrows := nr; ncols := nc; cell := draw |}.

(** [np.random.randn(n)], the samples being [draw]. *)
Definition randn1 (draw : nat → spec_float) (n : Z) : result (list spec_float) :=
  if n <? 0 then Raise ValueError else Ok (draw <$> seq 0 (Z.to_nat n)).

(** An index along an axis of length [n]: a negative index counts from
    the end. *)
Definition axis_index (n : nat) (i : Z) : result nat :=
  if (0 <=? i) && (i <? Z.of_nat n) then Ok (Z.to_nat i)
  else if (- Z.of_nat n <=? i) && (i <? 0) then Ok (Z.to_nat (i + Z.of_nat n))
  else Raise IndexError.

(** [a[i, j]] *)
Definition getitem2 (a : ndarray) (i j : Z) : result spec_float :=
  i ← axis_index (nrows a) i;
  j ← axis_index (ncols a) j;
  mret (cell a i j).

End Np.

(** ** The program *)

(** [is_data_line(line)], [line] being a list of tokens. *)
Definition is_data_line (line : list string) : result bool :=
  match line with
  | [] => Ok false
  | tok :: _ =>
      match tok with
      | EmptyString => Raise IndexError
      | String c _ => Ok (Str.isdigit c)
      end
  end.

(** [l[i] = x] *)
Definition setitem {A} (l : list A) (i : nat) (x : A) : result (list A) :=
  if decide (i < length l)%nat then Ok (<[i := x]> l) else Raise IndexError.

(** [for line_num in line_nums: self.vary_line(line_num)] *)
Fixpoint for_each {T} (body : nat → T → result T) (line_nums : list nat) (self : T)
  : result T :=
  match line_nums with
  | [] => Ok self
  | n :: ns => self' ← body n self; for_each body ns self'
  end.

Module VFile.

(** The state of a [VFile]: the lines read from the [_mc0] file and the
    format string.  What [print_mc] writes to [mc_file] is its result. *)
Record t : Type := {
  lines : list string;
  frmt_str : string
}.

Definition __init__ (mc0_lines : list string) : t :=
  {| lines := mc0_lines; frmt_str := "" |}.

(** [self.frmt_str = frmt] *)
Definition set_frmt_str (self : t) (frmt : string) : t :=
  {| lines := lines self; frmt_str := frmt |}.

Definition num_lines (self : t) : nat := length (lines self).

Definition newline : string := String (ascii_of_N 10) "".

(** The successive writes of [print(line, file=self.mc_file)]. *)
Definition print_mc (self : t) : list string :=
  (λ line, line +:+ newline) <$> lines self.

Definition format_line (out_list : list spec_float) (line_num : nat) (self : t)
  : result t :=
  formatted ← format (frmt_str self) out_list;
  lines' ← setitem (lines self) line_num formatted;
  mret {| lines := lines'; frmt_str := frmt_str self |}.

End VFile.

Module SDFile.

Record t : Type := {
  lines : list string;
  block_nums : list Z;
  num_blocks : Z;
  cols : option Z;
  rnd : Np.ndarray
}.

(** The loop of [_set_block_nums], from line [i] on: the final [n_line]
    and [block_nums]. *)
Fixpoint _set_block_nums_from (i : nat) (ls : list string) (n_line : Z)
    (block_nums : list Z) : result (Z * list Z) :=
  match ls with
  | [] => Ok (n_line, block_nums)
  | line :: ls' =>
      b ← is_data_line (Str.split line);
      if b : bool then
        block_nums' ← setitem block_nums i (n_line / 6);
        _set_block_nums_from (S i) ls' (n_line + 1) block_nums'
      else _set_block_nums_from (S i) ls' n_line block_nums
  end.

(** [_set_block_nums]: the new [num_blocks] and [block_nums]. *)
Definition _set_block_nums (lines : list string) (block_nums : list Z)
  : result (Z * list Z) :=
  '(n_line, block_nums') ← _set_block_nums_from 0 lines 0 block_nums;
  mret (n_line / 6, block_nums').

(** [_count_cols]: [None] when the loop ends without a [return]. *)
Fixpoint _count_cols (lines : list string) : result (option Z) :=
  match lines with
  | [] => Ok None
  | line :: ls' =>
      b ← is_data_line (Str.split line);
      if b : bool then Ok (Some (Z.of_nat (length (Str.split line)) - 1))
      else _count_cols ls'
  end.

Definition _generate_rnd (draw : nat → nat → spec_float) (num_blocks : Z)
    (cols : option Z) (zero_run : bool) : result Np.ndarray :=
  if zero_run then Np.zeros (num_blocks / 2) cols
  else Np.randn draw (num_blocks / 2) cols.

(** [SDFile(fname, zero_run)], [sd_lines] being the lines of the file. *)
Definition __init__ (draw : nat → nat → spec_float) (sd_lines : list string)
    (zero_run : bool) : result t :=
  '(num_blocks, block_nums) ←
    _set_block_nums sd_lines (replicate (length sd_lines) (-1));
  cols ← _count_cols sd_lines;
  rnd ← _generate_rnd draw num_blocks cols zero_run;
  mret {| lines := sd_lines; block_nums := block_nums;
          num_blocks := num_blocks; cols := cols; rnd := rnd |}.

Definition get_block_num (self : t) (line_num : nat) : result Z :=
  getitem (block_nums self) line_num.

(** One element of the comprehension of [sd_list]. *)
Definition scaled_sd (self : t) (block_num : Z) (i : nat) (sd : string)
  : result spec_float :=
  x ← Float.float sd;
  r ← Np.getitem2 (rnd self) (block_num mod 2) (Z.of_nat i);
  mret (Float.mul x r).

Definition sd_list (self : t) (line_num : nat) : result (list spec_float) :=
  block_num ← get_block_num self line_num;
  line ← getitem (lines self) line_num;
  let sds := Str.split line in
  mapM (λ p, scaled_sd self block_num p.1 p.2) (imap pair (tail sds)).

End SDFile.

Module DatFile.

(** A [DatFile] is a [VFile] with an [SDFile]. *)
Record t : Type := {
  base : VFile.t;
  sdfile : SDFile.t
}.

(** [_parse_format(frmt_line)] *)
Definition _parse_format (frmt_line : string) : result string :=
  let spaces := Re.findall_digits_then "x" frmt_line in
  ints ← mapM Str.int spaces;
  match ints with
  | [lead_spaces; num_spaces] =>
      num_format ← getitem (Re.findall_f frmt_line) 0;
      match Re.search_digits_then "(" frmt_line with
      | None => Raise AttributeError
      | Some group1 =>
          cols ← Str.int group1;
          mret (Str.times " " lead_spaces
                +:+ Str.times ("{:<" +:+ num_format +:+ "f}"
                               +:+ Str.times " " num_spaces) cols)
      end
  | _ => Raise ValueError
  end.

(** [set_format(fname)], [frmt_line] being what [_lines_format] returns:
    the last line of the [.def] file. *)
Definition set_format (self : VFile.t) (frmt_line : string) : result VFile.t :=
  frmt ← _parse_format frmt_line;
  mret (VFile.set_frmt_str self frmt).

(** [DatFile(fname)]: [mc0_lines] are the lines of the baseline table,
    [sd_lines] those of the standard-deviation table, [frmt_line] the last
    line of the [.def] file. *)
Definition __init__ (draw : nat → nat → spec_float)
    (mc0_lines sd_lines : list string) (frmt_line : string) (zero_run : bool)
  : result t :=
  let vfile := VFile.__init__ mc0_lines in
  sd ← SDFile.__init__ draw sd_lines zero_run;
  vfile ← set_format vfile frmt_line;
  mret {| base := vfile; sdfile := sd |}.

Definition with_base (self : t) (b : VFile.t) : t :=
  {| base := b; sdfile := sdfile self |}.

(** The list [varied] that [vary_line] computes for a data line whose
    tokens are [means]. *)
Definition varied (self : t) (line_num : nat) (means : list string)
  : result (list spec_float) :=
  sds ← SDFile.sd_list (sdfile self) line_num;
  means ← mapM Float.float (tail means);
  mret (zip_with Float.add means sds).

Definition vary_line (line_num : nat) (self : t) : result t :=
  line ← getitem (VFile.lines (base self)) line_num;
  let means := Str.split line in
  b ← is_data_line means;
  if b : bool then
    varied ← varied self line_num means;
    with_base self <$> VFile.format_line varied line_num (base self)
  else Ok self.

Definition vary (self : t) : result t :=
  for_each vary_line (seq 0 (VFile.num_lines (base self))) self.

Definition print_mc (self : t) : list string := VFile.print_mc (base self).

End DatFile.

Module Effects.

Record t : Type := {
  sd_pairs : gmap string spec_float;
  lines : list string;
  rnd : list spec_float
}.

Definition _generate_rnd (draw : nat → spec_float) (lines : list string)
    (zero_run : bool) : result (list spec_float) :=
  let size := Z.of_nat (length lines) - 1 in
  if zero_run then Ok (replicate (Z.to_nat size) Float.zero)
  else Np.randn1 draw size.

(** The loop of [_generate_pairs], from item [i] of [sd_lines] on. *)
Fixpoint _generate_pairs_from (rnd : list spec_float) (i : nat)
    (sd_lines : list string) (sd_pairs : gmap string spec_float)
  : result (gmap string spec_float) :=
  match sd_lines with
  | [] => Ok sd_pairs
  | line :: rest =>
      match Str.split_on "," line with
      | [key; sd] =>
          x ← Float.float sd;
          r ← getitem rnd i;
          _generate_pairs_from rnd (S i) rest (<[key := Float.mul x r]> sd_pairs)
      | _ => Raise ValueError
      end
  end.

Definition _generate_pairs (rnd : list spec_float) (lines : list string)
  : result (gmap string spec_float) :=
  _generate_pairs_from rnd 0 (tail lines) ∅.

(** [Effects(zero_run)], [effect_lines] being the lines of
    [effect_mc.txt]. *)
Definition __init__ (draw : nat → spec_float) (effect_lines : list string)
    (zero_run : bool) : result t :=
  rnd ← _generate_rnd draw effect_lines zero_run;
  pairs ← _generate_pairs rnd effect_lines;
  mret {| sd_pairs := pairs; lines := effect_lines; rnd := rnd |}.

(** [line.find(key) != -1] *)
Definition found (line key : string) : bool := negb (Str.find line key =? -1).

(** [_test_repeats], [keys] being [self.sd_pairs.keys()]. *)
Definition _test_repeats (keys : list string) (key line : string) : result unit :=
  let other_keys := List.filter (λ k, negb (String.eqb k key)) keys in
  if existsb (found line) other_keys then Raise SystemExit else Ok tt.

(** The loop of [get_sd] over the items that remain to be visited. *)
Fixpoint get_sd_from (keys : list string) (items : list (string * spec_float))
    (line : string) : result (option spec_float) :=
  match items with
  | [] => Ok None
  | (key, sd) :: rest =>
      if found line key
      then _ ← _test_repeats keys key line; mret (Some sd)
      else get_sd_from keys rest line
  end.

(** [get_sd] when the dictionary is iterated in the order [items]. *)
Definition get_sd_in (items : list (string * spec_float)) (line : string)
  : result (option spec_float) :=
  get_sd_from (items.*1) items line.

(** [get_sd(line)].  Python 2 leaves the iteration order of a [dict]
    unspecified; the order of [map_to_list] stands for it, and
    [get_sd_in] gives the result for any other. *)
Definition get_sd (self : t) (line : string) : result (option spec_float) :=
  get_sd_in (map_to_list (sd_pairs self)) line.

End Effects.

Module InpFile.

Record t : Type := {
  base : VFile.t;
  effects : Effects.t
}.

(** [InpFile(fname)]: [mc0_lines] are the lines of the baseline file,
    [effect_lines] those of [effect_mc.txt]. *)
Definition __init__ (draw : nat → spec_float)
    (mc0_lines effect_lines : list string) (zero_run : bool) : result t :=
  let vfile := VFile.__init__ mc0_lines in
  eff ← Effects.__init__ draw effect_lines zero_run;
  mret {| base := VFile.set_frmt_str vfile "{:<8.6f}"; effects := eff |}.

Definition with_base (self : t) (b : VFile.t) : t :=
  {| base := b; effects := effects self |}.

(** The value [varied] that [vary_line] computes for [line] when the
    coefficient of its key is [sd]. *)
Definition varied (sd : spec_float) (line : string) : result spec_float :=
  tok ← getitem (Str.split line) 0;
  mean ← Float.float tok;
  mret (Float.add mean (Float.mul sd mean)).

Definition vary_line (line_num : nat) (self : t) : result t :=
  line ← getitem (VFile.lines (base self)) line_num;
  sd ← Effects.get_sd (effects self) line;
  match sd with
  | Some sd =>
      varied ← varied sd line;
      with_base self <$> VFile.format_line [varied] line_num (base self)
  | None => Ok self
  end.

Definition vary (self : t) : result t :=
  for_each vary_line (seq 0 (VFile.num_lines (base self))) self.

Definition print_mc (self : t) : list string := VFile.print_mc (base self).

End InpFile.

(** What one table name and one scalar-file name stand for: the contents
    of their files and the samples drawn for them. *)
Record dat_input : Type := {
  dat_mc0 : list string;
  dat_sd : list string;
  dat_def : string;
  dat_draw : nat → nat → spec_float
}.

Record inp_input : Type := {
  inp_mc0 : list string;
  inp_draw : nat → spec_float
}.

(** The body of the first loop of [main]: what is written to the [_mc]
    file of the table. *)
Definition main_dat (zero_run : bool) (f : dat_input) : result (list string) :=
  datfile ← DatFile.__init__ (dat_draw f) (dat_mc0 f) (dat_sd f) (dat_def f) zero_run;
  datfile ← DatFile.vary datfile;
  mret (DatFile.print_mc datfile).

(** The body of the second loop of [main]; every [InpFile] reads
    [effect_mc.txt] again. *)
Definition main_inp (zero_run : bool) (effect_lines : list string) (f : inp_input)
  : result (list string) :=
  inpfile ← InpFile.__init__ (inp_draw f) (inp_mc0 f) effect_lines zero_run;
  inpfile ← InpFile.vary inpfile;
  mret (InpFile.print_mc inpfile).

(** [main()]: the tables of [betafiles.txt], then the scalar files of the
    command line.  An exception that is raised anywhere ends the run. *)
Definition main (zero_run : bool) (beta_files : list dat_input)
    (effect_lines : list string) (inp_files : list inp_input)
  : result (list (list string) * list (list string)) :=
  dats ← mapM (main_dat zero_run) beta_files;
  inps ← mapM (main_inp zero_run effect_lines) inp_files;
  mret (dats, inps).

(** ** Names and contents of the files *)

Module Io.

Definition LF : ascii := ascii_of_N 10.
Definition CR : ascii := ascii_of_N 13.

(** [s.splitlines()] on a [str]: the line boundaries are \n, \r and \r\n.
    [after_cr] holds right after a \r, [cur] is the line being read. *)
Fixpoint splitlines_from (after_cr : bool) (cur s : string) : list string :=
  match s with
  | EmptyString => if Str.nonempty cur then [cur] else []
  | String c s' =>
      if Ascii.eqb c LF then
        if after_cr then splitlines_from false "" s'
        else cur :: splitlines_from false "" s'
      else if Ascii.eqb c CR then cur :: splitlines_from true "" s'
      else splitlines_from false (Str.snoc cur c) s'
  end.

Definition splitlines (s : string) : list string := splitlines_from false "" s.

(** [f.readlines()]: the lines of the file, each with its \n. *)
Fixpoint readlines_from (cur s : string) : list string :=
  match s with
  | EmptyString => if Str.nonempty cur then [cur] else []
  | String c s' =>
      if Ascii.eqb c LF then Str.snoc cur c :: readlines_from "" s'
      else readlines_from (Str.snoc cur c) s'
  end.

Definition readlines (s : string) : list string := readlines_from "" s.

(** [os.path.join(a, b)] *)
Definition join (a b : string) : string :=
  match b with
  | String "/" _ => b
  | _ =>
      match a with
      | EmptyString => b
      | _ => if String.eqb (String.substring (String.length a - 1) 1 a) "/"
             then a +:+ b
             else a +:+ "/" +:+ b
      end
  end.

(** What [print] calls leave in a file: their strings, one after the
    other. *)
Definition written (prints : list string) : string := foldr append "" prints.

End Io.

Arguments Io.LF : simpl never.
Arguments Io.CR : simpl never.

(** [read_lines(fname)], [content] being the content of the file. *)
Definition read_lines (content : string) : list string := Io.splitlines content.

(** [[\w']]: a letter, a digit, an underscore or an apostrophe. *)
Definition word_char (a : ascii) : bool :=
  let n := Str.code a in
  ((97 <=? n) && (n <=? 122) || (65 <=? n) && (n <=? 90)
   || (48 <=? n) && (n <=? 57) || (n =? 95) || (n =? 39))%N.

(** [re.findall(r"[\w']+", s)]: the maximal non-empty runs of such
    characters.  [run] is the run being read. *)
Fixpoint findall_words_from (run s : string) : list string :=
  match s with
  | EmptyString => Re.emit run []
  | String a s' =>
      if word_char a then findall_words_from (Str.snoc run a) s'
      else Re.emit run (findall_words_from "" s')
  end.

(** [parse_list(files)] *)
Definition parse_list (files : string) : list string := findall_words_from "" files.

(** The names of the files of a [VFile]: the [_mc] file that
    [VFile.__init__] opens for writing and the [_mc0] file that it reads. *)
Definition vfile_names (fname : string) : result (string * string) :=
  match Str.split_on "." fname with
  | [pref; ext] => Ok (pref +:+ "_mc." +:+ ext, pref +:+ "_mc0." +:+ ext)
  | _ => Raise ValueError
  end.

(** The names of the files of a [DatFile]. *)
Record dat_names : Type := {
  dat_mc : string;
  dat_mc0_name : string;
  dat_sd_name : string;
  dat_def_name : string
}.

(** The files that [DatFile(fname)] opens, in the order of the
    constructor: those of the [VFile], the standard deviations, the
    descriptor. *)
Definition datfile_names (fname : string) : result dat_names :=
  '(mc, mc0) ← vfile_names (Io.join "modfile" (fname +:+ ".dat"));
  mret {| dat_mc := mc; dat_mc0_name := mc0;
          dat_sd_name := Io.join "modfile" (fname +:+ "sd.dat");
          dat_def_name := Io.join (Io.join "input" "inputchk") (fname +:+ ".def") |}.

(** The files that [InpFile(fname)] opens; it also reads
    [effect_mc.txt]. *)
Definition inpfile_names (fname : string) : result (string * string) :=
  vfile_names (fname +:+ ".inp").

(** [_lines_format(fname)], [content] being the content of the [.def]
    file. *)
Definition _lines_format (content : string) : result string :=
  match last (Io.readlines content) with
  | Some line => Ok line
  | None => Raise IndexError
  end.

(** ** Vocabulary of the properties *)

(** The first whitespace-delimited token of [line] starts with a decimal
    digit. *)
Definition data_line (line : string) : bool :=
  match Str.split line with
  | String c _ :: _ => Str.isdigit c
  | _ => false
  end.

(** Every character of [s] is whitespace ([s] may be empty). *)
Fixpoint all_space (s : string) : bool :=
  match s with
  | EmptyString => true
  | String c s' => Str.isspace c && all_space s'
  end.

(** The number of data lines among [ls]. *)
Definition count_data (ls : list string) : Z :=
  Z.of_nat (length (List.filter data_line ls)).

(** The ordinal of line [i] among the data lines of [ls]: the number of
    data lines before it. *)
Definition data_ordinal (ls : list string) (i : nat) : Z :=
  count_data (take i ls).

(** [key] occurs in [line]. *)
Definition is_substring (key line : string) : Prop :=
  ∃ pre post, line = pre +:+ key +:+ post.

(** The float that the decimal literal [s] denotes. *)
Definition lit (s : string) : spec_float :=
  match Float.float s with
  | Ok x => x
  | Raise _ => S754_nan
  end.




Definition is_zero (x : spec_float) : bool :=
  match x with
  | S754_zero _ => true
  | _ => false
  end.



(** [s.ljust(width)] *)
Definition ljust (width : Z) (s : string) : string :=
  s +:+ Str.times " " (width - Z.of_nat (String.length s)).

(** The concatenation of the strings of [l]. *)
Definition join (l : list string) : string := foldr append "" l.

(** [s] has no brace. *)
Fixpoint no_brace (s : string) : bool :=
  match s with
  | EmptyString => true
  | String c s' => negb (Ascii.eqb c "{") && negb (Ascii.eqb c "}") && no_brace s'
  end.

(** The line of a table: [lead] spaces, then each value in fixed notation
    with [p] decimals, left-justified on [width] characters and followed by
    [num] spaces. *)
Definition table_line (lead num width : Z) (p : nat) (vals : list spec_float)
  : string :=
  Str.times " " lead
  +:+ join ((λ v, ljust width (Float.to_fixed p v) +:+ Str.times " " num) <$> vals).



(** Every character of [s] satisfies [p]. *)
Fixpoint all_chars (p : ascii → bool) (s : string) : bool :=
  match s with
  | EmptyString => true
  | String c s' => p c && all_chars p s'
  end.

(** [s] is a name as [parse_list] finds them: a non-empty run of letters,
    digits, underscores and apostrophes. *)
Definition word (s : string) : bool := Str.nonempty s && all_chars word_char s.

(** No character of [s] is one of those. *)
Definition nonword (s : string) : bool := all_chars (λ a, negb (word_char a)) s.

(** The character [c] does not occur in [s]. *)
Definition no_char (c : ascii) (s : string) : bool :=
  all_chars (λ a, negb (Ascii.eqb a c)) s.

(** [s] has no line boundary: neither \n nor \r. *)
Definition no_break (s : string) : bool :=
  all_chars (λ a, negb (Ascii.eqb a Io.LF) && negb (Ascii.eqb a Io.CR)) s.

(** [s] is empty or ends with \n. *)
Definition complete_lines (s : string) : Prop :=
  s = "" ∨ ∃ s', s = s' +:+ String Io.LF "".

(** The characters of [s] in reverse order. *)
Fixpoint rev_string (s : string) : string :=
  match s with
  | EmptyString => ""
  | String c s' => rev_string s' +:+ String c ""
  end.

(** The fill character of a field whose width is written [w]: the [0]
    flag of the format specification is a [0] at the head of the width. *)
Definition pad_char (w : string) : string :=
  match w with
  | String c _ => if Ascii.eqb c "0" then "0" else " "
  | EmptyString => " "
  end.

(** [s] followed by copies of [fill] up to [width] characters. *)
Definition ljust_fill (fill : string) (width : Z) (s : string) : string :=
  s +:+ Str.times fill (width - Z.of_nat (String.length s)).

(** A line of the table for the descriptor fields [w.p]: [lead] blanks,
    then every value in fixed notation with [p] decimals, filled on the
    right up to the width [w] and followed by [num] blanks. *)
Definition field_line (w p : string) (lead num : Z) (vals : list spec_float)
  : string :=
  Str.times " " lead
  +:+ join ((λ v, ljust_fill (pad_char w) (Str.digits_value w)
                    (Float.to_fixed (Z.to_nat (Str.digits_value p)) v)
                  +:+ Str.times " " num) <$> vals).

(** [line] is an entry [key,sd] of the effects table: one comma, and a
    number after it. *)
Definition effect_entry (line : string) : bool :=
  match Str.split_on "," line with
  | [_; sd] => match Float.float sd with Ok _ => true | Raise _ => false end
  | _ => false
  end.

(** The key of an entry of the effects table: what stands before the
    first comma. *)
Definition entry_key (line : string) : option string :=
  head (Str.split_on "," line).

(** The line that [InpFile.vary_line] leaves in place of [line], for the
    effects [eff] and the format string [frmt]. *)
Definition inp_line (eff : Effects.t) (frmt line : string) : result string :=
  sd ← Effects.get_sd eff line;
  match sd with
  | Some sd => varied ← InpFile.varied sd line; format frmt [varied]
  | None => Ok line
  end.

(** The line that [DatFile.vary_line] leaves in place of line [i], which is
    [line], of the table [self]. *)
Definition dat_line (self : DatFile.t) (i : nat) (line : string) : result string :=
  b ← is_data_line (Str.split line);
  if b : bool then
    varied ← DatFile.varied self i (Str.split line);
    format (VFile.frmt_str (DatFile.base self)) varied
  else Ok line.

(** A [VFile] with the lines [ls] and the format string of [b]. *)
Definition with_lines (b : VFile.t) (ls : list string) : VFile.t :=
  {| VFile.lines := ls; VFile.frmt_str := VFile.frmt_str b |}.

(** ** Inputs of the examples *)

(** The value of a result, or [default] when it raised. *)
Definition ok_or {A} (default : A) (m : result A) : A :=
  match m with
  | Ok a => a
  | Raise _ => default
  end.

Definition no_array : Np.ndarray :=
  {| Np.nrows := 0; Np.ncols := 0; Np.cell := λ _ _, Float.zero |}.

Definition no_sdfile : SDFile.t :=
  {| SDFile.lines := []; SDFile.block_nums := []; SDFile.num_blocks := 0;
     SDFile.cols := None; SDFile.rnd := no_array |}.

Definition no_datfile : DatFile.t :=
  {| DatFile.base := VFile.__init__ []; DatFile.sdfile := no_sdfile |}.

Definition no_effects : Effects.t :=
  {| Effects.sd_pairs := ∅; Effects.lines := []; Effects.rnd := [] |}.

Definition no_inpfile : InpFile.t :=
  {| InpFile.base := VFile.__init__ []; InpFile.effects := no_effects |}.

(** Samples: every cell is 1.0; row 0 is 1.0 and the other rows are 2.0. *)
Definition draw_ones : nat → nat → spec_float := λ _ _, lit "1.0".
Definition draw_rows : nat → nat → spec_float :=
  λ r _, match r with O => lit "1.0" | S _ => lit "2.0" end.
Definition draw1_ones : nat → spec_float := λ _, lit "1.0".

(** A table of one column with twelve data lines, and its deviations. *)
Definition dat_12 : list string := replicate 12 "1 5.0".
Definition sd_12 : list string := replicate 12 "1 0.1".
Definition descriptor_1 : string := "(1x,1(f7.3,1x))".
Definition datfile_12 : DatFile.t :=
  ok_or no_datfile (DatFile.__init__ draw_ones dat_12 sd_12 descriptor_1 false).

(** A table with a title line and 24 data lines; its deviations have 25
    data lines and no title line. *)
Definition dat_25 : list string := "title" :: replicate 24 "1 5.0".
Definition sd_25 : list string := replicate 25 "1 1.0".
Definition datfile_25 : DatFile.t :=
  ok_or no_datfile (DatFile.__init__ draw_rows dat_25 sd_25 descriptor_1 false).

(** A standard-deviation table without a data line. *)
Definition sd_header_only : list string := ["standard deviations"; ""].

(** Format descriptors: the usual one; one whose field specifier is
    malformed; one with three padding tokens; three with a token missing. *)
Definition descriptor_4 : string := "(5x,4(f10.5,3x))".

Definition values_1234 : list spec_float :=
  [lit "1.0"; lit "2.0"; lit "3.0"; lit "4.0"].

(** Tables with a title line, 24 data lines and a blank line: deviations
    that are numbers, and deviations that are NaN. *)
Definition dat_24 : list string := "table" :: replicate 24 "1 5.0" ++ ["   "].
Definition sd_24 : list string := "table" :: replicate 24 "1 0.2" ++ ["   "].
Definition datfile_24 (zero_run : bool) : DatFile.t :=
  ok_or no_datfile (DatFile.__init__ draw_ones dat_24 sd_24 descriptor_1 zero_run).

(** Scalar files and effects tables. *)
Definition effect_lines : list string := ["key,sd"; "KEY,0.1"].
Definition effect_lines_ab : list string := ["key,sd"; "A,0.1"; "B,0.2"].
Definition inp_lines : list string :=
  ["* parameters"; "5.0 KEY"; "-5.0 KEY"; "inf KEY"].
Definition inp_lines_ab : list string := ["5.0 A"; "5.0 A B"; "5.0 C"].
Definition inpfile (zero_run : bool) : InpFile.t :=
  ok_or no_inpfile (InpFile.__init__ draw1_ones inp_lines effect_lines zero_run).
Definition inpfile_ab : InpFile.t :=
  ok_or no_inpfile (InpFile.__init__ draw1_ones inp_lines_ab effect_lines_ab false).

(** The files after [vary]. *)
Definition datfile_24_varied (zero_run : bool) : DatFile.t :=
  ok_or no_datfile (DatFile.vary (datfile_24 zero_run)).
Definition inpfile_varied (zero_run : bool) : InpFile.t :=
  ok_or no_inpfile (InpFile.vary (inpfile zero_run)).

(** Effects whose keys are nested, and an effects table with an empty
    key. *)
Definition effects_nested : Effects.t :=
  ok_or no_effects (Effects.__init__ draw1_ones ["key,sd"; "RR,0.1"; "RR2,0.2"] false).
Definition effects_empty_key : Effects.t :=
  ok_or no_effects (Effects.__init__ draw1_ones ["key,sd"; ",0.1"] false).

(** An effects table in which a key comes twice. *)
Definition effects_twice : Effects.t :=
  ok_or no_effects
    (Effects.__init__ draw1_ones ["key,sd"; "KEY,0.1"; "OTHER,0.3"; "KEY,0.2"] false).

(** A deviations table whose second line has more columns than the
    first. *)
Definition sd_ragged : list string := ["1 0.2"; "2 0.2 0.3"].
Definition sdfile_ragged : SDFile.t :=
  ok_or no_sdfile (SDFile.__init__ draw_ones sd_ragged false).


(** A file with three lines. *)
Definition vfile_3 : VFile.t := VFile.__init__ ["* title"; "1 0.0 0.0 0.0 0.0"; ""].

(** Contents of files. *)
Definition def_content : string :=
  "table of rates" +:+ String Io.LF ("(5x,4(f10.5,3x))" +:+ String Io.LF "").

(** * Properties *)

(** ** Results and comprehensions *)

Lemma bind_Ok {A B} (m : result A) (f : A → result B) (b : B) :
  m ≫= f = Ok b ↔ ∃ a, m = Ok a ∧ f a = Ok b.
Proof.
  destruct m as [a|e]; simpl; split.
  - eauto.
  - intros (a' & [= ->] & H). exact H.
  - discriminate.
  - intros (a' & [=] & _).
Qed.

Lemma fmap_Ok {A B} (m : result A) (f : A → B) (b : B) :
  f <$> m = Ok b ↔ ∃ a, m = Ok a ∧ b = f a.
Proof.
  destruct m as [a|e]; simpl; split.
  - intros [= <-]. eauto.
  - intros (a' & [= ->] & ->). reflexivity.
  - discriminate.
  - intros (a' & [=] & _).
Qed.

Lemma getitem_Ok {A} (l : list A) (i : nat) (a : A) :
  getitem l i = Ok a ↔ l !! i = Some a.
Proof.
  unfold getitem. destruct (l !! i); split; congruence.
Qed.

Lemma setitem_Ok {A} (l : list A) (i : nat) (x : A) :
  (i < length l)%nat → setitem l i x = Ok (<[i := x]> l).
Proof. intros H. unfold setitem. case_decide; [reflexivity | contradiction]. Qed.

Lemma setitem_inv {A} (l l' : list A) (i : nat) (x : A) :
  setitem l i x = Ok l' → l' = <[i := x]> l.
Proof. unfold setitem. case_decide; congruence. Qed.

Lemma mapM_Ok_lookup {A B} (f : A → result B) (l : list A) (ys : list B) :
  mapM f l = Ok ys →
  length ys = length l
  ∧ ∀ j y, ys !! j = Some y → ∃ x, l !! j = Some x ∧ f x = Ok y.
Proof.
  revert ys. induction l as [|a l IH]; simpl; intros ys H.
  - injection H as <-. split; [reflexivity | intros j y [=]].
  - apply bind_Ok in H as (y0 & Hy0 & H).
    apply bind_Ok in H as (ys' & Hys & [= <-]).
    destruct (IH ys' Hys) as [Hlen Hl]. split; [simpl; lia|].
    intros [|j] y Hj; simpl in *; [injection Hj as <-; eauto | eauto].
Qed.

Lemma mapM_raises_head {A B} (f : A → result B) (a : A) (l : list A) :
  raises (f a) → raises (mapM f (a :: l)).
Proof. intros [e He]. exists e. simpl. by rewrite He. Qed.

Lemma imap_pair_lookup {A} (l : list A) (j : nat) (p : nat * A) :
  imap pair l !! j = Some p → p.1 = j ∧ l !! j = Some p.2.
Proof.
  rewrite list_lookup_imap. destruct (l !! j); simpl; [|discriminate].
  intros [= <-]. auto.
Qed.



(** ** Strings *)

Lemma append_cons (a : ascii) (s t : string) :
  String a s +:+ t = String a (s +:+ t).
Proof. reflexivity. Qed.

Lemma append_nil_l (t : string) : "" +:+ t = t.
Proof. reflexivity. Qed.

Ltac str_simpl := rewrite ?append_cons, ?append_nil_l in *.

Lemma append_assoc (s t u : string) : (s +:+ t) +:+ u = s +:+ (t +:+ u).
Proof. induction s as [|c s IH]; str_simpl; [reflexivity | by rewrite IH]. Qed.

Lemma append_nil_r (s : string) : s +:+ "" = s.
Proof. induction s as [|c s IH]; str_simpl; [reflexivity | by rewrite IH]. Qed.

(** ** Tokens *)

Lemma split_from_nonempty (s tok : string) :
  Forall (λ t, Str.nonempty t = true) (Str.split_from tok s).
Proof.
  revert tok. induction s as [|c s IH]; intros tok; simpl.
  - destruct (Str.nonempty tok) eqn:E; repeat constructor. exact E.
  - destruct (Str.isspace c).
    + destruct (Str.nonempty tok) eqn:E; [constructor; [exact E|]|]; apply IH.
    + apply IH.
Qed.

Lemma split_nonempty (s : string) :
  Forall (λ t, Str.nonempty t = true) (Str.split s).
Proof. apply split_from_nonempty. Qed.

Lemma split_all_space (s : string) : all_space s = true → Str.split s = [].
Proof.
  unfold Str.split. induction s as [|c s IH]; simpl; [reflexivity|].
  intros [Hc Hs]%andb_true_iff. rewrite Hc. simpl. auto.
Qed.

(** On the tokens of a line, [is_data_line] never raises. *)
Lemma is_data_line_split (line : string) :
  is_data_line (Str.split line) = Ok (data_line line).
Proof.
  unfold data_line. pose proof (split_nonempty line) as H.
  destruct (Str.split line) as [|tok toks]; [reflexivity|].
  apply Forall_cons_1 in H as [H _].
  destruct tok; [discriminate | reflexivity].
Qed.

Lemma data_line_all_space (s : string) : all_space s = true → data_line s = false.
Proof. intros H. unfold data_line. rewrite split_all_space; auto. Qed.

Lemma data_line_tokens (line : string) :
  data_line line = true → (1 ≤ length (Str.split line))%nat.
Proof.
  unfold data_line. destruct (Str.split line); [discriminate | simpl; lia].
Qed.

(** ** Substrings and [find] *)

Lemma prefix_spec (key line : string) :
  String.prefix key line = true ↔ ∃ post, line = key +:+ post.
Proof.
  revert line. induction key as [|a key IH]; intros line; simpl.
  - destruct line; split; eauto.
  - destruct line as [|b line]; simpl.
    + split; [discriminate | intros (post & [=])].
    + destruct (ascii_dec a b) as [->|Hne].
      * rewrite IH. split; intros (post & H); exists post; str_simpl; congruence.
      * split; [discriminate | intros (post & H); str_simpl; congruence].
Qed.

Lemma is_substring_cons (key : string) (c : ascii) (rest : string) :
  is_substring key (String c rest) ↔
  String.prefix key (String c rest) = true ∨ is_substring key rest.
Proof.
  rewrite prefix_spec. split.
  - intros (pre & post & H). destruct pre as [|a pre]; str_simpl.
    + left. eauto.
    + right. injection H as _ H. exists pre, post. exact H.
  - intros [(post & H) | (pre & post & H)].
    + exists "", post. exact H.
    + exists (String c pre), post. str_simpl. congruence.
Qed.

Lemma is_substring_empty (key : string) :
  is_substring key "" ↔ String.prefix key "" = true.
Proof.
  rewrite prefix_spec. split.
  - intros (pre & post & H). destruct pre; [eauto | discriminate].
  - intros (post & H). exists "", post. exact H.
Qed.

Lemma find_from_cons (key : string) (c : ascii) (rest : string) (i : Z) :
  Str.find_from i (String c rest) key =
  if String.prefix key (String c rest) then i else Str.find_from (i + 1) rest key.
Proof. reflexivity. Qed.

Lemma find_from_spec (key line : string) (i : Z) :
  0 ≤ i → (Str.find_from i line key ≠ -1 ↔ is_substring key line).
Proof.
  revert i. induction line as [|c rest IH]; intros i Hi.
  - rewrite is_substring_empty.
    destruct key; simpl; split; intros H; try reflexivity; try discriminate; lia.
  - rewrite is_substring_cons, find_from_cons.
    destruct (String.prefix key (String c rest)) eqn:E.
    + split; [auto | lia].
    + rewrite IH by lia. split; [auto | intros [?|?]; [discriminate | assumption]].
Qed.

Lemma found_spec (line key : string) :
  Effects.found line key = true ↔ is_substring key line.
Proof.
  unfold Effects.found, Str.find. rewrite <- (find_from_spec key line 0) by lia.
  rewrite negb_true_iff, Z.eqb_neq. reflexivity.
Qed.

(** ** Runs of digits *)

Lemma isdigit_not_space (c : ascii) : Str.isdigit c = true → Str.isspace c = false.
Proof.
  unfold Str.isdigit, Str.isspace. intros [H1 H2]%andb_true_iff.
  apply N.leb_le in H1, H2.
  destruct (N.eqb_spec (Str.code c) 32); [lia|].
  destruct (N.leb_spec (Str.code c) 13); [lia|]. by rewrite andb_false_r.
Qed.

Lemma take_sign_digit (c : ascii) (s : string) :
  Str.isdigit c = true → Str.take_sign (String c s) = (false, String c s).
Proof.
  destruct c as [[] [] [] [] [] [] [] []]; (discriminate || reflexivity).
Qed.

Lemma all_digits_snoc (run : string) (a : ascii) :
  Str.all_digits run = true → Str.isdigit a = true →
  Str.all_digits (Str.snoc run a) = true.
Proof.
  intros Hr Ha. unfold Str.snoc. induction run as [|c run IH]; str_simpl; simpl in *.
  - by rewrite Ha.
  - apply andb_true_iff in Hr as [-> Hr]. auto.
Qed.

Lemma rstrip_digits (s : string) : Str.all_digits s = true → Str.rstrip s = s.
Proof.
  induction s as [|c s IH]; simpl; [reflexivity|].
  intros [Hc Hs]%andb_true_iff. rewrite (IH Hs).
  destruct s; [by rewrite (isdigit_not_space c Hc) | reflexivity].
Qed.

Lemma strip_digits (s : string) : Str.all_digits s = true → Str.strip s = s.
Proof.
  intros Hs. unfold Str.strip.
  assert (Str.lstrip s = s) as ->; [|by apply rstrip_digits].
  destruct s as [|c s]; [reflexivity|]. simpl in *.
  apply andb_true_iff in Hs as [Hc _]. by rewrite (isdigit_not_space c Hc).
Qed.

(** [int] of a non-empty run of digits is its value. *)
Lemma int_digits (s : string) :
  Str.nonempty s = true → Str.all_digits s = true →
  Str.int s = Ok (Str.digits_value s).
Proof.
  intros Hn Hs. unfold Str.int. rewrite (strip_digits s Hs).
  destruct s as [|c s]; [discriminate|].
  rewrite take_sign_digit by (by apply andb_true_iff in Hs as [? _]).
  by rewrite Hn, Hs.
Qed.

Lemma findall_digits_then_from_runs (c : ascii) (s run : string) :
  Str.all_digits run = true →
  Forall (λ g, Str.nonempty g = true ∧ Str.all_digits g = true)
         (Re.findall_digits_then_from c run s).
Proof.
  revert run. induction s as [|a s IH]; intros run Hrun; simpl; [constructor|].
  destruct (Str.isdigit a) eqn:Ha.
  - apply IH. by apply all_digits_snoc.
  - destruct (Ascii.eqb a c && Str.nonempty run) eqn:E.
    + apply andb_true_iff in E as [_ E]. constructor; [auto | by apply IH].
    + by apply IH.
Qed.

Lemma findall_digits_then_runs (c : ascii) (s : string) :
  Forall (λ g, Str.nonempty g = true ∧ Str.all_digits g = true)
         (Re.findall_digits_then c s).
Proof. by apply findall_digits_then_from_runs. Qed.

Lemma mapM_int_runs (groups : list string) :
  Forall (λ g, Str.nonempty g = true ∧ Str.all_digits g = true) groups →
  mapM Str.int groups = Ok (Str.digits_value <$> groups).
Proof.
  induction 1 as [|g groups [Hn Hd] _ IH]; simpl; [reflexivity|].
  by rewrite (int_digits g Hn Hd), IH.
Qed.

Lemma span_digits_stop (w rest : string) :
  Str.all_digits w = true →
  match rest with String c _ => Str.isdigit c = false | EmptyString => True end →
  Str.span Str.isdigit (w +:+ rest) = (w, rest).
Proof.
  intros Hw Hrest. induction w as [|c w IH]; str_simpl; simpl in *.
  - destruct rest as [|c rest]; [reflexivity|]. simpl. by rewrite Hrest.
  - apply andb_true_iff in Hw as [-> Hw]. by rewrite (IH Hw).
Qed.

(** ** Presence of the tokens of a descriptor *)









(** ** Rendering through a template *)

Lemma format_from_literal (c : ascii) (t : string) (args : list spec_float) :
  Ascii.eqb c "{" = false → Ascii.eqb c "}" = false →
  format_from Lit (String c t) args = String c <$> format_from Lit t args.
Proof. intros H1 H2. simpl. by rewrite H1, H2. Qed.

(** Spaces are copied. *)
Lemma format_from_spaces (n : nat) (t : string) (args : list spec_float) :
  format_from Lit (Str.times_nat " " n +:+ t) args
  = append (Str.times_nat " " n) <$> format_from Lit t args.
Proof.
  induction n as [|n IH]; simpl; str_simpl.
  - by destruct (format_from Lit t args).
  - rewrite IH. by destruct (format_from Lit t args).
Qed.

(** Inside a field the characters are gathered up to the closing brace;
    the field then takes the next argument. *)
Lemma format_from_body (s body t : string) (args : list spec_float) :
  no_brace s = true →
  format_from (Field body) (s +:+ String "}" t) args
  = match args with
    | [] => Raise IndexError
    | x :: args' =>
        r ← format_field (body +:+ s) x;
        rest ← format_from Lit t args';
        mret (r +:+ rest)
    end.
Proof.
  revert body. induction s as [|c s IH]; intros body Hs; str_simpl.
  - simpl. by rewrite append_nil_r.
  - simpl in Hs. apply andb_true_iff in Hs as [[H1 H2]%andb_true_iff Hs].
    apply negb_true_iff in H1, H2. simpl. rewrite H1, H2, (IH _ Hs).
    unfold Str.snoc. rewrite append_assoc. by str_simpl.
Qed.

Lemma format_from_field (nf t : string) (args : list spec_float) :
  no_brace nf = true →
  format_from Lit ("{:<" +:+ nf +:+ "f}" +:+ t) args
  = match args with
    | [] => Raise IndexError
    | x :: args' =>
        r ← Float.format_spec ("<" +:+ nf +:+ "f") x;
        rest ← format_from Lit t args';
        mret (r +:+ rest)
    end.
Proof.
  intros Hnf.
  change (format_from Lit ("{:<" +:+ nf +:+ "f}" +:+ t) args)
    with (format_from (Field "") (":<" +:+ nf +:+ "f}" +:+ t) args).
  replace (":<" +:+ nf +:+ "f}" +:+ t)
    with ((":<" +:+ nf +:+ "f") +:+ String "}" t)
    by (rewrite !append_assoc; by str_simpl).
  rewrite format_from_body.
  - destruct args as [|x args']; reflexivity.
  - str_simpl. simpl. induction nf as [|c nf IH]; str_simpl; simpl in *.
    + reflexivity.
    + apply andb_true_iff in Hnf as [-> Hnf]. by apply IH.
Qed.

(** [cols] fields followed by [num] spaces take the first [cols] values;
    the values that are left are ignored. *)
Lemma format_from_fields (nf : string) (num : nat) (vals : list spec_float) :
  ∀ (strs : list string) (extra : list spec_float),
    no_brace nf = true →
    mapM (Float.format_spec ("<" +:+ nf +:+ "f")) vals = Ok strs →
    format_from Lit
      (Str.times_nat ("{:<" +:+ nf +:+ "f}" +:+ Str.times_nat " " num) (length vals))
      (vals ++ extra)
    = Ok (join ((λ r, r +:+ Str.times_nat " " num) <$> strs)).
Proof.
  induction vals as [|v vals IH]; intros strs extra Hnf Hm;
    cbn [mapM length Str.times_nat app] in *.
  - by injection Hm as <-.
  - apply bind_Ok in Hm as (r & Hr & Hm).
    apply bind_Ok in Hm as (strs' & Hs & [= <-]).
    rewrite !append_assoc, format_from_field by exact Hnf.
    rewrite Hr. cbn [mbind result_bind].
    rewrite format_from_spaces, (IH strs' extra Hnf Hs).
    cbn. by rewrite append_assoc.
Qed.

(** With fewer values than fields, [format] raises [IndexError]. *)
Lemma format_from_too_few (nf : string) (num : nat) (vals : list spec_float) :
  ∀ (k : nat) (strs : list string),
    no_brace nf = true →
    mapM (Float.format_spec ("<" +:+ nf +:+ "f")) vals = Ok strs →
    (length vals < k)%nat →
    format_from Lit
      (Str.times_nat ("{:<" +:+ nf +:+ "f}" +:+ Str.times_nat " " num) k) vals
    = Raise IndexError.
Proof.
  induction vals as [|v vals IH]; intros k strs Hnf Hm Hk;
    (destruct k as [|k]; [simpl in Hk; lia|]);
    cbn [mapM length Str.times_nat] in *.
  - by rewrite !append_assoc, format_from_field.
  - apply bind_Ok in Hm as (r & Hr & Hm).
    apply bind_Ok in Hm as (strs' & Hs & _).
    rewrite !append_assoc, format_from_field by exact Hnf.
    rewrite Hr. cbn [mbind result_bind].
    rewrite format_from_spaces, (IH k strs' Hnf Hs) by lia.
    reflexivity.
Qed.

Lemma take_zero_flag_other (c : ascii) (s : string) :
  Ascii.eqb c "0" = false →
  Float.take_zero_flag (String c s) = (false, String c s).
Proof.
  destruct c as [[] [] [] [] [] [] [] []]; (discriminate || reflexivity).
Qed.

Lemma format_spec_left (r : string) (x : spec_float) :
  Float.format_spec (String "<" r) x =
    let '(zero_flag, r1) := Float.take_zero_flag r in
    let '(w, r2) := Str.span Str.isdigit r1 in
    '(p, r3) ← Float.take_precision r2;
    if String.eqb r3 "f"
    then Ok (Float.to_fixed p x
             +:+ Str.times (if zero_flag then "0" else " ")
                   (Str.digits_value w
                    - Z.of_nat (String.length (Float.to_fixed p x))))
    else Raise ValueError.
Proof. reflexivity. Qed.

(** A field specifier [width.precision] renders the value in fixed
    notation with [precision] decimals, left-justified on [width]
    characters. *)
Lemma format_spec_width_precision (w p : string) (x : spec_float) :
  Str.all_digits w = true → Str.all_digits p = true → Str.nonempty p = true →
  match w with String c _ => Ascii.eqb c "0" = false | EmptyString => True end →
  Float.format_spec ("<" +:+ w +:+ "." +:+ p +:+ "f") x
  = Ok (ljust (Str.digits_value w) (Float.to_fixed (Z.to_nat (Str.digits_value p)) x)).
Proof.
  intros Hw Hp Hn H0. str_simpl. rewrite format_spec_left.
  assert (Float.take_zero_flag (w +:+ String "." (p +:+ "f"))
          = (false, w +:+ String "." (p +:+ "f"))) as ->.
  { destruct w as [|c w]; str_simpl; [reflexivity|]. by apply take_zero_flag_other. }
  rewrite (span_digits_stop w (String "." (p +:+ "f")) Hw) by reflexivity.
  unfold Float.take_precision.
  rewrite (span_digits_stop p "f" Hp) by reflexivity.
  rewrite Hn. reflexivity.
Qed.

(** The template of [_parse_format] renders [cols] values as a line of the
    table. *)
Lemma format_template (lead num cols : Z) (w p : string) (vals : list spec_float) :
  Str.all_digits w = true → Str.all_digits p = true → Str.nonempty p = true →
  match w with String c _ => Ascii.eqb c "0" = false | EmptyString => True end →
  length vals = Z.to_nat cols →
  format (Str.times " " lead
          +:+ Str.times ("{:<" +:+ (w +:+ "." +:+ p) +:+ "f}" +:+ Str.times " " num) cols)
         vals
  = Ok (table_line lead num (Str.digits_value w) (Z.to_nat (Str.digits_value p)) vals).
Proof.
  intros Hw Hp Hn H0 Hlen. unfold format, table_line, Str.times.
  rewrite format_from_spaces, <- Hlen.
  assert (no_brace (w +:+ "." +:+ p) = true) as Hnb.
  { assert (∀ s, Str.all_digits s = true → no_brace s = true) as Hd.
    { induction s as [|c s IH]; simpl; [reflexivity|].
      intros [Hc Hs]%andb_true_iff. rewrite (IH Hs), andb_true_r.
      destruct c as [[] [] [] [] [] [] [] []]; (discriminate || reflexivity). }
    clear H0. induction w as [|c w IH]; str_simpl; simpl in *.
    - by apply Hd.
    - apply andb_true_iff in Hw as [Hc Hw]. rewrite (IH Hw), andb_true_r.
      revert Hc. clear. destruct c as [[] [] [] [] [] [] [] []];
        (discriminate || reflexivity). }
  pose proof (format_from_fields (w +:+ "." +:+ p) (Z.to_nat num) vals
             ((λ v, ljust (Str.digits_value w)
                      (Float.to_fixed (Z.to_nat (Str.digits_value p)) v)) <$> vals)
             [] Hnb) as Hfields.
  rewrite app_nil_r in Hfields. rewrite Hfields.
  - simpl. rewrite <- list_fmap_compose. reflexivity.
  - clear Hlen Hfields.
    assert ("<" +:+ (w +:+ "." +:+ p) +:+ "f" = "<" +:+ w +:+ "." +:+ p +:+ "f")
      as -> by (by rewrite !append_assoc).
    induction vals as [|v vals IH]; [reflexivity|].
    cbn [mapM fmap list_fmap].
    rewrite (format_spec_width_precision w p v Hw Hp Hn H0).
    cbn [mbind result_bind]. by rewrite IH.
Qed.

Lemma all_digits_no_brace (s : string) : Str.all_digits s = true → no_brace s = true.
Proof.
  induction s as [|c s IH]; simpl; [reflexivity|].
  intros [Hc Hs]%andb_true_iff. rewrite (IH Hs), andb_true_r.
  destruct c as [[] [] [] [] [] [] [] []]; (discriminate || reflexivity).
Qed.

Lemma no_brace_app (s t : string) : no_brace (s +:+ t) = no_brace s && no_brace t.
Proof.
  induction s as [|c s IH]; str_simpl; simpl; [reflexivity|].
  by rewrite IH, andb_assoc.
Qed.

(** A field specifier [width.precision], whatever the width: a [0] at the
    head of the width is the [0] flag, which makes [0] the fill
    character. *)
Lemma format_spec_fill (w p : string) (x : spec_float) :
  Str.all_digits w = true → Str.all_digits p = true → Str.nonempty p = true →
  Float.format_spec ("<" +:+ w +:+ "." +:+ p +:+ "f") x
  = Ok (ljust_fill (pad_char w) (Str.digits_value w)
          (Float.to_fixed (Z.to_nat (Str.digits_value p)) x)).
Proof.
  intros Hw Hp Hn. destruct w as [|c w'].
  - exact (format_spec_width_precision "" p x Hw Hp Hn I).
  - destruct (Ascii.eqb c "0") eqn:Hc.
    + apply Ascii.eqb_eq in Hc as ->. str_simpl. rewrite format_spec_left.
      cbn [Str.all_digits] in Hw. apply andb_true_iff in Hw as [_ Hw].
      change (Float.take_zero_flag (String "0" (w' +:+ String "." (p +:+ "f"))))
        with (true, w' +:+ String "." (p +:+ "f")).
      cbv beta iota.
      rewrite (span_digits_stop w' (String "." (p +:+ "f")) Hw) by reflexivity.
      unfold Float.take_precision.
      rewrite (span_digits_stop p "f" Hp) by reflexivity.
      rewrite Hn. reflexivity.
    + rewrite (format_spec_width_precision (String c w') p x Hw Hp Hn Hc).
      unfold ljust, ljust_fill, pad_char. by rewrite Hc.
Qed.

Lemma mapM_format_spec_fill (w p : string) (vals : list spec_float) :
  Str.all_digits w = true → Str.all_digits p = true → Str.nonempty p = true →
  mapM (Float.format_spec ("<" +:+ (w +:+ "." +:+ p) +:+ "f")) vals
  = Ok ((λ v, ljust_fill (pad_char w) (Str.digits_value w)
                (Float.to_fixed (Z.to_nat (Str.digits_value p)) v)) <$> vals).
Proof.
  intros Hw Hp Hn.
  assert ("<" +:+ (w +:+ "." +:+ p) +:+ "f" = "<" +:+ w +:+ "." +:+ p +:+ "f")
    as -> by (by rewrite !append_assoc).
  induction vals as [|v vals IH]; [reflexivity|].
  cbn [mapM fmap list_fmap].
  rewrite (format_spec_fill w p v Hw Hp Hn).
  cbn [mbind result_bind]. by rewrite IH.
Qed.

(** The template of a descriptor with [cols] fields [w.p] takes the first
    [cols] values and leaves the others out; with fewer values it fails. *)
Lemma format_template_fill (lead num cols : Z) (w p : string)
    (vals : list spec_float) :
  Str.all_digits w = true → Str.all_digits p = true → Str.nonempty p = true →
  format (Str.times " " lead
          +:+ Str.times ("{:<" +:+ (w +:+ "." +:+ p) +:+ "f}" +:+ Str.times " " num) cols)
         vals
  = if decide (Z.to_nat cols ≤ length vals)%nat
    then Ok (field_line w p lead num (take (Z.to_nat cols) vals))
    else Raise IndexError.
Proof.
  intros Hw Hp Hn.
  assert (no_brace (w +:+ "." +:+ p) = true) as Hnb.
  { rewrite !no_brace_app, (all_digits_no_brace w Hw), (all_digits_no_brace p Hp).
    reflexivity. }
  unfold format, field_line, Str.times. rewrite format_from_spaces.
  destruct (decide _) as [Hle|Hlt].
  - rewrite <- (take_drop (Z.to_nat cols) vals) at 1.
    pose proof (format_from_fields (w +:+ "." +:+ p) (Z.to_nat num)
                  (take (Z.to_nat cols) vals) _ (drop (Z.to_nat cols) vals) Hnb
                  (mapM_format_spec_fill w p _ Hw Hp Hn)) as Hfields.
    rewrite length_take_le in Hfields by done. rewrite Hfields.
    cbn [fmap result_fmap]. by rewrite <- list_fmap_compose.
  - rewrite (format_from_too_few (w +:+ "." +:+ p) (Z.to_nat num) vals (Z.to_nat cols)
               _ Hnb (mapM_format_spec_fill w p _ Hw Hp Hn)) by lia.
    reflexivity.
Qed.

(** ** The format descriptor *)

(** The template for padding [lead] and [num], field specifier [num_format]
    and repeat count [cols]. *)
Lemma _parse_format_eq (frmt_line : string) :
  DatFile._parse_format frmt_line =
    match Str.digits_value <$> Re.findall_digits_then "x" frmt_line with
    | [lead_spaces; num_spaces] =>
        match Re.findall_f frmt_line with
        | [] => Raise IndexError
        | num_format :: _ =>
            match Re.search_digits_then "(" frmt_line with
            | None => Raise AttributeError
            | Some group1 =>
                Ok (Str.times " " lead_spaces
                    +:+ Str.times ("{:<" +:+ num_format +:+ "f}"
                                   +:+ Str.times " " num_spaces)
                                  (Str.digits_value group1))
            end
        end
    | _ => Raise ValueError
    end.
Proof.
  unfold DatFile._parse_format.
  rewrite (mapM_int_runs _ (findall_digits_then_runs "x" frmt_line)). simpl.
  destruct (Str.digits_value <$> _) as [|l [|n [|? ?]]]; try reflexivity.
  unfold getitem. destruct (Re.findall_f frmt_line) as [|nf ?]; simpl; [reflexivity|].
  destruct (Re.search_digits_then "(" frmt_line) as [g|] eqn:E; [|reflexivity].
  assert (Str.nonempty g = true ∧ Str.all_digits g = true) as [Hn Hd].
  { pose proof (findall_digits_then_runs "(" frmt_line) as H.
    unfold Re.search_digits_then in E.
    destruct (Re.findall_digits_then "(" frmt_line); [discriminate|].
    injection E as ->. by apply Forall_cons_1 in H as [H _]. }
  by rewrite (int_digits g Hn Hd).
Qed.




(** ** Loops over the lines *)

Lemma for_each_preserves {T} (body : nat → T → result T) (P : T → Prop) :
  (∀ n s s', P s → body n s = Ok s' → P s') →
  ∀ ns s s', P s → for_each body ns s = Ok s' → P s'.
Proof.
  intros Hstep ns. induction ns as [|n ns IH]; simpl; intros s s' HP H.
  - congruence.
  - apply bind_Ok in H as (s1 & H1 & H). eauto.
Qed.

(** A loop that visits a line on which the body raises, raises: either on
    that line or before. *)
Lemma for_each_raises {T} (body : nat → T → result T) (P : T → Prop) (i : nat) :
  (∀ s, P s → raises (body i s)) →
  (∀ n s s', n ≠ i → P s → body n s = Ok s' → P s') →
  ∀ ns s, i ∈ ns → P s → raises (for_each body ns s).
Proof.
  intros Hi Hstep ns. induction ns as [|n ns IH]; simpl; intros s Hin HP.
  - by apply elem_of_nil in Hin.
  - destruct (decide (n = i)) as [->|Hne].
    + destruct (Hi s HP) as [e ->]. by exists e.
    + destruct (body n s) as [s1|e] eqn:E; simpl; [|by exists e].
      apply IH; [|eauto]. by apply elem_of_cons in Hin as [->|Hin].
Qed.

Lemma format_line_inv (vs : list spec_float) (j : nat) (b b' : VFile.t) :
  VFile.format_line vs j b = Ok b' →
  ∃ formatted, format (VFile.frmt_str b) vs = Ok formatted
    ∧ (j < length (VFile.lines b))%nat
    ∧ b' = {| VFile.lines := <[j := formatted]> (VFile.lines b);
              VFile.frmt_str := VFile.frmt_str b |}.
Proof.
  unfold VFile.format_line. intros (formatted & Hf & H)%bind_Ok.
  apply bind_Ok in H as (lines' & Hs & [= <-]).
  exists formatted. split; [exact Hf|].
  unfold setitem in Hs. case_decide; [|discriminate].
  injection Hs as <-. auto.
Qed.

Lemma format_line_frame (vs : list spec_float) (j : nat) (b b' : VFile.t) :
  VFile.format_line vs j b = Ok b' →
  VFile.frmt_str b' = VFile.frmt_str b
  ∧ ∀ i, i ≠ j → VFile.lines b' !! i = VFile.lines b !! i.
Proof.
  intros (formatted & _ & _ & ->)%format_line_inv. simpl.
  split; [reflexivity|]. intros i Hi. by apply list_lookup_insert_ne.
Qed.

Lemma print_mc_lookup (b : VFile.t) (i : nat) (line : string) :
  VFile.lines b !! i = Some line →
  VFile.print_mc b !! i = Some (line +:+ VFile.newline).
Proof. intros H. unfold VFile.print_mc. rewrite list_lookup_fmap, H. reflexivity. Qed.

(** ** Key lookup *)

Lemma _test_repeats_exit (keys : list string) (key line other : string) :
  other ∈ keys → other ≠ key → is_substring other line →
  Effects._test_repeats keys key line = Raise SystemExit.
Proof.
  intros Hin Hne Hsub. unfold Effects._test_repeats.
  replace (existsb _ _) with true; [reflexivity|].
  symmetry. apply existsb_exists. exists other. split.
  - apply filter_In. split; [by apply list_elem_of_In|].
    apply negb_true_iff, String.eqb_neq. exact Hne.
  - by apply found_spec.
Qed.

Lemma _test_repeats_pass (keys : list string) (key line : string) :
  (∀ other, other ∈ keys → other ≠ key → ¬ is_substring other line) →
  Effects._test_repeats keys key line = Ok tt.
Proof.
  intros H. unfold Effects._test_repeats.
  destruct (existsb _ _) eqn:E; [|reflexivity].
  apply existsb_exists in E as (other & [Hin Hne]%filter_In & Hf).
  exfalso. apply (H other).
  - by apply list_elem_of_In.
  - by apply String.eqb_neq, negb_true_iff.
  - by apply found_spec.
Qed.

(** When two distinct keys of the table occur in the line, the scan exits as
    soon as it reaches any key that occurs in it. *)
Lemma get_sd_from_exit (keys : list string) (items : list (string * spec_float))
    (line k1 k2 : string) :
  k1 ∈ keys → k2 ∈ keys → k1 ≠ k2 →
  is_substring k1 line → is_substring k2 line →
  (∃ k, k ∈ items.*1 ∧ is_substring k line) →
  Effects.get_sd_from keys items line = Raise SystemExit.
Proof.
  intros H1 H2 Hne Hs1 Hs2. induction items as [|[key sd] rest IH]; simpl.
  - intros (k & Hk & _). by apply elem_of_nil in Hk.
  - intros (k & Hk & Hsk). destruct (Effects.found line key) eqn:E.
    + destruct (decide (k1 = key)) as [->|Hk1].
      * rewrite (_test_repeats_exit keys key line k2); auto.
      * rewrite (_test_repeats_exit keys key line k1); auto.
    + apply IH. exists k. split; [|exact Hsk].
      apply elem_of_cons in Hk as [->|Hk]; [|exact Hk].
      apply found_spec in Hsk. congruence.
Qed.

Lemma get_sd_from_none (keys : list string) (items : list (string * spec_float))
    (line : string) :
  (∀ k, k ∈ items.*1 → ¬ is_substring k line) →
  Effects.get_sd_from keys items line = Ok None.
Proof.
  induction items as [|[key sd] rest IH]; simpl; intros H; [reflexivity|].
  destruct (Effects.found line key) eqn:E.
  - exfalso. apply (H key); [left | by apply found_spec].
  - apply IH. intros k Hk. apply H. by right.
Qed.

(** When exactly one key occurs in the line, its coefficient is returned. *)
Lemma get_sd_from_unique (keys : list string) (items : list (string * spec_float))
    (line key : string) (sd : spec_float) :
  NoDup items.*1 → (key, sd) ∈ items → is_substring key line →
  (∀ other, other ∈ keys → other ≠ key → ¬ is_substring other line) →
  (∀ k, k ∈ items.*1 → k ∈ keys) →
  Effects.get_sd_from keys items line = Ok (Some sd).
Proof.
  intros Hnd Hin Hsub Hothers Hkeys.
  induction items as [|[k v] rest IH]; simpl in *.
  - by apply elem_of_nil in Hin.
  - apply NoDup_cons in Hnd as [Hk Hnd].
    destruct (Effects.found line k) eqn:E.
    + destruct (decide (k = key)) as [->|Hne].
      * rewrite _test_repeats_pass by exact Hothers. simpl.
        apply elem_of_cons in Hin as [[= <-]|Hin]; [reflexivity|].
        exfalso. apply Hk. apply list_elem_of_fmap. by exists (key, sd).
      * exfalso. apply (Hothers k); [apply Hkeys; left | exact Hne | by apply found_spec].
    + apply elem_of_cons in Hin as [[= <- <-]|Hin].
      * apply found_spec in Hsub. congruence.
      * apply IH; auto. intros k' Hk'. apply Hkeys. by right.
Qed.


(** The dictionary [m] is iterated in some order [items]. *)
Section IterationOrder.

Context (m : gmap string spec_float) (items : list (string * spec_float)).
Hypothesis Hitems : items ≡ₚ map_to_list m.

Lemma items_keys (k : string) : k ∈ items.*1 ↔ is_Some (m !! k).
Proof.
  rewrite Hitems. split.
  - intros ([k' v] & -> & Hin)%list_elem_of_fmap.
    apply elem_of_map_to_list in Hin. eauto.
  - intros [v Hv]. apply list_elem_of_fmap. exists (k, v).
    split; [reflexivity|]. by apply elem_of_map_to_list.
Qed.

Lemma get_sd_in_exit (line k1 k2 : string) :
  k1 ≠ k2 → is_Some (m !! k1) → is_Some (m !! k2) →
  is_substring k1 line → is_substring k2 line →
  Effects.get_sd_in items line = Raise SystemExit.
Proof.
  intros Hne H1 H2 Hs1 Hs2. unfold Effects.get_sd_in.
  apply (get_sd_from_exit _ _ line k1 k2); auto.
  - by apply items_keys.
  - by apply items_keys.
  - exists k1. split; [by apply items_keys | exact Hs1].
Qed.

Lemma get_sd_in_none (line : string) :
  (∀ k, is_Some (m !! k) → ¬ is_substring k line) →
  Effects.get_sd_in items line = Ok None.
Proof.
  intros H. apply get_sd_from_none. intros k Hk. apply H. by apply items_keys.
Qed.

Lemma get_sd_in_unique (line key : string) (sd : spec_float) :
  m !! key = Some sd → is_substring key line →
  (∀ other, is_Some (m !! other) → other ≠ key → ¬ is_substring other line) →
  Effects.get_sd_in items line = Ok (Some sd).
Proof.
  intros Hk Hs Ho. unfold Effects.get_sd_in.
  apply (get_sd_from_unique _ _ line key sd); auto.
  - rewrite Hitems. apply NoDup_fst_map_to_list.
  - rewrite Hitems. by apply elem_of_map_to_list.
  - intros other Hin. apply Ho. by apply items_keys.
Qed.

(** The keys that occur in the line: none, exactly one, or two distinct
    ones. *)
Lemma keys_in_line (line : string) :
  (∀ k, is_Some (m !! k) → ¬ is_substring k line)
  ∨ (∃ key sd, m !! key = Some sd ∧ is_substring key line
       ∧ ∀ other, is_Some (m !! other) → other ≠ key → ¬ is_substring other line)
  ∨ (∃ k1 k2, k1 ≠ k2 ∧ is_Some (m !! k1) ∧ is_Some (m !! k2)
       ∧ is_substring k1 line ∧ is_substring k2 line).
Proof.
  destruct (decide (Exists (λ k, Effects.found line k = true) items.*1))
    as [(k1 & Hin1 & Hf1)%Exists_exists|Hnone]; rewrite ?Exists_exists in *.
  - apply items_keys in Hin1. apply found_spec in Hf1. right.
    destruct (decide (Exists (λ k, k ≠ k1 ∧ Effects.found line k = true) items.*1))
      as [(k2 & Hin2 & Hne & Hf2)%Exists_exists|Hone]; rewrite ?Exists_exists in *.
    + right. apply items_keys in Hin2. apply found_spec in Hf2.
      exists k1, k2. auto.
    + left. destruct Hin1 as [sd1 Hk1]. exists k1, sd1.
      split; [exact Hk1|]. split; [exact Hf1|].
      intros other Hsome Hne Hsub. apply Hone. exists other.
      split; [by apply items_keys|]. split; [exact Hne | by apply found_spec].
  - left. intros k Hsome Hsub. apply Hnone. exists k.
    split; [by apply items_keys | by apply found_spec].
Qed.

End IterationOrder.

(** The result of [get_sd] does not depend on the order in which the
    dictionary is iterated. *)
Lemma get_sd_in_order (m : gmap string spec_float)
    (items : list (string * spec_float)) (line : string) :
  items ≡ₚ map_to_list m →
  Effects.get_sd_in items line = Effects.get_sd_in (map_to_list m) line.
Proof.
  intros Hp. assert (map_to_list m ≡ₚ map_to_list m) as Hm by reflexivity.
  destruct (keys_in_line m items Hp line)
    as [Hnone | [(key & sd & Hk & Hs & Ho) | (k1 & k2 & Hne & H1 & H2 & Hs1 & Hs2)]].
  - by rewrite (get_sd_in_none m items Hp), (get_sd_in_none m _ Hm).
  - by rewrite (get_sd_in_unique m items Hp line key sd),
               (get_sd_in_unique m _ Hm line key sd).
  - by rewrite (get_sd_in_exit m items Hp line k1 k2),
               (get_sd_in_exit m _ Hm line k1 k2).
Qed.

Lemma get_sd_none (eff : Effects.t) (line : string) :
  (∀ key, is_Some (Effects.sd_pairs eff !! key) → ¬ is_substring key line) →
  Effects.get_sd eff line = Ok None.
Proof.
  intros H. by apply (get_sd_in_none (Effects.sd_pairs eff)).
Qed.


Lemma keys_not_found (m : gmap string spec_float) (line : string) :
  forallb (λ k, negb (Effects.found line k)) (map_to_list m).*1 = true →
  ∀ k, is_Some (m !! k) → ¬ is_substring k line.
Proof.
  intros H k Hk Hsub. rewrite forallb_forall in H.
  apply (items_keys m (map_to_list m)) in Hk; [|reflexivity].
  apply list_elem_of_In, H in Hk. apply found_spec in Hsub.
  by rewrite Hsub in Hk.
Qed.

(** ** The scalar pipeline *)

Lemma InpFile_init_inv (draw : nat → spec_float)
    (mc0_lines effect_lines : list string) (zero_run : bool) (self : InpFile.t) :
  InpFile.__init__ draw mc0_lines effect_lines zero_run = Ok self →
  VFile.lines (InpFile.base self) = mc0_lines
  ∧ VFile.frmt_str (InpFile.base self) = "{:<8.6f}"
  ∧ Effects.__init__ draw effect_lines zero_run = Ok (InpFile.effects self).
Proof.
  unfold InpFile.__init__. intros (eff & He & [= <-])%bind_Ok. auto.
Qed.

Lemma InpFile_vary_line_frame (j : nat) (self self' : InpFile.t) :
  InpFile.vary_line j self = Ok self' →
  InpFile.effects self' = InpFile.effects self
  ∧ ∀ i, i ≠ j →
      VFile.lines (InpFile.base self') !! i = VFile.lines (InpFile.base self) !! i.
Proof.
  unfold InpFile.vary_line. intros (line & _ & H)%bind_Ok.
  apply bind_Ok in H as ([sd|] & _ & H).
  - apply bind_Ok in H as (v & _ & H).
    apply fmap_Ok in H as (b' & Hb & ->). simpl.
    apply format_line_frame in Hb as [? ?]. auto.
  - injection H as <-. auto.
Qed.

Lemma InpFile_vary_line_none (self : InpFile.t) (i : nat) (line : string) :
  VFile.lines (InpFile.base self) !! i = Some line →
  Effects.get_sd (InpFile.effects self) line = Ok None →
  InpFile.vary_line i self = Ok self.
Proof.
  intros Hl Hg. unfold InpFile.vary_line.
  apply getitem_Ok in Hl. rewrite Hl. simpl. rewrite Hg. reflexivity.
Qed.

Lemma InpFile_vary_keeps (self self' : InpFile.t) (i : nat) (line : string) :
  InpFile.vary self = Ok self' →
  VFile.lines (InpFile.base self) !! i = Some line →
  Effects.get_sd (InpFile.effects self) line = Ok None →
  VFile.lines (InpFile.base self') !! i = Some line.
Proof.
  intros Hv Hl Hg. unfold InpFile.vary in Hv.
  enough (VFile.lines (InpFile.base self') !! i = Some line
          ∧ InpFile.effects self' = InpFile.effects self) as [? _]; [assumption|].
  revert Hv.
  apply (for_each_preserves InpFile.vary_line
           (λ s, VFile.lines (InpFile.base s) !! i = Some line
                 ∧ InpFile.effects s = InpFile.effects self)); [|auto].
  intros n s s' [Hs He] Hn. destruct (decide (n = i)) as [->|Hne].
  - rewrite (InpFile_vary_line_none s i line) in Hn; [|assumption|congruence].
    injection Hn as <-. auto.
  - apply InpFile_vary_line_frame in Hn as [He' Hn]. rewrite Hn; auto.
    split; congruence.
Qed.

Lemma InpFile_vary_line_exit (self : InpFile.t) (i : nat) (line : string) :
  VFile.lines (InpFile.base self) !! i = Some line →
  Effects.get_sd (InpFile.effects self) line = Raise SystemExit →
  InpFile.vary_line i self = Raise SystemExit.
Proof.
  intros Hl Hg. unfold InpFile.vary_line.
  apply getitem_Ok in Hl. rewrite Hl. simpl. rewrite Hg. reflexivity.
Qed.

Lemma InpFile_vary_exit (self : InpFile.t) (i : nat) (line : string) :
  VFile.lines (InpFile.base self) !! i = Some line →
  Effects.get_sd (InpFile.effects self) line = Raise SystemExit →
  raises (InpFile.vary self).
Proof.
  intros Hl Hg. unfold InpFile.vary.
  apply (for_each_raises InpFile.vary_line
           (λ s, VFile.lines (InpFile.base s) !! i = Some line
                 ∧ InpFile.effects s = InpFile.effects self) i).
  - intros s [Hs He]. exists SystemExit.
    apply (InpFile_vary_line_exit s i line); congruence.
  - intros n s s' Hne [Hs He] Hn.
    apply InpFile_vary_line_frame in Hn as [He' Hn]. rewrite Hn by auto.
    split; congruence.
  - apply elem_of_seq. apply lookup_lt_Some in Hl.
    unfold VFile.num_lines. lia.
  - auto.
Qed.

Lemma InpFile_varied_eq (sd mean : spec_float) (line tok : string)
    (rest : list string) :
  Str.split line = tok :: rest → Float.float tok = Ok mean →
  InpFile.varied sd line = Ok (Float.add mean (Float.mul sd mean)).
Proof. intros Hs Hm. unfold InpFile.varied. by rewrite Hs; simpl; rewrite Hm. Qed.

Lemma raises_bind {A B} (m : result A) (f : A → result B) :
  raises m → raises (m ≫= f).
Proof. intros [e ->]. by exists e. Qed.

Lemma mapM_raises_elem {A B} (f : A → result B) (l : list A) (x : A) :
  x ∈ l → raises (f x) → raises (mapM f l).
Proof.
  intros Hin Hx. induction l as [|a l IH]; [by apply elem_of_nil in Hin|].
  cbn [mapM]. destruct (f a) as [b|e] eqn:E; [|by exists e].
  apply elem_of_cons in Hin as [->|Hin].
  - destruct Hx as [e He]. congruence.
  - cbn [mbind result_bind]. by apply raises_bind, IH.
Qed.

(** A scalar file on which [vary] raises ends [main]. *)
Lemma main_raises_inp (zero_run : bool) (beta_files : list dat_input)
    (effect_lines : list string) (inp_files : list inp_input) (f : inp_input)
    (self : InpFile.t) :
  f ∈ inp_files →
  InpFile.__init__ (inp_draw f) (inp_mc0 f) effect_lines zero_run = Ok self →
  raises (InpFile.vary self) →
  raises (main zero_run beta_files effect_lines inp_files).
Proof.
  intros Hin Hinit Hv. unfold main.
  destruct (mapM (main_dat zero_run) beta_files) as [dats|e]; [|by exists e].
  cbn [mbind result_bind]. apply raises_bind, (mapM_raises_elem _ _ f Hin).
  unfold main_inp. rewrite Hinit. cbn [mbind result_bind]. by apply raises_bind.
Qed.

(** C4.  Key lookup on a line of the scalar file.  Whatever the order in
    which the dictionary of coefficients is iterated: when two distinct keys
    of the table occur in the line, [get_sd] leaves through [sys.exit], and
    so do [vary_line] on that line, the whole [vary] and [main] for any list
    of names that has this file; when no key occurs in the line, [get_sd]
    returns [None] without raising and [vary_line] leaves the file as it
    is. *)
Theorem get_sd_ambiguous_or_none (self : InpFile.t) (i : nat) (line : string)
    (items : list (string * spec_float)) :
  VFile.lines (InpFile.base self) !! i = Some line →
  items ≡ₚ map_to_list (Effects.sd_pairs (InpFile.effects self)) →
  ((∃ k1 k2, k1 ≠ k2
      ∧ is_Some (Effects.sd_pairs (InpFile.effects self) !! k1)
      ∧ is_Some (Effects.sd_pairs (InpFile.effects self) !! k2)
      ∧ is_substring k1 line ∧ is_substring k2 line) →
    Effects.get_sd_in items line = Raise SystemExit
    ∧ InpFile.vary_line i self = Raise SystemExit
    ∧ raises (InpFile.vary self)
    ∧ ∀ zero_run beta_files effect_lines inp_files f,
        f ∈ inp_files →
        InpFile.__init__ (inp_draw f) (inp_mc0 f) effect_lines zero_run = Ok self →
        raises (main zero_run beta_files effect_lines inp_files))
  ∧ ((∀ k, is_Some (Effects.sd_pairs (InpFile.effects self) !! k)
           → ¬ is_substring k line) →
    Effects.get_sd_in items line = Ok None
    ∧ InpFile.vary_line i self = Ok self).
Proof.
  intros Hl Hp. split.
  - intros (k1 & k2 & Hne & H1 & H2 & Hs1 & Hs2).
    assert (Effects.get_sd_in items line = Raise SystemExit) as Hi
      by (apply (get_sd_in_exit (Effects.sd_pairs (InpFile.effects self))
                   items Hp line k1 k2); auto).
    assert (Effects.get_sd (InpFile.effects self) line = Raise SystemExit) as Hg.
    { unfold Effects.get_sd.
      by rewrite <- (get_sd_in_order (Effects.sd_pairs (InpFile.effects self)) items). }
    assert (raises (InpFile.vary self)) as Hv
      by (by apply (InpFile_vary_exit self i line)).
    split; [exact Hi|]. split; [|split; [exact Hv|]].
    + by apply (InpFile_vary_line_exit self i line).
    + intros zero_run beta_files effect_lines inp_files f Hin Hinit.
      by apply (main_raises_inp _ _ _ _ f self).
  - intros Hnone. split.
    + by apply (get_sd_in_none (Effects.sd_pairs (InpFile.effects self))).
    + apply (InpFile_vary_line_none self i line); [exact Hl|].
      by apply get_sd_none.
Qed.

Lemma get_sd_ambiguous_or_none_witness :
  (Effects.get_sd_in (map_to_list (Effects.sd_pairs (InpFile.effects inpfile_ab)))
     "5.0 A B" = Raise SystemExit
   ∧ InpFile.vary_line 1 inpfile_ab = Raise SystemExit
   ∧ raises (InpFile.vary inpfile_ab)
   ∧ raises (main false [] effect_lines_ab
               [{| inp_mc0 := inp_lines_ab; inp_draw := draw1_ones |}]))
  ∧ (Effects.get_sd_in (map_to_list (Effects.sd_pairs (InpFile.effects inpfile_ab)))
       "5.0 C" = Ok None
     ∧ InpFile.vary_line 2 inpfile_ab = Ok inpfile_ab).
Proof.
  destruct (get_sd_ambiguous_or_none inpfile_ab 1 "5.0 A B"
              (map_to_list (Effects.sd_pairs (InpFile.effects inpfile_ab))))
    as [Hexit _]; [reflexivity | reflexivity |].
  destruct (get_sd_ambiguous_or_none inpfile_ab 2 "5.0 C"
              (map_to_list (Effects.sd_pairs (InpFile.effects inpfile_ab))))
    as [_ Hnone]; [reflexivity | reflexivity |].
  split.
  - destruct Hexit as (H1 & H2 & H3 & H4).
    { exists "A", "B". split; [discriminate|].
      split; [by eexists|]. split; [by eexists|].
      split; apply found_spec; reflexivity. }
    split; [exact H1|]. split; [exact H2|]. split; [exact H3|].
    apply (H4 false [] effect_lines_ab
             [{| inp_mc0 := inp_lines_ab; inp_draw := draw1_ones |}]
             {| inp_mc0 := inp_lines_ab; inp_draw := draw1_ones |});
      [by left | reflexivity].
  - apply Hnone. by apply keys_not_found.
Defined.

(** ** Block numbers and columns of the standard-deviation table *)

Lemma count_data_cons (line : string) (ls : list string) :
  count_data (line :: ls) = (if data_line line then 1 else 0) + count_data ls.
Proof.
  unfold count_data. simpl. destruct (data_line line); simpl; lia.
Qed.

Lemma count_data_nonneg (ls : list string) : 0 ≤ count_data ls.
Proof. unfold count_data. lia. Qed.

Lemma count_data_zero (ls : list string) :
  count_data ls = 0 ↔ Forall (λ l, data_line l = false) ls.
Proof.
  induction ls as [|l ls IH]; [split; [constructor | reflexivity]|].
  rewrite count_data_cons, Forall_cons. pose proof (count_data_nonneg ls).
  destruct (data_line l); split.
  - lia.
  - intros [[=] _].
  - intros. split; [reflexivity | apply IH; lia].
  - intros [_ H']. apply IH in H'. lia.
Qed.

Lemma count_data_app (l1 l2 : list string) :
  count_data (l1 ++ l2) = count_data l1 + count_data l2.
Proof.
  unfold count_data. rewrite List.filter_app, length_app. lia.
Qed.

(** The ordinal of a data line is less than the number of data lines. *)
Lemma data_ordinal_lt (ls : list string) (i : nat) (line : string) :
  ls !! i = Some line → data_line line = true →
  0 ≤ data_ordinal ls i < count_data ls.
Proof.
  intros Hi Hd. unfold data_ordinal.
  assert (count_data ls
          = count_data (take i ls) + (1 + count_data (drop (S i) ls))) as ->.
  { rewrite <- (take_drop_middle ls i line Hi) at 1.
    by rewrite count_data_app, count_data_cons, Hd. }
  pose proof (count_data_nonneg (take i ls)).
  pose proof (count_data_nonneg (drop (S i) ls)). lia.
Qed.

(** Two tables with their data lines at the same places give a line the
    same ordinal. *)
Lemma data_ordinal_same_layout (ls1 ls2 : list string) (i : nat) :
  (∀ k l1, (k < i)%nat → ls1 !! k = Some l1 →
     ∃ l2, ls2 !! k = Some l2 ∧ data_line l2 = data_line l1) →
  (i ≤ length ls1)%nat →
  data_ordinal ls2 i = data_ordinal ls1 i.
Proof.
  revert ls1 ls2. induction i as [|i IH]; intros ls1 ls2 H Hlen.
  - reflexivity.
  - destruct ls1 as [|l1 ls1]; [simpl in Hlen; lia|].
    destruct (H 0%nat l1) as (l2 & H2 & Hd); [lia | reflexivity |].
    destruct ls2 as [|l2' ls2]; [discriminate|]. injection H2 as ->.
    unfold data_ordinal in *. simpl. rewrite !count_data_cons, Hd. f_equal.
    apply IH; [|simpl in Hlen; lia].
    intros k l Hk Hl. apply (H (S k) l); [lia | exact Hl].
Qed.

Lemma _set_block_nums_from_spec (ls : list string) :
  ∀ (i : nat) (n : Z) (bn : list Z),
    (i + length ls ≤ length bn)%nat →
    ∃ bn', SDFile._set_block_nums_from i ls n bn = Ok (n + count_data ls, bn')
      ∧ length bn' = length bn
      ∧ (∀ j, (j < i)%nat → bn' !! j = bn !! j)
      ∧ (∀ k line, ls !! k = Some line →
           bn' !! (i + k)%nat =
             if data_line line then Some ((n + data_ordinal ls k) / 6)
             else bn !! (i + k)%nat).
Proof.
  induction ls as [|l ls IH]; intros i n bn Hlen; simpl in *.
  - exists bn. rewrite Z.add_0_r. repeat split; auto. intros k line [=].
  - rewrite is_data_line_split, count_data_cons. simpl.
    destruct (data_line l) eqn:Hd.
    + rewrite setitem_Ok by lia. simpl.
      destruct (IH (S i) (n + 1) (<[i := n / 6]> bn)) as (bn' & -> & Hl & Hlt & Hk).
      { rewrite length_insert. lia. }
      exists bn'. rewrite length_insert in Hl.
      split; [f_equal; f_equal; lia|]. split; [exact Hl|]. split.
      * intros j Hj. rewrite Hlt by lia. apply list_lookup_insert_ne. lia.
      * intros [|k] line Hline; simpl in Hline.
        -- injection Hline as <-. rewrite Hd, Nat.add_0_r, Hlt by lia.
           rewrite list_lookup_insert_eq by lia.
           unfold data_ordinal. simpl. by rewrite Z.add_0_r.
        -- replace (i + S k)%nat with (S i + k)%nat by lia.
           rewrite (Hk k line Hline). destruct (data_line line).
           ++ unfold data_ordinal. simpl. rewrite count_data_cons, Hd.
              do 2 f_equal. lia.
           ++ apply list_lookup_insert_ne. lia.
    + destruct (IH (S i) n bn) as (bn' & -> & Hl & Hlt & Hk); [lia|].
      exists bn'. split; [f_equal; f_equal; lia|]. split; [exact Hl|]. split.
      * intros j Hj. apply Hlt. lia.
      * intros [|k] line Hline; simpl in Hline.
        -- injection Hline as <-. rewrite Hd, Nat.add_0_r. apply Hlt. lia.
        -- replace (i + S k)%nat with (S i + k)%nat by lia.
           rewrite (Hk k line Hline). destruct (data_line line); [|reflexivity].
           unfold data_ordinal. simpl. rewrite count_data_cons, Hd.
           do 2 f_equal.
Qed.

(** [_set_block_nums] gives a data line the block [ordinal / 6], leaves
    [-1] on the other lines, and counts [data lines / 6] blocks. *)
Lemma _set_block_nums_spec (sd_lines : list string) :
  ∃ bn, SDFile._set_block_nums sd_lines (replicate (length sd_lines) (-1))
        = Ok (count_data sd_lines / 6, bn)
    ∧ length bn = length sd_lines
    ∧ ∀ i line, sd_lines !! i = Some line →
        bn !! i = Some (if data_line line then data_ordinal sd_lines i / 6 else -1).
Proof.
  destruct (_set_block_nums_from_spec sd_lines 0 0 (replicate (length sd_lines) (-1)))
    as (bn & H & Hl & _ & Hk).
  { rewrite length_replicate. lia. }
  exists bn. unfold SDFile._set_block_nums. rewrite H. simpl.
  rewrite length_replicate in Hl. repeat split; auto.
  intros i line Hi. specialize (Hk i line Hi). simpl in Hk. rewrite Hk.
  destruct (data_line line); [reflexivity|].
  apply lookup_replicate_2. by apply lookup_lt_Some in Hi.
Qed.

Lemma _count_cols_spec (sd_lines : list string) :
  SDFile._count_cols sd_lines =
    Ok ((λ l, Z.of_nat (length (Str.split l)) - 1) <$> head (List.filter data_line sd_lines)).
Proof.
  induction sd_lines as [|l ls IH]; simpl; [reflexivity|].
  rewrite is_data_line_split. simpl. destruct (data_line l); [reflexivity | exact IH].
Qed.

Lemma head_filter_first (pre post : list string) (line : string) :
  Forall (λ l, data_line l = false) pre → data_line line = true →
  head (List.filter data_line (pre ++ line :: post)) = Some line.
Proof.
  intros Hpre Hd. induction Hpre as [|l pre Hl _ IH]; simpl.
  - by rewrite Hd.
  - by rewrite Hl.
Qed.

Lemma head_filter_none (ls : list string) :
  Forall (λ l, data_line l = false) ls → head (List.filter data_line ls) = None.
Proof.
  intros H. induction H as [|l ls Hl _ IH]; simpl; [reflexivity|]. by rewrite Hl.
Qed.

Lemma shape_nonneg (r c : Z) :
  0 ≤ r → 0 ≤ c → Np.shape r (Some c) = Ok (Z.to_nat r, Z.to_nat c).
Proof.
  intros Hr Hc. unfold Np.shape.
  destruct (Z.ltb_spec r 0); [lia|]. destruct (Z.ltb_spec c 0); [lia|]. reflexivity.
Qed.

Lemma _generate_rnd_some (draw : nat → nat → spec_float) (nb c : Z) (zero_run : bool) :
  0 ≤ nb → 0 ≤ c →
  SDFile._generate_rnd draw nb (Some c) zero_run =
    Ok {| Np.nrows := Z.to_nat (nb / 2); Np.ncols := Z.to_nat c;
          Np.cell := if zero_run then (λ _ _, Float.zero) else draw |}.
Proof.
  intros Hnb Hc. unfold SDFile._generate_rnd, Np.zeros, Np.randn.
  rewrite !shape_nonneg by (try apply Z.div_pos; lia).
  destruct zero_run; reflexivity.
Qed.

Lemma _generate_rnd_none (draw : nat → nat → spec_float) (nb : Z) (zero_run : bool) :
  SDFile._generate_rnd draw nb None zero_run = Raise TypeError.
Proof. by destruct zero_run. Qed.

(** Construction of an [SDFile] with a data line. *)
Lemma SDFile_init_some (draw : nat → nat → spec_float) (sd_lines : list string)
    (zero_run : bool) (first : string) :
  head (List.filter data_line sd_lines) = Some first →
  ∃ sd, SDFile.__init__ draw sd_lines zero_run = Ok sd
    ∧ SDFile.lines sd = sd_lines
    ∧ SDFile.num_blocks sd = count_data sd_lines / 6
    ∧ (∀ i line, sd_lines !! i = Some line →
         SDFile.block_nums sd !! i =
           Some (if data_line line then data_ordinal sd_lines i / 6 else -1))
    ∧ SDFile.cols sd = Some (Z.of_nat (length (Str.split first)) - 1)
    ∧ SDFile.rnd sd =
        {| Np.nrows := Z.to_nat (count_data sd_lines / 6 / 2);
           Np.ncols := (length (Str.split first) - 1)%nat;
           Np.cell := if zero_run then (λ _ _, Float.zero) else draw |}.
Proof.
  intros Hfirst. unfold SDFile.__init__.
  destruct (_set_block_nums_spec sd_lines) as (bn & -> & Hl & Hbn). simpl.
  rewrite _count_cols_spec, Hfirst. simpl.
  assert (data_line first = true) as Hd.
  { assert (In first (List.filter data_line sd_lines)) as Hin
      by (destruct (List.filter data_line sd_lines); simplify_eq/=; by left).
    by apply filter_In in Hin as [_ ?]. }
  apply data_line_tokens in Hd.
  rewrite _generate_rnd_some;
    [|apply Z.div_pos; [apply count_data_nonneg | lia] | lia].
  simpl. eexists. split; [reflexivity|]. simpl. repeat split; auto.
  do 2 f_equal. lia.
Qed.

(** Construction of an [SDFile] without a data line. *)
Lemma SDFile_init_none (draw : nat → nat → spec_float) (sd_lines : list string)
    (zero_run : bool) :
  Forall (λ l, data_line l = false) sd_lines →
  SDFile._count_cols sd_lines = Ok None
  ∧ SDFile.__init__ draw sd_lines zero_run = Raise TypeError.
Proof.
  intros Hnone. rewrite _count_cols_spec, head_filter_none by exact Hnone.
  split; [reflexivity|]. unfold SDFile.__init__.
  destruct (_set_block_nums_spec sd_lines) as (bn & -> & Hl & Hbn). simpl.
  rewrite _count_cols_spec, head_filter_none by exact Hnone. simpl.
  by rewrite _generate_rnd_none.
Qed.

Lemma SDFile_init_inv (draw : nat → nat → spec_float) (sd_lines : list string)
    (zero_run : bool) (sd : SDFile.t) :
  SDFile.__init__ draw sd_lines zero_run = Ok sd →
  ∃ first, head (List.filter data_line sd_lines) = Some first.
Proof.
  intros H. destruct (head (List.filter data_line sd_lines)) as [first|] eqn:E; [eauto|].
  assert (Forall (λ l, data_line l = false) sd_lines) as Hnone.
  { apply count_data_zero. unfold count_data.
    destruct (List.filter data_line sd_lines); [reflexivity | discriminate]. }
  apply (SDFile_init_none draw sd_lines zero_run) in Hnone as [_ Hr]. congruence.
Qed.

(** C6, as amended.  When the standard-deviation table has no data line,
    [_count_cols] returns [None] without raising and the construction fails
    in the allocation of the matrix, with the [TypeError] that numpy raises
    for a dimension that is [None].  When there is a data line, the column
    count is the number of tokens of the first one minus one, and it is the
    number of columns of the matrix. *)
Theorem column_count (draw : nat → nat → spec_float) (sd_lines : list string)
    (zero_run : bool) :
  (Forall (λ l, data_line l = false) sd_lines →
     SDFile._count_cols sd_lines = Ok None
     ∧ SDFile.__init__ draw sd_lines zero_run = Raise TypeError)
  ∧ (∀ pre line post,
       sd_lines = pre ++ line :: post →
       Forall (λ l, data_line l = false) pre →
       data_line line = true →
       SDFile._count_cols sd_lines = Ok (Some (Z.of_nat (length (Str.split line)) - 1))
       ∧ ∃ sd, SDFile.__init__ draw sd_lines zero_run = Ok sd
           ∧ SDFile.cols sd = Some (Z.of_nat (length (Str.split line)) - 1)
           ∧ Z.of_nat (Np.ncols (SDFile.rnd sd))
             = Z.of_nat (length (Str.split line)) - 1).
Proof.
  split; [apply SDFile_init_none|].
  intros pre line post -> Hpre Hd.
  pose proof (head_filter_first pre post line Hpre Hd) as Hfirst.
  split; [by rewrite _count_cols_spec, Hfirst|].
  destruct (SDFile_init_some draw (pre ++ line :: post) zero_run line Hfirst)
    as (sd & Hsd & _ & _ & _ & Hcols & Hrnd).
  exists sd. split; [exact Hsd|]. split; [exact Hcols|].
  rewrite Hrnd. simpl. apply data_line_tokens in Hd. lia.
Qed.

Lemma column_count_witness :
  SDFile._count_cols sd_header_only = Ok None
  ∧ SDFile.__init__ draw_ones sd_header_only true = Raise TypeError
  ∧ SDFile._count_cols sd_24 = Ok (Some 1).
Proof.
  destruct (column_count draw_ones sd_header_only true) as [Hnone _].
  destruct (column_count draw_ones sd_24 false) as [_ Hsome].
  destruct Hnone as [H1 H2]; [by repeat constructor|].
  destruct (Hsome ["table"] "1 0.2" (replicate 23 "1 0.2" ++ ["   "])) as [H3 _];
    [reflexivity | by repeat constructor | reflexivity |].
  exact (conj H1 (conj H2 H3)).
Defined.

(** C6, counterexample.  On a table without a data line the column count
    does not fail, and the exception that ends the construction is a
    [TypeError], in deterministic mode and in normal mode. *)
Lemma column_count_counterexample :
  SDFile._count_cols sd_header_only = Ok None
  ∧ SDFile.__init__ draw_ones sd_header_only true = Raise TypeError
  ∧ SDFile.__init__ draw_ones sd_header_only false = Raise TypeError
  ∧ exn_name TypeError ≠ "EmptyTableError".
Proof. repeat split; try reflexivity. discriminate. Qed.

(** ** Rows of the perturbation matrix *)

Lemma axis_index_nonneg (n : nat) (i : Z) (k : nat) :
  0 ≤ i → Np.axis_index n i = Ok k → k = Z.to_nat i ∧ (k < n)%nat.
Proof.
  intros Hi. unfold Np.axis_index.
  destruct (Z.leb_spec 0 i); [|lia]. destruct (Z.ltb_spec i (Z.of_nat n)); simpl.
  - intros [= <-]. lia.
  - destruct (Z.ltb_spec i 0); [lia|]. rewrite andb_false_r. discriminate.
Qed.

Lemma axis_index_out (n : nat) (i : Z) :
  Z.of_nat n ≤ i → Np.axis_index n i = Raise IndexError.
Proof.
  intros Hi. unfold Np.axis_index.
  destruct (Z.ltb_spec i (Z.of_nat n)); [lia|]. rewrite andb_false_r.
  destruct (Z.ltb_spec i 0); [lia|]. by rewrite andb_false_r.
Qed.

Lemma axis_index_in (n : nat) (i : Z) :
  0 ≤ i < Z.of_nat n → Np.axis_index n i = Ok (Z.to_nat i).
Proof.
  intros Hi. unfold Np.axis_index.
  destruct (Z.leb_spec 0 i); [|lia]. destruct (Z.ltb_spec i (Z.of_nat n)); [|lia].
  reflexivity.
Qed.

(** Each scaled deviation is the deviation of the same column times the
    cell of row [block_num % 2] in that column. *)
Lemma scaled_sd_Ok (sd : SDFile.t) (b : Z) (j : nat) (tok : string) (s : spec_float) :
  SDFile.scaled_sd sd b j tok = Ok s →
  ∃ x, Float.float tok = Ok x
    ∧ (Z.to_nat (b mod 2) < Np.nrows (SDFile.rnd sd))%nat
    ∧ s = Float.mul x (Np.cell (SDFile.rnd sd) (Z.to_nat (b mod 2)) j).
Proof.
  unfold SDFile.scaled_sd. intros (x & Hx & H)%bind_Ok.
  apply bind_Ok in H as (r & Hr & [= <-]).
  unfold Np.getitem2 in Hr. apply bind_Ok in Hr as (row & Hrow & Hr).
  apply bind_Ok in Hr as (col & Hcol & [= <-]).
  apply axis_index_nonneg in Hrow as [-> ?]; [|apply Z.mod_pos_bound; lia].
  apply axis_index_nonneg in Hcol as [-> ?]; [|lia].
  rewrite Nat2Z.id. eauto.
Qed.

(** A row index outside the matrix makes the first scaled deviation raise
    ([ValueError] if the token is not a float, [IndexError] otherwise). *)
Lemma scaled_sd_row_out (sd : SDFile.t) (b : Z) (j : nat) (tok : string) :
  Z.of_nat (Np.nrows (SDFile.rnd sd)) ≤ b mod 2 →
  raises (SDFile.scaled_sd sd b j tok).
Proof.
  intros Hb. unfold SDFile.scaled_sd, Np.getitem2.
  destruct (Float.float tok) as [x|e]; simpl; [|by exists e].
  rewrite (axis_index_out (Np.nrows (SDFile.rnd sd)) (b mod 2)) by exact Hb.
  by exists IndexError.
Qed.

Lemma sd_list_eq (sd : SDFile.t) (i : nat) (b : Z) (sdline : string) :
  SDFile.block_nums sd !! i = Some b →
  SDFile.lines sd !! i = Some sdline →
  SDFile.sd_list sd i =
    mapM (λ p, SDFile.scaled_sd sd b p.1 p.2) (imap pair (tail (Str.split sdline))).
Proof.
  intros Hb Hl. unfold SDFile.sd_list, SDFile.get_block_num.
  apply getitem_Ok in Hb, Hl. rewrite Hb. simpl. rewrite Hl. reflexivity.
Qed.

Lemma sd_list_row_out (sd : SDFile.t) (i : nat) (b : Z) (sdline : string) :
  SDFile.block_nums sd !! i = Some b →
  SDFile.lines sd !! i = Some sdline →
  Z.of_nat (Np.nrows (SDFile.rnd sd)) ≤ b mod 2 →
  tail (Str.split sdline) ≠ [] →
  raises (SDFile.sd_list sd i).
Proof.
  intros Hb Hl Hrow Hne. rewrite (sd_list_eq sd i b sdline Hb Hl).
  destruct (tail (Str.split sdline)) as [|tok toks]; [contradiction|].
  apply mapM_raises_head. simpl. by apply scaled_sd_row_out.
Qed.

(** ** The table pipeline *)

Lemma DatFile_init_inv (draw : nat → nat → spec_float)
    (mc0_lines sd_lines : list string) (frmt_line : string) (zero_run : bool)
    (self : DatFile.t) :
  DatFile.__init__ draw mc0_lines sd_lines frmt_line zero_run = Ok self →
  VFile.lines (DatFile.base self) = mc0_lines
  ∧ SDFile.__init__ draw sd_lines zero_run = Ok (DatFile.sdfile self)
  ∧ DatFile._parse_format frmt_line = Ok (VFile.frmt_str (DatFile.base self)).
Proof.
  unfold DatFile.__init__, DatFile.set_format. intros (sd & Hsd & H)%bind_Ok.
  apply bind_Ok in H as (vfile & Hv & [= <-]).
  apply bind_Ok in Hv as (frmt & Hf & [= <-]). auto.
Qed.

Lemma DatFile_vary_line_data (self : DatFile.t) (i : nat) (line : string) :
  VFile.lines (DatFile.base self) !! i = Some line →
  data_line line = true →
  DatFile.vary_line i self =
    (varied ← DatFile.varied self i (Str.split line);
     DatFile.with_base self <$> VFile.format_line varied i (DatFile.base self)).
Proof.
  intros Hl Hd. unfold DatFile.vary_line.
  apply getitem_Ok in Hl. rewrite Hl. simpl.
  rewrite is_data_line_split, Hd. reflexivity.
Qed.

Lemma DatFile_vary_line_other (self : DatFile.t) (i : nat) (line : string) :
  VFile.lines (DatFile.base self) !! i = Some line →
  data_line line = false →
  DatFile.vary_line i self = Ok self.
Proof.
  intros Hl Hd. unfold DatFile.vary_line.
  apply getitem_Ok in Hl. rewrite Hl. simpl.
  rewrite is_data_line_split, Hd. reflexivity.
Qed.

Lemma DatFile_vary_line_frame (j : nat) (self self' : DatFile.t) :
  DatFile.vary_line j self = Ok self' →
  DatFile.sdfile self' = DatFile.sdfile self
  ∧ VFile.frmt_str (DatFile.base self') = VFile.frmt_str (DatFile.base self)
  ∧ ∀ i, i ≠ j →
      VFile.lines (DatFile.base self') !! i = VFile.lines (DatFile.base self) !! i.
Proof.
  unfold DatFile.vary_line. intros (line & _ & H)%bind_Ok.
  rewrite is_data_line_split in H. simpl in H.
  destruct (data_line line).
  - apply bind_Ok in H as (vs & _ & H).
    apply fmap_Ok in H as (b' & Hb & ->). simpl.
    apply format_line_frame in Hb as [? ?]. auto.
  - injection H as <-. auto.
Qed.

(** A line of the table that is not a data line is still there after
    [vary]. *)
Lemma DatFile_vary_keeps (self self' : DatFile.t) (i : nat) (line : string) :
  DatFile.vary self = Ok self' →
  VFile.lines (DatFile.base self) !! i = Some line →
  data_line line = false →
  VFile.lines (DatFile.base self') !! i = Some line.
Proof.
  intros Hv Hl Hd. unfold DatFile.vary in Hv. revert Hv.
  apply (for_each_preserves DatFile.vary_line
           (λ s, VFile.lines (DatFile.base s) !! i = Some line)); [|exact Hl].
  intros n s s' Hs Hn. destruct (decide (n = i)) as [->|Hne].
  - rewrite (DatFile_vary_line_other s i line) in Hn by assumption. congruence.
  - apply DatFile_vary_line_frame in Hn as (_ & _ & Hn). rewrite Hn; auto.
Qed.

Lemma DatFile_vary_line_raises (self : DatFile.t) (i : nat) (line : string) :
  VFile.lines (DatFile.base self) !! i = Some line →
  data_line line = true →
  raises (SDFile.sd_list (DatFile.sdfile self) i) →
  raises (DatFile.vary_line i self).
Proof.
  intros Hl Hd [e He]. exists e.
  rewrite (DatFile_vary_line_data self i line Hl Hd).
  unfold DatFile.varied. by rewrite He.
Qed.


Lemma DatFile_varied_eq (self : DatFile.t) (i : nat) (toks : list string)
    (sds means : list spec_float) :
  SDFile.sd_list (DatFile.sdfile self) i = Ok sds →
  mapM Float.float (tail toks) = Ok means →
  DatFile.varied self i toks = Ok (zip_with Float.add means sds).
Proof. intros Hs Hm. unfold DatFile.varied. by rewrite Hs, Hm. Qed.

(** C1, what the code does.  For a standard-deviation table with exactly 12
    data lines the block count is 2 and the matrix has 1 row.  A data line
    of block 0 selects row [0 % 2 = 0]; a data line of block 1 selects row
    [1 % 2 = 1], which is outside the matrix: as soon as the line has a
    deviation, [sd_list] raises and so does [vary_line] on the line of the
    baseline table. *)
Theorem twelve_data_lines (draw : nat → nat → spec_float)
    (mc0_lines sd_lines : list string) (frmt_line : string) (zero_run : bool)
    (self : DatFile.t) :
  count_data sd_lines = 12 →
  DatFile.__init__ draw mc0_lines sd_lines frmt_line zero_run = Ok self →
  SDFile.num_blocks (DatFile.sdfile self) = 2
  ∧ Np.nrows (SDFile.rnd (DatFile.sdfile self)) = 1%nat
  ∧ ∀ i line sdline,
      mc0_lines !! i = Some line → data_line line = true →
      sd_lines !! i = Some sdline → data_line sdline = true →
      (data_ordinal sd_lines i < 6 →
         SDFile.get_block_num (DatFile.sdfile self) i = Ok 0
         ∧ Np.axis_index (Np.nrows (SDFile.rnd (DatFile.sdfile self))) (0 mod 2)
           = Ok 0%nat)
      ∧ (6 ≤ data_ordinal sd_lines i →
         SDFile.get_block_num (DatFile.sdfile self) i = Ok 1
         ∧ Np.axis_index (Np.nrows (SDFile.rnd (DatFile.sdfile self))) (1 mod 2)
           = Raise IndexError
         ∧ (tail (Str.split sdline) ≠ [] →
            raises (SDFile.sd_list (DatFile.sdfile self) i)
            ∧ raises (DatFile.vary_line i self))).
Proof.
  intros H12 (Hlines & Hsd & _)%DatFile_init_inv.
  destruct (SDFile_init_inv _ _ _ _ Hsd) as [first Hfirst].
  destruct (SDFile_init_some draw sd_lines zero_run first Hfirst)
    as (sd & Hsd' & Hl & Hnb & Hbn & _ & Hrnd).
  rewrite Hsd in Hsd'. injection Hsd' as <-.
  rewrite H12 in Hnb, Hrnd. change (12 / 6) with 2 in Hnb.
  change (Z.to_nat (12 / 6 / 2)) with 1%nat in Hrnd.
  split; [exact Hnb|]. split; [by rewrite Hrnd|].
  intros i line sdline Hi Hd Hsi Hsd1.
  pose proof (data_ordinal_lt sd_lines i sdline Hsi Hsd1) as Hord.
  specialize (Hbn i sdline Hsi). rewrite Hsd1 in Hbn.
  rewrite Hrnd. simpl. unfold SDFile.get_block_num, getitem. rewrite Hbn.
  split.
  - intros Hlt. rewrite Z.div_small by lia. auto.
  - intros Hge.
    assert (data_ordinal sd_lines i / 6 = 1) as Hb.
    { symmetry. apply (Z.div_unique _ 6 1 (data_ordinal sd_lines i - 6)); lia. }
    rewrite Hb in *. split; [reflexivity|]. split; [reflexivity|].
    intros Hne.
    assert (raises (SDFile.sd_list (DatFile.sdfile self) i)) as Hr.
    { apply (sd_list_row_out _ i 1 sdline); auto.
      - by rewrite Hl.
      - rewrite Hrnd. by compute. }
    split; [exact Hr|].
    apply (DatFile_vary_line_raises self i line); auto. by rewrite Hlines.
Qed.

Lemma twelve_data_lines_witness :
  SDFile.num_blocks (DatFile.sdfile datfile_12) = 2
  ∧ Np.nrows (SDFile.rnd (DatFile.sdfile datfile_12)) = 1%nat
  ∧ SDFile.get_block_num (DatFile.sdfile datfile_12) 6 = Ok 1
  ∧ raises (DatFile.vary_line 6 datfile_12).
Proof.
  destruct (twelve_data_lines draw_ones dat_12 sd_12 descriptor_1 false datfile_12)
    as (H1 & H2 & H3); [reflexivity | reflexivity |].
  destruct (H3 6%nat "1 5.0" "1 0.1") as [_ H6]; [reflexivity..|].
  destruct H6 as (H4 & _ & H6); [by vm_compute|].
  destruct H6 as [_ H6]; [discriminate|].
  exact (conj H1 (conj H2 (conj H4 H6))).
Defined.

(** The run on the table of twelve data lines: the lines of block 0 are
    varied, the first line of block 1 raises [IndexError] and so do [vary]
    and [main], in normal mode and in deterministic mode. *)
Example run_on_twelve_lines :
  DatFile.__init__ draw_ones dat_12 sd_12 descriptor_1 false = Ok datfile_12
  ∧ (VFile.lines ∘ DatFile.base <$> DatFile.vary_line 0 datfile_12)
    = Ok (" 5.100   " :: replicate 11 "1 5.0")
  ∧ DatFile.vary_line 6 datfile_12 = Raise IndexError
  ∧ DatFile.vary datfile_12 = Raise IndexError
  ∧ Forall (λ zero_run,
       main zero_run
         [{| dat_mc0 := dat_12; dat_sd := sd_12; dat_def := descriptor_1;
             dat_draw := draw_ones |}] [] []
       = Raise IndexError) [false; true].
Proof. repeat split; repeat constructor; vm_compute; reflexivity. Qed.

(** C8, as amended.  For a data line of the baseline table, the block
    number is the one recorded at the same line index for the
    standard-deviation table: [ordinal / 6] over the data lines of that
    table, or [-1] when its line at that index is not a data line.  Every
    scaled deviation of the line is the deviation of the same column times
    the cell of row [block_number % 2].  When the two tables have their data
    lines at the same indices, this block number is the one the rule gives
    on the baseline table itself. *)
Theorem block_row_of_data_line (draw : nat → nat → spec_float)
    (mc0_lines sd_lines : list string) (frmt_line : string) (zero_run : bool)
    (self : DatFile.t) (i : nat) (line sdline : string) :
  DatFile.__init__ draw mc0_lines sd_lines frmt_line zero_run = Ok self →
  mc0_lines !! i = Some line → data_line line = true →
  sd_lines !! i = Some sdline →
  let b := if data_line sdline then data_ordinal sd_lines i / 6 else -1 in
  SDFile.get_block_num (DatFile.sdfile self) i = Ok b
  ∧ (∀ sds, SDFile.sd_list (DatFile.sdfile self) i = Ok sds →
       ∀ j s, sds !! j = Some s →
         ∃ tok x, tail (Str.split sdline) !! j = Some tok
           ∧ Float.float tok = Ok x
           ∧ (Z.to_nat (b mod 2) < Np.nrows (SDFile.rnd (DatFile.sdfile self)))%nat
           ∧ s = Float.mul x
                   (Np.cell (SDFile.rnd (DatFile.sdfile self)) (Z.to_nat (b mod 2)) j))
  ∧ ((∀ k l, (k < i)%nat → mc0_lines !! k = Some l →
        ∃ l', sd_lines !! k = Some l' ∧ data_line l' = data_line l) →
     data_line sdline = true →
     b = data_ordinal mc0_lines i / 6).
Proof.
  intros (Hlines & Hsd & _)%DatFile_init_inv Hi Hd Hsi b.
  destruct (SDFile_init_inv _ _ _ _ Hsd) as [first Hfirst].
  destruct (SDFile_init_some draw sd_lines zero_run first Hfirst)
    as (sd & Hsd' & Hl & _ & Hbn & _ & _).
  rewrite Hsd in Hsd'. injection Hsd' as <-.
  specialize (Hbn i sdline Hsi). fold b in Hbn.
  split; [by apply getitem_Ok|]. split.
  - intros sds Hsds j s Hj.
    rewrite (sd_list_eq _ i b sdline) in Hsds by (by rewrite ?Hl).
    apply mapM_Ok_lookup in Hsds as [_ Hsds].
    destruct (Hsds j s Hj) as ([j' tok] & Hp & Hs).
    apply imap_pair_lookup in Hp as [Hj' Htok]. simpl in *. subst j'.
    apply scaled_sd_Ok in Hs as (x & Hx & Hrow & ->).
    exists tok, x. auto.
  - intros Hsame Hsd1. subst b. rewrite Hsd1. f_equal.
    apply data_ordinal_same_layout; [exact Hsame|].
    apply lookup_lt_Some in Hi. lia.
Qed.

Lemma block_row_of_data_line_witness :
  SDFile.get_block_num (DatFile.sdfile datfile_25) 6 = Ok 1
  ∧ 1 = data_ordinal dat_24 7 / 6.
Proof.
  destruct (block_row_of_data_line draw_rows dat_25 sd_25 descriptor_1 false
              datfile_25 6 "1 5.0" "1 1.0") as [H6 _]; [reflexivity..|].
  destruct (block_row_of_data_line draw_ones dat_24 sd_24 descriptor_1 false
              (datfile_24 false) 7 "1 5.0" "1 0.2") as (_ & _ & H7);
    [reflexivity..|].
  split; [exact H6|]. apply H7; [|reflexivity].
  intros k l Hk Hl.
  do 7 (destruct k as [|k]; [injection Hl as <-; by eexists|]). lia.
Defined.

(** C8, counterexample.  Line 6 of the baseline table is its sixth data
    line, which the rule applied to the baseline table puts in block 0, row
    0.  The standard-deviation table has no title line, so its line 6 is its
    seventh data line, in block 1: the deviation is scaled by the cell of
    row 1 (2.0) and not by the cell of row 0 (1.0), and the line that is
    written carries 5.0 + 2.0. *)
Lemma block_row_counterexample :
  DatFile.__init__ draw_rows dat_25 sd_25 descriptor_1 false = Ok datfile_25
  ∧ dat_25 !! 6%nat = Some "1 5.0"
  ∧ data_line "1 5.0" = true
  ∧ (data_ordinal dat_25 6 / 6) mod 2 = 0
  ∧ SDFile.get_block_num (DatFile.sdfile datfile_25) 6 = Ok 1
  ∧ SDFile.sd_list (DatFile.sdfile datfile_25) 6
    = Ok [Float.mul (lit "1.0") (draw_rows 1 0)]
  ∧ SDFile.sd_list (DatFile.sdfile datfile_25) 6
    ≠ Ok [Float.mul (lit "1.0") (draw_rows 0 0)]
  ∧ ((λ d, DatFile.print_mc d !! 6%nat) <$> DatFile.vary datfile_25)
    = Ok (Some (" 7.000   " +:+ VFile.newline)).
Proof. repeat split; try (vm_compute; reflexivity). vm_compute. discriminate. Qed.

(** ** Lines that are passed through *)

(** C7, as amended.  In normal and in deterministic mode alike: a line of
    the table file whose first token does not start with a digit (a line
    without tokens included) is written unchanged by [print_mc] after
    [vary]; in the scalar file the test is another one, and a line in which
    no key of the effects table occurs is written unchanged. *)
Theorem passthrough_lines :
  (∀ draw mc0_lines sd_lines frmt_line (zero_run : bool) self self' i line,
     DatFile.__init__ draw mc0_lines sd_lines frmt_line zero_run = Ok self →
     DatFile.vary self = Ok self' →
     mc0_lines !! i = Some line →
     data_line line = false →
     DatFile.vary_line i self = Ok self
     ∧ DatFile.print_mc self' !! i = Some (line +:+ VFile.newline))
  ∧ (∀ draw mc0_lines effect_lines (zero_run : bool) self self' i line,
     InpFile.__init__ draw mc0_lines effect_lines zero_run = Ok self →
     InpFile.vary self = Ok self' →
     mc0_lines !! i = Some line →
     (∀ key, is_Some (Effects.sd_pairs (InpFile.effects self) !! key)
             → ¬ is_substring key line) →
     InpFile.vary_line i self = Ok self
     ∧ InpFile.print_mc self' !! i = Some (line +:+ VFile.newline)).
Proof.
  split.
  - intros draw mc0_lines sd_lines frmt_line zero_run self self' i line
      (Hl & _ & _)%DatFile_init_inv Hv Hi Hd.
    rewrite <- Hl in Hi. split.
    + by apply (DatFile_vary_line_other self i line).
    + apply print_mc_lookup. by apply (DatFile_vary_keeps self self' i line).
  - intros draw mc0_lines effect_lines zero_run self self' i line
      (Hl & _ & _)%InpFile_init_inv Hv Hi Hk.
    rewrite <- Hl in Hi. apply get_sd_none in Hk. split.
    + by apply (InpFile_vary_line_none self i line).
    + apply print_mc_lookup. by apply (InpFile_vary_keeps self self' i line).
Qed.

Lemma passthrough_lines_witness :
  (DatFile.vary_line 0 (datfile_24 true) = Ok (datfile_24 true)
   ∧ DatFile.print_mc (datfile_24_varied true) !! 0%nat
     = Some ("table" +:+ VFile.newline))
  ∧ (InpFile.vary_line 0 (inpfile false) = Ok (inpfile false)
     ∧ InpFile.print_mc (inpfile_varied false) !! 0%nat
       = Some ("* parameters" +:+ VFile.newline)).
Proof.
  destruct passthrough_lines as [Htable Hscalar]. split.
  - apply (Htable draw_ones dat_24 sd_24 descriptor_1 true (datfile_24 true)
             (datfile_24_varied true) 0%nat "table"); reflexivity.
  - apply (Hscalar draw1_ones inp_lines effect_lines false (inpfile false)
             (inpfile_varied false) 0%nat "* parameters");
      [reflexivity | reflexivity | reflexivity |].
    by apply keys_not_found.
Defined.

(** C7, counterexample.  The first token of line 2 of the scalar file,
    [-5.0], does not start with a digit, and the line contains a key: it is
    rewritten, in deterministic mode and in normal mode. *)
Lemma passthrough_counterexample :
  inp_lines !! 2%nat = Some "-5.0 KEY"
  ∧ head (Str.split "-5.0 KEY") = Some "-5.0"
  ∧ data_line "-5.0 KEY" = false
  ∧ InpFile.__init__ draw1_ones inp_lines effect_lines true = Ok (inpfile true)
  ∧ InpFile.vary (inpfile true) = Ok (inpfile_varied true)
  ∧ InpFile.print_mc (inpfile_varied true) !! 2%nat
    = Some ("-5.000000" +:+ VFile.newline)
  ∧ InpFile.__init__ draw1_ones inp_lines effect_lines false = Ok (inpfile false)
  ∧ InpFile.vary (inpfile false) = Ok (inpfile_varied false)
  ∧ InpFile.print_mc (inpfile_varied false) !! 2%nat
    = Some ("-5.500000" +:+ VFile.newline).
Proof. repeat split; vm_compute; reflexivity. Qed.

(** C10.  On the tokens of any line [is_data_line] returns without raising;
    for a line that is empty or made of whitespace only the token list is
    empty and the answer is [False], so [vary_line] leaves the table as it
    is and the line is still there after [vary]. *)
Theorem is_data_line_total (line : string) :
  (∃ b, is_data_line (Str.split line) = Ok b)
  ∧ (all_space line = true →
     Str.split line = []
     ∧ is_data_line (Str.split line) = Ok false
     ∧ ∀ (self : DatFile.t) i,
         VFile.lines (DatFile.base self) !! i = Some line →
         DatFile.vary_line i self = Ok self
         ∧ ∀ self', DatFile.vary self = Ok self' →
             VFile.lines (DatFile.base self') !! i = Some line).
Proof.
  split; [exists (data_line line); apply is_data_line_split|].
  intros Hs. pose proof (data_line_all_space line Hs) as Hd.
  split; [by apply split_all_space|].
  split; [by rewrite is_data_line_split, Hd|].
  intros self i Hl. split.
  - by apply (DatFile_vary_line_other self i line).
  - intros self' Hv. by apply (DatFile_vary_keeps self self' i line).
Qed.

Lemma is_data_line_total_witness :
  Str.split "   " = []
  ∧ is_data_line (Str.split "   ") = Ok false
  ∧ DatFile.vary_line 25 (datfile_24 false) = Ok (datfile_24 false)
  ∧ VFile.lines (DatFile.base (datfile_24_varied false)) !! 25%nat = Some "   ".
Proof.
  destruct (is_data_line_total "   ") as [_ H].
  destruct (H eq_refl) as (H1 & H2 & H3).
  destruct (H3 (datfile_24 false) 25%nat eq_refl) as [H4 H5].
  split; [exact H1|]. split; [exact H2|]. split; [exact H4|].
  apply H5. reflexivity.
Defined.

(** ** Deterministic mode *)



Lemma mul_zero_l (s : bool) (x : spec_float) :
  Float.is_finite x = true → is_zero (Float.mul (S754_zero s) x) = true.
Proof. by destruct x. Qed.






(** * Further properties *)

(** ** Lists of names *)

Lemma all_chars_app (p : ascii → bool) (s t : string) :
  all_chars p (s +:+ t) = all_chars p s && all_chars p t.
Proof.
  induction s as [|c s IH]; str_simpl; simpl; [reflexivity|].
  by rewrite IH, andb_assoc.
Qed.

Lemma snoc_append (run : string) (c : ascii) (w : string) :
  Str.snoc run c +:+ w = run +:+ String c w.
Proof. unfold Str.snoc. by rewrite append_assoc. Qed.

Lemma findall_words_from_word (w run rest : string) :
  all_chars word_char w = true →
  findall_words_from run (w +:+ rest) = findall_words_from (run +:+ w) rest.
Proof.
  revert run. induction w as [|c w IH]; intros run Hw; str_simpl.
  - by rewrite append_nil_r.
  - simpl in Hw. apply andb_true_iff in Hw as [Hc Hw].
    simpl. rewrite Hc, (IH _ Hw). by rewrite snoc_append.
Qed.

Lemma findall_words_from_nonword (d rest : string) :
  nonword d = true →
  findall_words_from "" (d +:+ rest) = findall_words_from "" rest.
Proof.
  unfold nonword. induction d as [|c d IH]; intros Hd; str_simpl; [reflexivity|].
  simpl in Hd. apply andb_true_iff in Hd as [Hc Hd]. apply negb_true_iff in Hc.
  simpl. rewrite Hc. by apply IH.
Qed.

(** A name, then delimiters (or the end of the string). *)
Lemma findall_words_from_name (n d rest : string) :
  word n = true → nonword d = true →
  Str.nonempty d = true ∨ rest = "" →
  findall_words_from "" (n +:+ d +:+ rest) = n :: findall_words_from "" rest.
Proof.
  intros [Hn Hw]%andb_true_iff Hd Hor.
  rewrite (findall_words_from_word n "" _ Hw), append_nil_l.
  destruct d as [|c d]; str_simpl.
  - destruct Hor as [?| ->]; [discriminate|]. simpl. unfold Re.emit. by rewrite Hn.
  - unfold nonword in Hd. simpl in Hd.
    apply andb_true_iff in Hd as [Hc Hd]. apply negb_true_iff in Hc.
    simpl. rewrite Hc. unfold Re.emit. rewrite Hn. f_equal.
    by apply findall_words_from_nonword.
Qed.

Lemma findall_words_from_words (run s : string) :
  all_chars word_char run = true →
  Forall (λ n, word n = true) (findall_words_from run s).
Proof.
  revert run. induction s as [|a s IH]; intros run Hrun; simpl.
  - unfold Re.emit. destruct (Str.nonempty run) eqn:E; repeat constructor.
    unfold word. by rewrite E, Hrun.
  - destruct (word_char a) eqn:Ha.
    + apply IH. unfold Str.snoc. rewrite all_chars_app, Hrun. simpl. by rewrite Ha.
    + unfold Re.emit. destruct (Str.nonempty run) eqn:E; [constructor|]; auto.
      unfold word. by rewrite E, Hrun.
Qed.

(** X1.  [parse_list] gives back the names of a list written with any
    delimiter: for names made of letters, digits, underscores and
    apostrophes, joined by a non-empty delimiter that has none of these
    characters, with or without such characters before and after the list,
    the result is the list of the names, in order. *)
Theorem parse_list_joined (names : list string) (sep before after : string) :
  Forall (λ n, word n = true) names →
  nonword sep = true → Str.nonempty sep = true →
  nonword before = true → nonword after = true →
  parse_list (before +:+ String.concat sep names +:+ after) = names.
Proof.
  intros Hnames Hsep Hne Hb Ha. unfold parse_list.
  rewrite (findall_words_from_nonword before _ Hb).
  induction Hnames as [|n names Hn Hnames IH]; simpl.
  - rewrite append_nil_l, <- (append_nil_r after).
    by rewrite (findall_words_from_nonword after "" Ha).
  - destruct names as [|n' names].
    + rewrite <- (append_nil_r after).
      rewrite (findall_words_from_name n after "" Hn Ha) by auto. reflexivity.
    + rewrite !append_assoc.
      rewrite (findall_words_from_name n sep _ Hn Hsep) by auto.
      f_equal. exact IH.
Qed.

Lemma parse_list_joined_witness :
  parse_list (" " +:+ String.concat ", " ["chd"; "stroke_2"; "it's"] +:+ ";")
  = ["chd"; "stroke_2"; "it's"].
Proof. apply parse_list_joined; by repeat constructor. Defined.

(** ** Names of the files *)

Lemma split_on_from_no_sep (sep : ascii) (tok s : string) :
  no_char sep s = true → Str.split_on_from sep tok s = [tok +:+ s].
Proof.
  unfold no_char. revert tok. induction s as [|c s IH]; intros tok Hs; simpl.
  - by rewrite append_nil_r.
  - simpl in Hs. apply andb_true_iff in Hs as [Hc Hs]. apply negb_true_iff in Hc.
    rewrite Hc, (IH _ Hs). by rewrite snoc_append.
Qed.

Lemma split_on_from_app (sep : ascii) (tok a b : string) :
  no_char sep a = true →
  Str.split_on_from sep tok (a +:+ String sep b)
  = (tok +:+ a) :: Str.split_on_from sep "" b.
Proof.
  unfold no_char. revert tok. induction a as [|c a IH]; intros tok Ha; str_simpl; simpl.
  - by rewrite Ascii.eqb_refl, append_nil_r.
  - simpl in Ha. apply andb_true_iff in Ha as [Hc Ha]. apply negb_true_iff in Hc.
    rewrite Hc, (IH _ Ha). by rewrite snoc_append.
Qed.

Lemma split_on_from_length_tok (sep : ascii) (tok tok' s : string) :
  length (Str.split_on_from sep tok s) = length (Str.split_on_from sep tok' s).
Proof.
  revert tok tok'. induction s as [|c s IH]; intros tok tok'; simpl; [reflexivity|].
  destruct (Ascii.eqb c sep); simpl; auto.
Qed.

Lemma split_on_from_length_app (sep : ascii) (tok a b : string) :
  (length (Str.split_on_from sep tok (a +:+ b)) + 1
   = length (Str.split_on_from sep tok a) + length (Str.split_on_from sep "" b))%nat.
Proof.
  revert tok. induction a as [|c a IH]; intros tok; str_simpl; simpl.
  - rewrite (split_on_from_length_tok sep tok "" b). lia.
  - destruct (Ascii.eqb c sep); simpl; rewrite IH; lia.
Qed.

Lemma split_on_from_length_pos (sep : ascii) (tok s : string) :
  (1 ≤ length (Str.split_on_from sep tok s))%nat.
Proof.
  revert tok. induction s as [|c s IH]; intros tok; simpl; [lia|].
  destruct (Ascii.eqb c sep); simpl; [lia|apply IH].
Qed.

Lemma split_on_from_length_sep (sep : ascii) (tok s : string) :
  no_char sep s = false → (2 ≤ length (Str.split_on_from sep tok s))%nat.
Proof.
  unfold no_char. revert tok. induction s as [|c s IH]; intros tok Hs; simpl in *.
  - discriminate.
  - destruct (Ascii.eqb c sep); simpl in *.
    + pose proof (split_on_from_length_pos sep "" s). lia.
    + by apply IH.
Qed.

Lemma vfile_names_Ok (x e : string) :
  no_char "." x = true → no_char "." e = true →
  vfile_names (x +:+ String "." e)
  = Ok (x +:+ "_mc." +:+ e, x +:+ "_mc0." +:+ e).
Proof.
  intros Hx He. unfold vfile_names, Str.split_on.
  rewrite (split_on_from_app _ _ _ _ Hx), (split_on_from_no_sep _ _ _ He).
  by rewrite !append_nil_l.
Qed.

Lemma vfile_names_dots (x e : string) :
  no_char "." x = false →
  vfile_names (x +:+ String "." e) = Raise ValueError.
Proof.
  intros Hx. unfold vfile_names, Str.split_on.
  pose proof (split_on_from_length_app "." "" x (String "." e)) as Hlen.
  pose proof (split_on_from_length_sep "." "" x Hx).
  assert (2 ≤ length (Str.split_on_from "." "" (String "." e)))%nat
    by (by apply split_on_from_length_sep).
  destruct (Str.split_on_from "." "" (x +:+ String "." e)) as [|? [|? [|? ?]]];
    cbn [length] in Hlen; try reflexivity; lia.
Qed.

Lemma vfile_names_no_dot (fname : string) :
  no_char "." fname = true → vfile_names fname = Raise ValueError.
Proof.
  intros H. unfold vfile_names, Str.split_on.
  by rewrite (split_on_from_no_sep _ _ _ H).
Qed.

Lemma join_relative (a b : string) :
  a = "modfile" ∨ a = "input/inputchk" →
  String.prefix "/" b = false → Io.join a b = a +:+ "/" +:+ b.
Proof.
  intros Ha Hb. destruct b as [|c b].
  - by destruct Ha as [-> | ->].
  - destruct c as [[] [] [] [] [] [] [] []];
      try (by destruct Ha as [-> | ->]).
    by destruct b.
Qed.

Lemma join_absolute (a b : string) :
  String.prefix "/" b = true → Io.join a b = b.
Proof.
  intros Hb. destruct b as [|c b]; [discriminate|].
  by destruct c as [[] [] [] [] [] [] [] []].
Qed.

Lemma prefix_slash_app (b t : string) :
  Str.nonempty b = true → String.prefix "/" (b +:+ t) = String.prefix "/" b.
Proof.
  intros H. destruct b as [|c b]; [discriminate|]. str_simpl.
  destruct c as [[] [] [] [] [] [] [] []]; try reflexivity.
  by destruct (b +:+ t), b.
Qed.

(** The paths that [DatFile] makes from a name: a directory without dots,
    then the name. *)
Lemma dat_paths (fname : string) :
  ∃ q q' : string, no_char "." q = true ∧
    (∀ t, String.prefix "/" t = false →
          Io.join "modfile" (fname +:+ t) = q +:+ fname +:+ t
          ∧ Io.join (Io.join "input" "inputchk") (fname +:+ t) = q' +:+ fname +:+ t)
    ∧ (String.prefix "/" fname = false → q = "modfile/" ∧ q' = "input/inputchk/").
Proof.
  destruct (String.prefix "/" fname) eqn:E.
  - exists "", "". split; [reflexivity|]. split; [|discriminate].
    intros t _. assert (Str.nonempty fname = true) by (by destruct fname).
    rewrite !join_absolute, !append_nil_l by (by rewrite prefix_slash_app).
    done.
  - exists "modfile/", "input/inputchk/". split; [reflexivity|]. split; [|done].
    intros t Ht.
    assert (String.prefix "/" (fname +:+ t) = false) as Hp.
    { destruct fname as [|c f]; [by rewrite append_nil_l|].
      by rewrite prefix_slash_app. }
    change (Io.join "input" "inputchk") with "input/inputchk".
    rewrite !join_relative by auto. by str_simpl.
Qed.

Lemma no_char_app (c : ascii) (s t : string) :
  no_char c (s +:+ t) = no_char c s && no_char c t.
Proof. apply all_chars_app. Qed.

Lemma datfile_names_inv (fname : string) (d : dat_names) :
  datfile_names fname = Ok d →
  ∃ q q', d = {| dat_mc := q +:+ fname +:+ "_mc.dat";
                 dat_mc0_name := q +:+ fname +:+ "_mc0.dat";
                 dat_sd_name := q +:+ fname +:+ "sd.dat";
                 dat_def_name := q' +:+ fname +:+ ".def" |}
          ∧ no_char "." fname = true
          ∧ (String.prefix "/" fname = false → q = "modfile/" ∧ q' = "input/inputchk/").
Proof.
  unfold datfile_names. destruct (dat_paths fname) as (q & q' & Hq & Hj & Hrel).
  destruct (Hj ".dat" eq_refl) as [-> _].
  destruct (Hj "sd.dat" eq_refl) as [-> _].
  destruct (Hj ".def" eq_refl) as [_ ->].
  replace (q +:+ fname +:+ ".dat") with ((q +:+ fname) +:+ String "." "dat")
    by (by rewrite append_assoc).
  destruct (no_char "." fname) eqn:E.
  - rewrite vfile_names_Ok by (by rewrite ?no_char_app, ?Hq, ?E).
    cbn [mbind result_bind mret result_ret]. intros [= <-].
    exists q, q'. by rewrite !append_assoc.
  - rewrite vfile_names_dots by (by rewrite no_char_app, Hq, E). discriminate.
Qed.

Lemma inpfile_names_Ok (fname : string) :
  no_char "." fname = true →
  inpfile_names fname = Ok (fname +:+ "_mc.inp", fname +:+ "_mc0.inp").
Proof. intros H. unfold inpfile_names. by rewrite (vfile_names_Ok fname "inp"). Qed.

Lemma inpfile_names_inv (fname : string) (r : string * string) :
  inpfile_names fname = Ok r →
  r = (fname +:+ "_mc.inp", fname +:+ "_mc0.inp") ∧ no_char "." fname = true.
Proof.
  unfold inpfile_names. destruct (no_char "." fname) eqn:E.
  - rewrite (vfile_names_Ok fname "inp") by done. by intros [= <-].
  - by rewrite (vfile_names_dots fname "inp").
Qed.

Lemma word_char_not_dot (a : ascii) : word_char a = true → Ascii.eqb a "." = false.
Proof. by destruct a as [[] [] [] [] [] [] [] []]. Qed.

Lemma word_no_dot (n : string) : word n = true → no_char "." n = true.
Proof.
  intros [_ H]%andb_true_iff. unfold no_char.
  induction n as [|c n IH]; simpl in *; [reflexivity|].
  apply andb_true_iff in H as [Hc H]. by rewrite (word_char_not_dot _ Hc), IH.
Qed.

(** X2.  Every name that [parse_list] finds in the argument is a non-empty
    run of letters, digits, underscores and apostrophes, and [InpFile]
    accepts it: the name has no dot, so that splitting [name.inp] at the
    dots gives two parts, and the files are [name_mc.inp], written, and
    [name_mc0.inp], read. *)
Theorem parse_list_names_accepted (files name : string) :
  name ∈ parse_list files →
  word name = true
  ∧ inpfile_names name = Ok (name +:+ "_mc.inp", name +:+ "_mc0.inp").
Proof.
  intros Hin.
  pose proof (findall_words_from_words "" files eq_refl) as Hall.
  rewrite Forall_forall in Hall. specialize (Hall name Hin).
  split; [exact Hall|]. by apply inpfile_names_Ok, word_no_dot.
Qed.

Lemma parse_list_names_accepted_witness :
  word "rr_2" = true
  ∧ inpfile_names "rr_2" = Ok ("rr_2_mc.inp", "rr_2_mc0.inp").
Proof.
  apply (parse_list_names_accepted "chd.inp, rr_2" "rr_2").
  vm_compute. by repeat constructor.
Defined.

(** X3.  The files of a [DatFile]: for a name without a dot that does not
    begin with a slash they are [modfile/name_mc.dat], written,
    [modfile/name_mc0.dat], [modfile/namesd.dat] and
    [input/inputchk/name.def], read; a name with a dot anywhere (an
    extension, a directory [..]) makes the constructor raise ValueError. *)
Theorem datfile_names_spec (fname : string) :
  (no_char "." fname = true → String.prefix "/" fname = false →
   datfile_names fname
   = Ok {| dat_mc := "modfile/" +:+ fname +:+ "_mc.dat";
           dat_mc0_name := "modfile/" +:+ fname +:+ "_mc0.dat";
           dat_sd_name := "modfile/" +:+ fname +:+ "sd.dat";
           dat_def_name := "input/inputchk/" +:+ fname +:+ ".def" |})
  ∧ (no_char "." fname = false → datfile_names fname = Raise ValueError).
Proof.
  unfold datfile_names. destruct (dat_paths fname) as (q & q' & Hq & Hj & Hrel).
  destruct (Hj ".dat" eq_refl) as [-> _].
  destruct (Hj "sd.dat" eq_refl) as [-> _].
  destruct (Hj ".def" eq_refl) as [_ ->].
  replace (q +:+ fname +:+ ".dat") with ((q +:+ fname) +:+ String "." "dat")
    by (by rewrite append_assoc).
  split; intros Hdot.
  - intros Habs. destruct (Hrel Habs) as [-> ->].
    rewrite vfile_names_Ok by (by rewrite ?no_char_app, ?Hdot).
    cbn [mbind result_bind mret result_ret]. by rewrite !append_assoc.
  - by rewrite vfile_names_dots by (by rewrite no_char_app, Hq, Hdot).
Qed.

Lemma datfile_names_spec_witness :
  datfile_names "chd"
  = Ok {| dat_mc := "modfile/chd_mc.dat"; dat_mc0_name := "modfile/chd_mc0.dat";
          dat_sd_name := "modfile/chdsd.dat";
          dat_def_name := "input/inputchk/chd.def" |}
  ∧ datfile_names "../chd" = Raise ValueError.
Proof.
  split.
  - apply (proj1 (datfile_names_spec "chd")); reflexivity.
  - apply (proj2 (datfile_names_spec "../chd")); reflexivity.
Defined.

Lemma rev_string_app (s t : string) :
  rev_string (s +:+ t) = rev_string t +:+ rev_string s.
Proof.
  induction s as [|c s IH]; str_simpl; simpl.
  - by rewrite append_nil_r.
  - by rewrite IH, append_assoc.
Qed.

(** Two strings whose ends differ are different. *)
Ltac differ_at_end :=
  let H := fresh in
  intros H; apply (f_equal rev_string) in H;
  rewrite ?rev_string_app in H;
  repeat match type of H with
    | context [rev_string (String ?c ?s)] =>
        let v := eval vm_compute in (rev_string (String c s)) in
        change (rev_string (String c s)) with v in H
    end;
  rewrite ?append_cons in H; congruence.

(** X4.  No file that the program writes is a file that it reads: the
    [_mc] file of a table or of a scalar file, whatever its name, is
    neither [betafiles.txt] nor [effect_mc.txt], nor the baseline, the
    standard deviations or the descriptor of any table, nor the baseline of
    any scalar file. *)
Theorem written_files_not_read
    (f g f' g' : string) (df dg : dat_names) (rf rg : string * string) :
  datfile_names f = Ok df → datfile_names g = Ok dg →
  inpfile_names f' = Ok rf → inpfile_names g' = Ok rg →
  ∀ out inp : string,
    out ∈ [dat_mc df; rf.1] →
    inp ∈ ["betafiles.txt"; "effect_mc.txt"; dat_mc0_name dg; dat_sd_name dg;
           dat_def_name dg; rg.2] →
    out ≠ inp.
Proof.
  intros (q1 & q1' & -> & _)%datfile_names_inv (q2 & q2' & -> & _)%datfile_names_inv.
  intros [-> _]%inpfile_names_inv [-> _]%inpfile_names_inv out inp Hout Hinp.
  cbn [dat_mc dat_mc0_name dat_sd_name dat_def_name fst snd] in Hout, Hinp.
  repeat (apply elem_of_cons in Hout as [-> | Hout]);
    [| |by apply elem_of_nil in Hout];
    repeat (apply elem_of_cons in Hinp as [-> | Hinp]);
    try (by apply elem_of_nil in Hinp); differ_at_end.
Qed.

Lemma written_files_not_read_witness :
  "modfile/chd_mc.dat" ≠ "modfile/chd_mc0.dat" ∧ "rr_mc.inp" ≠ "effect_mc.txt".
Proof.
  split;
    apply (written_files_not_read "chd" "chd" "rr" "rr" _ _ _ _
             eq_refl eq_refl eq_refl eq_refl);
    by repeat constructor.
Defined.

(** ** Contents of the files *)

Lemma no_break_app (s t : string) :
  no_break (s +:+ t) = no_break s && no_break t.
Proof. apply all_chars_app. Qed.

Lemma splitlines_from_no_break (after_cr : bool) (cur s : string) :
  no_break cur = true →
  Forall (λ l, no_break l = true) (Io.splitlines_from after_cr cur s).
Proof.
  revert after_cr cur. induction s as [|c s IH]; intros after_cr cur Hcur; simpl.
  - destruct (Str.nonempty cur); by repeat constructor.
  - destruct (Ascii.eqb c Io.LF) eqn:Hlf.
    + destruct after_cr; [|constructor; [done|]]; by apply IH.
    + destruct (Ascii.eqb c Io.CR) eqn:Hcr.
      * constructor; [done|]. by apply IH.
      * apply IH. unfold Str.snoc. rewrite no_break_app, Hcur.
        unfold no_break. simpl. by rewrite Hlf, Hcr.
Qed.

Lemma splitlines_from_line (cur l rest : string) :
  no_break l = true →
  Io.splitlines_from false cur (l +:+ String Io.LF rest)
  = (cur +:+ l) :: Io.splitlines_from false "" rest.
Proof.
  unfold no_break. revert cur. induction l as [|c l IH]; intros cur Hl; str_simpl.
  - by rewrite append_nil_r.
  - simpl in Hl. apply andb_true_iff in Hl as [[Hlf Hcr]%andb_true_iff Hl].
    apply negb_true_iff in Hlf, Hcr. simpl. rewrite Hlf, Hcr, (IH _ Hl).
    by rewrite snoc_append.
Qed.

Lemma splitlines_written (lines : list string) :
  Forall (λ l, no_break l = true) lines →
  Io.splitlines (Io.written ((λ line, line +:+ VFile.newline) <$> lines)) = lines.
Proof.
  unfold Io.splitlines. induction 1 as [|l lines Hl _ IH]; [reflexivity|].
  cbn [fmap list_fmap Io.written foldr]. unfold VFile.newline at 1.
  rewrite append_assoc. change (ascii_of_N 10) with Io.LF. str_simpl.
  rewrite (splitlines_from_line "" l _ Hl), append_nil_l. f_equal. exact IH.
Qed.

(** X5.  What [print_mc] writes is read back by [read_lines] as the lines
    of the object, provided that no line holds a line boundary (\n or \r);
    this is the case of the lines that [read_lines] returns, for every
    file. *)
Theorem print_mc_read_back :
  (∀ self : VFile.t,
     Forall (λ l, no_break l = true) (VFile.lines self) →
     read_lines (Io.written (VFile.print_mc self)) = VFile.lines self)
  ∧ (∀ content : string, Forall (λ l, no_break l = true) (read_lines content)).
Proof.
  split.
  - intros self H. by apply splitlines_written.
  - intros content. by apply splitlines_from_no_break.
Qed.

Lemma print_mc_read_back_witness :
  read_lines (Io.written (VFile.print_mc (VFile.__init__ ["* title"; ""; "1 2.5"])))
  = ["* title"; ""; "1 2.5"].
Proof.
  apply (proj1 print_mc_read_back (VFile.__init__ ["* title"; ""; "1 2.5"])).
  by repeat constructor.
Defined.

Lemma written_splitlines_from (cur s : string) :
  no_char Io.CR s = true →
  Io.written ((λ line, line +:+ VFile.newline)
              <$> Io.splitlines_from false cur (s +:+ String Io.LF ""))
  = cur +:+ s +:+ String Io.LF "".
Proof.
  unfold no_char. revert cur. induction s as [|c s IH]; intros cur Hs; str_simpl.
  - simpl. by rewrite append_nil_r.
  - simpl in Hs. apply andb_true_iff in Hs as [Hcr Hs]. apply negb_true_iff in Hcr.
    simpl. rewrite Hcr. destruct (Ascii.eqb c Io.LF) eqn:Hlf.
    + apply Ascii.eqb_eq in Hlf as ->.
      cbn [fmap list_fmap Io.written foldr]. fold (Io.written).
      change (foldr append "") with Io.written.
      rewrite (IH "" Hs), append_nil_l, append_assoc. by str_simpl.
    + rewrite (IH _ Hs). by rewrite snoc_append.
Qed.

(** X6.  A baseline file in Unix format (no \r, every line ended by \n)
    in which [vary] changes nothing is copied byte for byte: what
    [print_mc] writes from the lines of [read_lines] is the content
    read. *)
Theorem untouched_copy (content : string) :
  no_char Io.CR content = true → complete_lines content →
  Io.written (VFile.print_mc (VFile.__init__ (read_lines content))) = content.
Proof.
  intros Hcr [-> | [s ->]]; [reflexivity|].
  unfold VFile.print_mc, VFile.__init__, read_lines, Io.splitlines. cbn [VFile.lines].
  rewrite no_char_app in Hcr. apply andb_true_iff in Hcr as [Hs _].
  rewrite (written_splitlines_from "" s Hs). by rewrite append_nil_l.
Qed.

Lemma untouched_copy_witness :
  Io.written (VFile.print_mc (VFile.__init__ (read_lines def_content)))
  = def_content.
Proof.
  apply untouched_copy; [reflexivity|].
  right. by exists ("table of rates" +:+ String Io.LF "(5x,4(f10.5,3x))").
Defined.

Lemma readlines_from_line (cur l rest : string) :
  no_char Io.LF l = true →
  Io.readlines_from cur (l +:+ String Io.LF rest)
  = (cur +:+ l +:+ String Io.LF "") :: Io.readlines_from "" rest.
Proof.
  unfold no_char. revert cur. induction l as [|c l IH]; intros cur Hl; str_simpl.
  - simpl. reflexivity.
  - simpl in Hl. apply andb_true_iff in Hl as [Hlf Hl]. apply negb_true_iff in Hlf.
    simpl. rewrite Hlf, (IH _ Hl). by rewrite snoc_append.
Qed.

Lemma readlines_from_tail (cur l : string) :
  no_char Io.LF l = true →
  Io.readlines_from cur l = if Str.nonempty (cur +:+ l) then [cur +:+ l] else [].
Proof.
  unfold no_char. revert cur. induction l as [|c l IH]; intros cur Hl.
  - simpl. by rewrite append_nil_r.
  - simpl in Hl. apply andb_true_iff in Hl as [Hlf Hl]. apply negb_true_iff in Hlf.
    simpl. rewrite Hlf, (IH _ Hl). by rewrite snoc_append.
Qed.

Lemma readlines_from_complete (cur b tail : string) :
  Io.readlines_from cur (b +:+ String Io.LF tail)
  = Io.readlines_from cur (b +:+ String Io.LF "") ++ Io.readlines_from "" tail.
Proof.
  revert cur. induction b as [|c b IH]; intros cur; str_simpl; simpl.
  - reflexivity.
  - destruct (Ascii.eqb c Io.LF); simpl; by rewrite IH.
Qed.

Lemma readlines_from_nil (cur s : string) :
  Io.readlines_from cur s = [] → cur = "" ∧ s = "".
Proof.
  revert cur. induction s as [|c s IH]; intros cur; simpl.
  - by destruct cur.
  - destruct (Ascii.eqb c Io.LF); [discriminate|].
    intros [H _]%IH. by destruct cur.
Qed.

Lemma findall_digits_then_from_end (c d : ascii) (run s : string) :
  Str.isdigit d = false → Ascii.eqb d c = false →
  Re.findall_digits_then_from c run (s +:+ String d "")
  = Re.findall_digits_then_from c run s.
Proof.
  intros Hd Hc. revert run. induction s as [|a s IH]; intros run; str_simpl; simpl.
  - by rewrite Hd, Hc.
  - by rewrite !IH.
Qed.

Lemma findall_f_from_end (d : ascii) (st : option string) (s : string) :
  Re.spec_char d = false → Re.after d = None →
  Re.findall_f_from st (s +:+ String d "") = Re.findall_f_from st s.
Proof.
  intros Hd Hf. revert st. induction s as [|a s IH]; intros st; str_simpl; simpl.
  - rewrite Hd, Hf. by destruct st.
  - destruct st; by rewrite !IH.
Qed.

Lemma _parse_format_end (d : ascii) (line : string) :
  Re.spec_char d = false → Re.after d = None →
  Ascii.eqb d "x" = false → Ascii.eqb d "(" = false →
  DatFile._parse_format (line +:+ String d "") = DatFile._parse_format line.
Proof.
  intros Hd Hf Hx Hp. unfold DatFile._parse_format.
  assert (Str.isdigit d = false) as Hdig.
  { unfold Re.spec_char in Hd. by apply orb_false_iff in Hd as [? _]. }
  unfold Re.search_digits_then, Re.findall_digits_then, Re.findall_f.
  by rewrite !findall_digits_then_from_end, findall_f_from_end.
Qed.

(** X7.  The descriptor is the last line of the [.def] file, whatever
    comes before it, and its end of line does not count:
    [_lines_format] returns the last line with its \n, or without one when
    the file does not end with \n, and [_parse_format] gives the same
    result for both. *)
Theorem descriptor_last_line (body line : string) :
  complete_lines body → no_char Io.LF line = true →
  _lines_format (body +:+ line +:+ String Io.LF "")
  = Ok (line +:+ String Io.LF "")
  ∧ (Str.nonempty line = true → _lines_format (body +:+ line) = Ok line)
  ∧ DatFile._parse_format (line +:+ String Io.LF "") = DatFile._parse_format line.
Proof.
  intros Hbody Hline. unfold _lines_format, Io.readlines.
  split; [|split].
  - destruct Hbody as [-> | [b ->]].
    + rewrite !append_nil_l, (readlines_from_line "" line "" Hline). by str_simpl.
    + rewrite !append_assoc. str_simpl.
      rewrite readlines_from_complete, (readlines_from_line "" line "" Hline).
      str_simpl. simpl. by rewrite last_snoc.
  - intros Hne. destruct Hbody as [-> | [b ->]].
    + rewrite !append_nil_l, (readlines_from_tail "" line Hline). str_simpl.
      by rewrite Hne.
    + rewrite !append_assoc. str_simpl.
      rewrite readlines_from_complete, (readlines_from_tail "" line Hline).
      str_simpl. rewrite Hne. by rewrite last_snoc.
  - by apply _parse_format_end.
Qed.

Lemma descriptor_last_line_witness :
  _lines_format def_content = Ok ("(5x,4(f10.5,3x))" +:+ String Io.LF "")
  ∧ (Str.nonempty "(5x,4(f10.5,3x))" = true →
     _lines_format ("table of rates" +:+ String Io.LF "" +:+ "(5x,4(f10.5,3x))")
     = Ok "(5x,4(f10.5,3x))")
  ∧ DatFile._parse_format ("(5x,4(f10.5,3x))" +:+ String Io.LF "")
    = DatFile._parse_format "(5x,4(f10.5,3x))".
Proof.
  apply (descriptor_last_line ("table of rates" +:+ String Io.LF "")
           "(5x,4(f10.5,3x))"); [|reflexivity].
  right. by exists "table of rates".
Defined.

(** X8.  [_lines_format] raises IndexError on an empty [.def] file and on
    no other, and a [.def] file whose last line is blank is refused by
    [_parse_format] with ValueError, whatever the lines before it. *)
Theorem descriptor_missing (content : string) :
  (_lines_format content = Raise IndexError ↔ content = "")
  ∧ (∀ e, _lines_format content = Raise e → e = IndexError)
  ∧ (_lines_format (content +:+ String Io.LF (String Io.LF ""))
     ≫= DatFile._parse_format) = Raise ValueError.
Proof.
  unfold _lines_format, Io.readlines. split; [|split].
  - split.
    + destruct (last _) eqn:E; [discriminate|]. intros _.
      apply last_None in E. by apply readlines_from_nil in E as [_ ->].
    + by intros ->.
  - intros e. destruct (last _); [discriminate|]. by intros [= <-].
  - rewrite readlines_from_complete. simpl. by rewrite last_snoc.
Qed.

(** ** The key of a line *)

Lemma is_substring_trans (a b c : string) :
  is_substring a b → is_substring b c → is_substring a c.
Proof.
  intros (p & q & ->) (p' & q' & ->).
  exists (p' +:+ p), (q +:+ q'). by rewrite !append_assoc.
Qed.

Lemma is_substring_nil (line : string) : is_substring "" line.
Proof. exists "", line. by rewrite !append_nil_l. Qed.

(** X9.  What [get_sd] returns does not depend on the order in which the
    dictionary is iterated; it never raises anything but SystemExit; and
    when exactly one key occurs in the line, the result is the coefficient
    of that key. *)
Theorem get_sd_result (eff : Effects.t) (line : string)
    (items : list (string * spec_float)) :
  items ≡ₚ map_to_list (Effects.sd_pairs eff) →
  Effects.get_sd_in items line = Effects.get_sd eff line
  ∧ (∀ e, Effects.get_sd eff line = Raise e → e = SystemExit)
  ∧ (∀ key sd,
       Effects.sd_pairs eff !! key = Some sd → is_substring key line →
       (∀ other, is_Some (Effects.sd_pairs eff !! other) → other ≠ key →
                 ¬ is_substring other line) →
       Effects.get_sd eff line = Ok (Some sd)).
Proof.
  intros Hitems. split; [by apply get_sd_in_order|]. split.
  - intros e. unfold Effects.get_sd.
    destruct (keys_in_line (Effects.sd_pairs eff) _ (reflexivity _) line)
      as [Hnone | [(key & sd & Hk & Hin & Hothers) | (k1 & k2 & Hne & H1 & H2 & Hs1 & Hs2)]].
    + by rewrite (get_sd_in_none _ _ (reflexivity _) line Hnone).
    + by rewrite (get_sd_in_unique _ _ (reflexivity _) line key sd Hk Hin Hothers).
    + rewrite (get_sd_in_exit _ _ (reflexivity _) line k1 k2 Hne H1 H2 Hs1 Hs2).
      by intros [= <-].
  - intros key sd Hk Hin Hothers.
    exact (get_sd_in_unique _ _ (reflexivity _) line key sd Hk Hin Hothers).
Qed.

Lemma get_sd_result_witness :
  Effects.get_sd_in
    (reverse (map_to_list (Effects.sd_pairs (InpFile.effects inpfile_ab)))) "5.0 A"
  = Effects.get_sd (InpFile.effects inpfile_ab) "5.0 A"
  ∧ (∀ e, Effects.get_sd (InpFile.effects inpfile_ab) "5.0 A" = Raise e
          → e = SystemExit)
  ∧ (∀ key sd,
       Effects.sd_pairs (InpFile.effects inpfile_ab) !! key = Some sd →
       is_substring key "5.0 A" →
       (∀ other, is_Some (Effects.sd_pairs (InpFile.effects inpfile_ab) !! other) →
                 other ≠ key → ¬ is_substring other "5.0 A") →
       Effects.get_sd (InpFile.effects inpfile_ab) "5.0 A" = Ok (Some sd)).
Proof.
  apply get_sd_result. apply reverse_Permutation.
Defined.

(** X10.  Keys that are nested exclude each other: when one key of the
    dictionary occurs inside another, every line that holds the longer key
    makes [get_sd] exit. *)
Theorem nested_keys (eff : Effects.t) (line k1 k2 : string) :
  k1 ≠ k2 →
  is_Some (Effects.sd_pairs eff !! k1) → is_Some (Effects.sd_pairs eff !! k2) →
  is_substring k1 k2 → is_substring k2 line →
  Effects.get_sd eff line = Raise SystemExit.
Proof.
  intros Hne H1 H2 Hnested Hline. unfold Effects.get_sd.
  apply (get_sd_in_exit _ _ (reflexivity _) line k1 k2); auto.
  by apply (is_substring_trans k1 k2 line).
Qed.

Lemma nested_keys_witness :
  Effects.get_sd effects_nested "1.5 RR2" = Raise SystemExit.
Proof.
  apply (nested_keys effects_nested "1.5 RR2" "RR" "RR2").
  - discriminate.
  - by eexists.
  - by eexists.
  - by exists "", "2".
  - by exists "1.5 ", "".
Defined.

(** X11.  An empty key occurs in every line: with an empty key in the
    dictionary, [get_sd] returns its coefficient for every line that holds
    no other key, and exits on every line that holds another key. *)
Theorem empty_key (eff : Effects.t) (line : string) (sd : spec_float) :
  Effects.sd_pairs eff !! "" = Some sd →
  ((∀ other, is_Some (Effects.sd_pairs eff !! other) → other ≠ "" →
             ¬ is_substring other line) →
   Effects.get_sd eff line = Ok (Some sd))
  ∧ (∀ other, is_Some (Effects.sd_pairs eff !! other) → other ≠ "" →
              is_substring other line →
              Effects.get_sd eff line = Raise SystemExit).
Proof.
  intros Hk. split.
  - intros Hothers. unfold Effects.get_sd.
    apply (get_sd_in_unique _ _ (reflexivity _) line "" sd Hk); [|done].
    apply is_substring_nil.
  - intros other Hin Hne Hsub. unfold Effects.get_sd.
    apply (get_sd_in_exit _ _ (reflexivity _) line "" other); auto.
    apply is_substring_nil.
Qed.

Lemma empty_key_witness :
  ((∀ other, is_Some (Effects.sd_pairs effects_empty_key !! other) → other ≠ "" →
             ¬ is_substring other "* a comment") →
   Effects.get_sd effects_empty_key "* a comment" = Ok (Some (lit "0.1")))
  ∧ (∀ other, is_Some (Effects.sd_pairs effects_empty_key !! other) → other ≠ "" →
              is_substring other "* a comment" →
              Effects.get_sd effects_empty_key "* a comment" = Raise SystemExit).
Proof.
  apply (empty_key effects_empty_key "* a comment" (lit "0.1")).
  vm_compute. reflexivity.
Defined.

(** ** The effects table *)

Lemma float_raises (s : string) (e : exn) : Float.float s = Raise e → e = ValueError.
Proof.
  unfold Float.float. repeat case_match; congruence.
Qed.

Lemma getitem_lt {A} (l : list A) (i : nat) :
  (i < length l)%nat → ∃ a, getitem l i = Ok a ∧ l !! i = Some a.
Proof.
  intros H. unfold getitem. destruct (lookup_lt_is_Some_2 l i H) as [a Ha].
  exists a. by rewrite Ha.
Qed.

Lemma Effects_generate_rnd (draw : nat → spec_float) (lines : list string)
    (zero_run : bool) :
  match Effects._generate_rnd draw lines zero_run with
  | Ok rnd =>
      length rnd = length (tail lines)
      ∧ (lines = [] → zero_run = true)
      ∧ ∀ i, (i < length rnd)%nat →
          rnd !! i = Some (if zero_run then Float.zero else draw i)
  | Raise e => e = ValueError ∧ lines = [] ∧ zero_run = false
  end.
Proof.
  unfold Effects._generate_rnd, Np.randn1. destruct zero_run.
  - split; [|split; [done|]].
    + rewrite length_replicate. destruct lines; simpl; lia.
    + intros i Hi. rewrite length_replicate in Hi. by apply lookup_replicate_2.
  - destruct (Z.ltb_spec (Z.of_nat (length lines) - 1) 0) as [Hneg | Hpos].
    + split; [done|]. split; [|done]. destruct lines; [done|simpl in Hneg; lia].
    + split; [|split].
      * rewrite length_fmap, length_seq. destruct lines; simpl in *; lia.
      * intros ->. simpl in Hpos. lia.
      * intros i Hi. rewrite length_fmap, length_seq in Hi.
        rewrite list_lookup_fmap, lookup_seq_lt by done. reflexivity.
Qed.

Lemma _generate_pairs_from_raises (rnd : list spec_float) (rest : list string) :
  ∀ (i : nat) (acc : gmap string spec_float),
    (i + length rest ≤ length rnd)%nat →
    match Effects._generate_pairs_from rnd i rest acc with
    | Ok _ => forallb effect_entry rest = true
    | Raise e => e = ValueError ∧ forallb effect_entry rest = false
    end.
Proof.
  induction rest as [|line rest IH]; intros i acc Hlen; [reflexivity|].
  cbn [Effects._generate_pairs_from forallb]. unfold effect_entry at 1 3.
  destruct (Str.split_on "," line) as [|key [|sd [|? ?]]]; try done.
  destruct (Float.float sd) as [x|e] eqn:Hx.
  - cbn [mbind result_bind]. simpl in Hlen.
    destruct (getitem_lt rnd i ltac:(lia)) as (r & -> & _).
    cbn [mbind result_bind].
    specialize (IH (S i) (<[key := Float.mul x r]> acc) ltac:(lia)).
    by destruct (Effects._generate_pairs_from rnd (S i) rest _).
  - cbn [mbind result_bind]. by rewrite (float_raises _ _ Hx).
Qed.

(** X12.  The effects table is refused in two cases only, and with
    ValueError in both: the file is empty and the run is not a zero run
    (the number of samples asked for is -1), or a line after the first is
    not an entry [key,sd] with one comma and a number after it, as is a
    blank line.  The first line is never looked at. *)
Theorem Effects_init_failure (draw : nat → spec_float) (lines : list string)
    (zero_run : bool) :
  (∀ e, Effects.__init__ draw lines zero_run = Raise e → e = ValueError)
  ∧ (raises (Effects.__init__ draw lines zero_run)
     ↔ (lines = [] ∧ zero_run = false)
       ∨ forallb effect_entry (tail lines) = false).
Proof.
  unfold Effects.__init__, Effects._generate_pairs.
  pose proof (Effects_generate_rnd draw lines zero_run) as Hrnd.
  destruct (Effects._generate_rnd draw lines zero_run) as [rnd|e0].
  - destruct Hrnd as (Hlen & Hz & _). cbn [mbind result_bind].
    pose proof (_generate_pairs_from_raises rnd (tail lines) 0 ∅ ltac:(lia)) as Hp.
    destruct (Effects._generate_pairs_from rnd 0 (tail lines) ∅) as [m|e1];
      cbn [mbind result_bind mret result_ret].
    + split; [discriminate|]. split.
      * by intros [? ?].
      * intros [[-> Hzr] | Hbad]; [|congruence]. specialize (Hz eq_refl). congruence.
    + destruct Hp as [-> Hbad]. split; [by intros ? [= <-]|].
      split; [by right|by eexists].
  - destruct Hrnd as (-> & -> & ->). cbn [mbind result_bind].
    split; [by intros ? [= <-]|]. split; [by left|by eexists].
Qed.

Lemma Effects_init_failure_witness :
  (∀ e, Effects.__init__ draw1_ones ["key,sd"; "KEY,0.1"; ""] false = Raise e
        → e = ValueError)
  ∧ (raises (Effects.__init__ draw1_ones ["key,sd"; "KEY,0.1"; ""] false)
     ↔ (["key,sd"; "KEY,0.1"; ""] = [] ∧ false = false)
       ∨ forallb effect_entry (tail ["key,sd"; "KEY,0.1"; ""]) = false).
Proof. exact (Effects_init_failure draw1_ones ["key,sd"; "KEY,0.1"; ""] false). Defined.

Lemma getitem_Some {A} (l : list A) (i : nat) (a : A) :
  getitem l i = Ok a ↔ l !! i = Some a.
Proof.
  unfold getitem. destruct (l !! i); split; intros H; congruence.
Qed.

Lemma _generate_pairs_from_lookup (rnd : list spec_float) (rest : list string) :
  ∀ (i : nat) (acc m : gmap string spec_float),
    Effects._generate_pairs_from rnd i rest acc = Ok m →
    ∀ key v,
      m !! key = Some v ↔
      (∃ j line sd x r,
          rest !! j = Some line ∧ Str.split_on "," line = [key; sd]
          ∧ Float.float sd = Ok x ∧ rnd !! (i + j)%nat = Some r
          ∧ v = Float.mul x r
          ∧ ∀ j' line', (j < j')%nat → rest !! j' = Some line' →
              entry_key line' ≠ Some key)
      ∨ (acc !! key = Some v
         ∧ ∀ j' line', rest !! j' = Some line' → entry_key line' ≠ Some key).
Proof.
  induction rest as [|line rest IH]; intros i acc m Hm key v.
  - injection Hm as <-. split.
    + intros H. right. split; [done|]. intros j' line' Hl. by destruct j'.
    + intros [(j & ? & ? & ? & ? & Hl & _) | [H _]]; [by destruct j|done].
  - cbn [Effects._generate_pairs_from] in Hm.
    destruct (Str.split_on "," line) as [|k0 [|sd0 [|? ?]]] eqn:Hsplit; try done.
    destruct (Float.float sd0) as [x0|] eqn:Hx0; [|done].
    cbn [mbind result_bind] in Hm.
    destruct (getitem rnd i) as [r0|] eqn:Hr0; [|done].
    cbn [mbind result_bind] in Hm. apply getitem_Some in Hr0.
    assert (entry_key line = Some k0) as Hkey by (unfold entry_key; by rewrite Hsplit).
    rewrite (IH _ _ _ Hm key v). split.
    + intros [(j & l & sd & x & r & Hl & Hs & Hx & Hr & -> & Hlater) | [Hacc Hnone]].
      * left. exists (S j), l, sd, x, r. repeat split; try done.
        -- by rewrite <- Hr, Nat.add_succ_r.
        -- intros j' line' Hlt Hl'. destruct j' as [|j']; [lia|].
           apply (Hlater j' line'); [lia|done].
      * destruct (decide (key = k0)) as [-> | Hne].
        -- rewrite lookup_insert_eq in Hacc. injection Hacc as <-.
           left. exists 0%nat, line, sd0, x0, r0. repeat split; try done.
           ++ by rewrite Nat.add_0_r.
           ++ intros j' line' Hlt Hl'. destruct j' as [|j']; [lia|].
              by apply (Hnone j' line').
        -- rewrite lookup_insert_ne in Hacc by done.
           right. split; [done|]. intros j' line' Hl'. destruct j' as [|j'].
           ++ injection Hl' as <-. rewrite Hkey. congruence.
           ++ by apply (Hnone j' line').
    + intros [(j & l & sd & x & r & Hl & Hs & Hx & Hr & -> & Hlater) | [Hacc Hnone]].
      * destruct j as [|j].
        -- injection Hl as <-. rewrite Hsplit in Hs. injection Hs as <- <-.
           rewrite Hx0 in Hx. injection Hx as <-.
           rewrite Nat.add_0_r, Hr0 in Hr. injection Hr as <-.
           right. split; [by rewrite lookup_insert_eq|].
           intros j' line' Hl'. apply (Hlater (S j') line'); [lia|done].
        -- left. exists j, l, sd, x, r. repeat split; try done.
           ++ by rewrite <- Hr, Nat.add_succ_r.
           ++ intros j' line' Hlt Hl'. apply (Hlater (S j') line'); [lia|done].
      * assert (key ≠ k0) as Hne.
        { intros ->. by apply (Hnone 0%nat line). }
        right. split; [by rewrite lookup_insert_ne|].
        intros j' line' Hl'. by apply (Hnone (S j') line').
Qed.

(** X13.  The dictionary of an effects table: a key is what stands before
    the comma of an entry, blanks included; its coefficient is the number
    after the comma times the sample of its own line (zero in a zero run);
    and when a key comes on several lines, the last one counts. *)
Theorem Effects_pairs (draw : nat → spec_float) (lines : list string)
    (zero_run : bool) (eff : Effects.t) (key : string) (v : spec_float) :
  Effects.__init__ draw lines zero_run = Ok eff →
  Effects.sd_pairs eff !! key = Some v ↔
  ∃ i line sd x,
    tail lines !! i = Some line ∧ Str.split_on "," line = [key; sd]
    ∧ Float.float sd = Ok x
    ∧ v = Float.mul x (if zero_run then Float.zero else draw i)
    ∧ ∀ j line', (i < j)%nat → tail lines !! j = Some line' →
        entry_key line' ≠ Some key.
Proof.
  unfold Effects.__init__, Effects._generate_pairs.
  pose proof (Effects_generate_rnd draw lines zero_run) as Hrnd.
  destruct (Effects._generate_rnd draw lines zero_run) as [rnd|]; [|done].
  destruct Hrnd as (Hlen & _ & Hcell). cbn [mbind result_bind].
  destruct (Effects._generate_pairs_from rnd 0 (tail lines) ∅) as [m|] eqn:Hm; [|done].
  cbn [mbind result_bind mret result_ret]. intros [= <-]. cbn [Effects.sd_pairs].
  rewrite (_generate_pairs_from_lookup _ _ _ _ _ Hm key v). split.
  - intros [(j & l & sd & x & r & Hl & Hs & Hx & Hr & -> & Hlater) | [Hacc _]];
      [|by rewrite lookup_empty in Hacc].
    exists j, l, sd, x. repeat split; try done.
    simpl in Hr. rewrite Hcell in Hr by (by apply lookup_lt_Some in Hr).
    by injection Hr as <-.
  - intros (i & l & sd & x & Hl & Hs & Hx & -> & Hlater).
    left. exists i, l, sd, x, (if zero_run then Float.zero else draw i).
    repeat split; try done. simpl. apply Hcell. rewrite Hlen.
    by apply lookup_lt_Some in Hl.
Qed.

Lemma Effects_pairs_witness :
  Effects.sd_pairs effects_twice !! "KEY" = Some (lit "0.2") ↔
  ∃ i line sd x,
    tail ["key,sd"; "KEY,0.1"; "OTHER,0.3"; "KEY,0.2"] !! i = Some line
    ∧ Str.split_on "," line = ["KEY"; sd]
    ∧ Float.float sd = Ok x
    ∧ lit "0.2" = Float.mul x (if false then Float.zero else draw1_ones i)
    ∧ ∀ j line', (i < j)%nat →
        tail ["key,sd"; "KEY,0.1"; "OTHER,0.3"; "KEY,0.2"] !! j = Some line' →
        entry_key line' ≠ Some "KEY".
Proof.
  apply (Effects_pairs draw1_ones ["key,sd"; "KEY,0.1"; "OTHER,0.3"; "KEY,0.2"]
           false effects_twice "KEY" (lit "0.2")).
  reflexivity.
Defined.

(** ** Line by line *)

Lemma InpFile_eta (s : InpFile.t) :
  s = InpFile.with_base s (with_lines (InpFile.base s) (VFile.lines (InpFile.base s))).
Proof. by destruct s as [[? ?] ?]. Qed.

Lemma InpFile_vary_line_step (s : InpFile.t) (done rest : list string) (line : string) :
  VFile.lines (InpFile.base s) = done ++ line :: rest →
  InpFile.vary_line (length done) s
  = (λ new, InpFile.with_base s (with_lines (InpFile.base s) (done ++ new :: rest)))
    <$> inp_line (InpFile.effects s) (VFile.frmt_str (InpFile.base s)) line.
Proof.
  intros Hlines. unfold InpFile.vary_line, inp_line, getitem.
  rewrite Hlines, list_lookup_middle by done. cbn [mbind result_bind].
  destruct (Effects.get_sd (InpFile.effects s) line) as [[sd|]|e];
    cbn [mbind result_bind fmap result_fmap]; [| |done].
  - destruct (InpFile.varied sd line) as [v|e]; cbn [mbind result_bind]; [|done].
    unfold VFile.format_line.
    destruct (format (VFile.frmt_str (InpFile.base s)) [v]) as [new|e];
      cbn [mbind result_bind fmap result_fmap]; [|done].
    unfold setitem. rewrite Hlines.
    destruct (decide _) as [_|Hn];
      [|exfalso; apply Hn; rewrite length_app; simpl; lia].
    cbn [mbind result_bind mret result_ret fmap result_fmap].
    unfold with_lines. do 3 f_equal.
    replace (length done) with (length done + 0)%nat by lia.
    by rewrite insert_app_r.
  - rewrite <- Hlines. f_equal. apply InpFile_eta.
Qed.

Lemma InpFile_for_each_map (eff : Effects.t) (frmt : string) (rest : list string) :
  ∀ (done : list string) (s : InpFile.t),
    VFile.lines (InpFile.base s) = done ++ rest →
    InpFile.effects s = eff → VFile.frmt_str (InpFile.base s) = frmt →
    for_each InpFile.vary_line (seq (length done) (length rest)) s
    = (λ ls, InpFile.with_base s (with_lines (InpFile.base s) (done ++ ls)))
      <$> mapM (inp_line eff frmt) rest.
Proof.
  induction rest as [|line rest IH]; intros done s Hlines Heff Hfrmt.
  - cbn [length seq for_each mapM mret result_ret fmap result_fmap].
    f_equal. rewrite <- Hlines. apply InpFile_eta.
  - cbn [length seq for_each mapM].
    rewrite (InpFile_vary_line_step s done rest line Hlines), Heff, Hfrmt.
    destruct (inp_line eff frmt line) as [new|e];
      cbn [mbind result_bind fmap result_fmap]; [|done].
    replace (S (length done)) with (length (done ++ [new]))
      by (rewrite length_app; simpl; lia).
    rewrite (IH (done ++ [new])); cbn [InpFile.with_base InpFile.base InpFile.effects
      with_lines VFile.lines VFile.frmt_str]; try done.
    + destruct (mapM (inp_line eff frmt) rest) as [ls|e];
        cbn [mbind result_bind fmap result_fmap mret result_ret]; [|done].
      by rewrite <- app_assoc.
    + by rewrite <- app_assoc.
Qed.

(** X14.  [InpFile.vary] works line by line: its result, lines or
    exception, is that of computing the new line of every line in turn
    from the line itself, the effects and the format string, whatever
    happened to the lines before it; the effects and the format string are
    left as they were, and so is the number of lines. *)
Theorem InpFile_vary_line_by_line (self : InpFile.t) :
  InpFile.vary self
  = (λ ls, InpFile.with_base self (with_lines (InpFile.base self) ls))
    <$> mapM (inp_line (InpFile.effects self) (VFile.frmt_str (InpFile.base self)))
          (VFile.lines (InpFile.base self))
  ∧ ∀ self', InpFile.vary self = Ok self' →
      InpFile.effects self' = InpFile.effects self
      ∧ VFile.frmt_str (InpFile.base self') = VFile.frmt_str (InpFile.base self)
      ∧ length (VFile.lines (InpFile.base self'))
        = length (VFile.lines (InpFile.base self)).
Proof.
  assert (InpFile.vary self
          = (λ ls, InpFile.with_base self (with_lines (InpFile.base self) ls))
            <$> mapM (inp_line (InpFile.effects self)
                        (VFile.frmt_str (InpFile.base self)))
                  (VFile.lines (InpFile.base self))) as Heq.
  { unfold InpFile.vary, VFile.num_lines.
    exact (InpFile_for_each_map _ _ (VFile.lines (InpFile.base self)) [] self
             eq_refl eq_refl eq_refl). }
  split; [exact Heq|]. intros self'. rewrite Heq.
  destruct (mapM _ _) as [ls|e] eqn:Hmap; cbn [fmap result_fmap]; [|done].
  intros [= <-]. repeat split.
  cbn [InpFile.with_base InpFile.base with_lines VFile.lines].
  by apply mapM_Ok_lookup in Hmap as [Hlen _].
Qed.

Lemma DatFile_eta (s : DatFile.t) :
  s = DatFile.with_base s (with_lines (DatFile.base s) (VFile.lines (DatFile.base s))).
Proof. by destruct s as [[? ?] ?]. Qed.

Lemma dat_line_ext (s self : DatFile.t) (i : nat) (line : string) :
  DatFile.sdfile s = DatFile.sdfile self →
  VFile.frmt_str (DatFile.base s) = VFile.frmt_str (DatFile.base self) →
  dat_line s i line = dat_line self i line.
Proof.
  intros Hsd Hfrmt. unfold dat_line, DatFile.varied. by rewrite Hsd, Hfrmt.
Qed.

Lemma DatFile_vary_line_step (s : DatFile.t) (done rest : list string) (line : string) :
  VFile.lines (DatFile.base s) = done ++ line :: rest →
  DatFile.vary_line (length done) s
  = (λ new, DatFile.with_base s (with_lines (DatFile.base s) (done ++ new :: rest)))
    <$> dat_line s (length done) line.
Proof.
  intros Hlines. unfold DatFile.vary_line, dat_line, getitem.
  rewrite Hlines, list_lookup_middle by done. cbn [mbind result_bind].
  destruct (is_data_line (Str.split line)) as [[|]|e];
    cbn [mbind result_bind fmap result_fmap]; [| |done].
  - destruct (DatFile.varied s (length done) (Str.split line)) as [vs|e];
      cbn [mbind result_bind]; [|done].
    unfold VFile.format_line.
    destruct (format (VFile.frmt_str (DatFile.base s)) vs) as [new|e];
      cbn [mbind result_bind fmap result_fmap]; [|done].
    unfold setitem. rewrite Hlines.
    destruct (decide _) as [_|Hn];
      [|exfalso; apply Hn; rewrite length_app; simpl; lia].
    cbn [mbind result_bind mret result_ret fmap result_fmap].
    unfold with_lines. do 3 f_equal.
    replace (length done) with (length done + 0)%nat by lia.
    by rewrite insert_app_r.
  - rewrite <- Hlines. f_equal. apply DatFile_eta.
Qed.

Lemma DatFile_for_each_map (self : DatFile.t) (rest : list string) :
  ∀ (done : list string) (s : DatFile.t),
    VFile.lines (DatFile.base s) = done ++ rest →
    DatFile.sdfile s = DatFile.sdfile self →
    VFile.frmt_str (DatFile.base s) = VFile.frmt_str (DatFile.base self) →
    for_each DatFile.vary_line (seq (length done) (length rest)) s
    = (λ ls, DatFile.with_base s (with_lines (DatFile.base s) (done ++ ls)))
      <$> mapM (λ p, dat_line self p.1 p.2) (imap (λ j, pair (length done + j)%nat) rest).
Proof.
  induction rest as [|line rest IH]; intros done s Hlines Hsd Hfrmt.
  - cbn [length seq for_each imap mapM mret result_ret fmap result_fmap].
    f_equal. rewrite <- Hlines. apply DatFile_eta.
  - cbn [length seq for_each imap mapM fst snd].
    rewrite (DatFile_vary_line_step s done rest line Hlines).
    rewrite Nat.add_0_r, (dat_line_ext s self _ _ Hsd Hfrmt).
    destruct (dat_line self (length done) line) as [new|e];
      cbn [mbind result_bind fmap result_fmap]; [|done].
    replace (S (length done)) with (length (done ++ [new]))
      by (rewrite length_app; simpl; lia).
    rewrite (IH (done ++ [new])); cbn [DatFile.with_base DatFile.base DatFile.sdfile
      with_lines VFile.lines VFile.frmt_str]; try done.
    + rewrite (imap_ext (λ j, pair (length (done ++ [new]) + j)%nat)
                 ((λ j, pair (length done + j)%nat) ∘ S)).
      * destruct (mapM _ _) as [ls|e];
          cbn [mbind result_bind fmap result_fmap mret result_ret]; [|done].
        by rewrite <- app_assoc.
      * intros j x _. simpl. rewrite length_app. simpl. f_equal. lia.
    + by rewrite <- app_assoc.
Qed.

(** X15.  [DatFile.vary] works line by line: its result, lines or
    exception, is that of computing the new line of every line in turn
    from its number, the line itself, the deviations and the format
    string, whatever happened to the lines before it; the deviations, the
    format string and the number of lines are left as they were. *)
Theorem DatFile_vary_line_by_line (self : DatFile.t) :
  DatFile.vary self
  = (λ ls, DatFile.with_base self (with_lines (DatFile.base self) ls))
    <$> mapM (λ p, dat_line self p.1 p.2) (imap pair (VFile.lines (DatFile.base self)))
  ∧ ∀ self', DatFile.vary self = Ok self' →
      DatFile.sdfile self' = DatFile.sdfile self
      ∧ VFile.frmt_str (DatFile.base self') = VFile.frmt_str (DatFile.base self)
      ∧ length (VFile.lines (DatFile.base self'))
        = length (VFile.lines (DatFile.base self)).
Proof.
  assert (DatFile.vary self
          = (λ ls, DatFile.with_base self (with_lines (DatFile.base self) ls))
            <$> mapM (λ p, dat_line self p.1 p.2)
                  (imap pair (VFile.lines (DatFile.base self)))) as Heq.
  { unfold DatFile.vary, VFile.num_lines.
    exact (DatFile_for_each_map self (VFile.lines (DatFile.base self)) [] self
             eq_refl eq_refl eq_refl). }
  split; [exact Heq|]. intros self'. rewrite Heq.
  destruct (mapM _ _) as [ls|e] eqn:Hmap; cbn [fmap result_fmap]; [|done].
  intros [= <-]. repeat split.
  cbn [DatFile.with_base DatFile.base with_lines VFile.lines].
  apply mapM_Ok_lookup in Hmap as [Hlen _]. by rewrite length_imap in Hlen.
Qed.

(** ** The new line *)

Lemma format_scalar (v : spec_float) :
  format "{:<8.6f}" [v] = Ok (ljust 8 (Float.to_fixed 6 v)).
Proof.
  pose proof (format_template 0 0 1 "8" "6" [v] eq_refl eq_refl eq_refl eq_refl eq_refl)
    as H.
  change (format "{:<8.6f}" [v] = Ok (table_line 0 0 8 6 [v])) in H.
  rewrite H. unfold table_line, join. cbn [fmap list_fmap foldr].
  change (Str.times " " 0) with "". by rewrite append_nil_l, !append_nil_r.
Qed.





(** ** Tables that cannot be varied *)

Lemma dat_line_raises (self : DatFile.t) (i : nat) (line : string) :
  data_line line = true →
  raises (SDFile.sd_list (DatFile.sdfile self) i) →
  raises (dat_line self i line).
Proof.
  intros Hd [e He]. exists e. unfold dat_line.
  rewrite is_data_line_split, Hd. cbn [mbind result_bind].
  unfold DatFile.varied. by rewrite He.
Qed.

Lemma raises_fmap {A B} (f : A → B) (m : result A) : raises m → raises (f <$> m).
Proof. intros [e ->]. by exists e. Qed.

Lemma DatFile_vary_raises (self : DatFile.t) (i : nat) (line : string) :
  VFile.lines (DatFile.base self) !! i = Some line →
  raises (dat_line self i line) →
  raises (DatFile.vary self).
Proof.
  intros Hl Hr. unfold DatFile.vary, VFile.num_lines.
  pose proof (DatFile_for_each_map self (VFile.lines (DatFile.base self)) [] self
                eq_refl eq_refl eq_refl) as Heq.
  cbn [length] in Heq. rewrite Heq.
  apply raises_fmap, (mapM_raises_elem _ _ (i, line)); [|exact Hr].
  by apply (elem_of_lookup_imap_2 pair).
Qed.

(** X18.  The matrix of samples has one row for every twelve data lines of
    the deviations table, and a data line uses row 0 or row 1 according to
    the parity of its block of six.  Hence no data line that carries a
    deviation can be varied when the table has fewer than twelve data
    lines, nor a data line of an odd block when it has fewer than
    twenty-four: [vary_line] raises there, and so does [vary]. *)
Theorem rows_of_samples (draw : nat → nat → spec_float)
    (mc0_lines sd_lines : list string) (frmt_line : string) (zero_run : bool)
    (self : DatFile.t) :
  DatFile.__init__ draw mc0_lines sd_lines frmt_line zero_run = Ok self →
  Z.of_nat (Np.nrows (SDFile.rnd (DatFile.sdfile self))) = count_data sd_lines / 12
  ∧ ∀ i line sdline,
      mc0_lines !! i = Some line → data_line line = true →
      sd_lines !! i = Some sdline → data_line sdline = true →
      tail (Str.split sdline) ≠ [] →
      count_data sd_lines < 12
      ∨ (count_data sd_lines < 24 ∧ (data_ordinal sd_lines i / 6) mod 2 = 1) →
      raises (DatFile.vary_line i self) ∧ raises (DatFile.vary self).
Proof.
  intros (Hlines & Hsd & _)%DatFile_init_inv.
  destruct (SDFile_init_inv _ _ _ _ Hsd) as [first Hfirst].
  destruct (SDFile_init_some draw sd_lines zero_run first Hfirst)
    as (sd & Hsd' & Hl & Hnb & Hbn & _ & Hrnd).
  rewrite Hsd in Hsd'. injection Hsd' as <-.
  pose proof (count_data_nonneg sd_lines) as Hcount.
  assert (Z.of_nat (Np.nrows (SDFile.rnd (DatFile.sdfile self)))
          = count_data sd_lines / 12) as Hrows.
  { rewrite Hrnd. cbn [Np.nrows]. rewrite Z.div_div by lia.
    rewrite Z2Nat.id; [reflexivity|]. apply Z.div_pos; lia. }
  split; [exact Hrows|].
  intros i line sdline Hi Hd Hsi Hsd1 Hne Hfew.
  specialize (Hbn i sdline Hsi). rewrite Hsd1 in Hbn.
  assert (raises (SDFile.sd_list (DatFile.sdfile self) i)) as Hr.
  { apply (sd_list_row_out _ i _ sdline Hbn); [by rewrite Hl| |exact Hne].
    rewrite Hrows. destruct Hfew as [Hlt | [Hlt Hodd]].
    - rewrite Z.div_small by lia. apply Z.mod_pos_bound. lia.
    - rewrite Hodd.
      assert (count_data sd_lines / 12 < 2); [|lia].
      apply Z.div_lt_upper_bound; lia. }
  rewrite <- Hlines in Hi. split.
  - by apply (DatFile_vary_line_raises self i line).
  - apply (DatFile_vary_raises self i line Hi). by apply dat_line_raises.
Qed.

Lemma rows_of_samples_witness :
  Z.of_nat (Np.nrows (SDFile.rnd (DatFile.sdfile datfile_12))) = count_data sd_12 / 12
  ∧ ∀ i line sdline,
      dat_12 !! i = Some line → data_line line = true →
      sd_12 !! i = Some sdline → data_line sdline = true →
      tail (Str.split sdline) ≠ [] →
      count_data sd_12 < 12
      ∨ (count_data sd_12 < 24 ∧ (data_ordinal sd_12 i / 6) mod 2 = 1) →
      raises (DatFile.vary_line i datfile_12) ∧ raises (DatFile.vary datfile_12).
Proof.
  apply (rows_of_samples draw_ones dat_12 sd_12 descriptor_1 false datfile_12).
  reflexivity.
Defined.

(** X19.  A line of the deviations table that has more columns than its
    first data line cannot be used: the matrix of samples has the columns
    of the first data line, and [sd_list] raises on the line. *)
Theorem ragged_deviations (draw : nat → nat → spec_float) (sd_lines : list string)
    (zero_run : bool) (sd : SDFile.t) (first sdline : string) (i : nat) :
  SDFile.__init__ draw sd_lines zero_run = Ok sd →
  head (List.filter data_line sd_lines) = Some first →
  sd_lines !! i = Some sdline →
  (length (Str.split first) < length (Str.split sdline))%nat →
  Np.ncols (SDFile.rnd sd) = (length (Str.split first) - 1)%nat
  ∧ raises (SDFile.sd_list sd i).
Proof.
  intros Hsd Hfirst Hsi Hlen.
  destruct (SDFile_init_some draw sd_lines zero_run first Hfirst)
    as (sd' & Hsd' & Hl & _ & Hbn & _ & Hrnd).
  rewrite Hsd in Hsd'. injection Hsd' as <-.
  split; [by rewrite Hrnd|].
  specialize (Hbn i sdline Hsi).
  rewrite (sd_list_eq sd i _ sdline Hbn) by (by rewrite Hl).
  assert (1 ≤ length (Str.split first))%nat as Hpos.
  { apply data_line_tokens.
    assert (first ∈ List.filter data_line sd_lines) as Hin.
    { destruct (List.filter data_line sd_lines); [done|].
      injection Hfirst as ->. apply list_elem_of_here. }
    apply list_elem_of_In, filter_In in Hin. by destruct Hin as [_ ?]. }
  set (n := (length (Str.split first) - 1)%nat).
  destruct (lookup_lt_is_Some_2 (tail (Str.split sdline)) n) as [tok Htok].
  { destruct (Str.split sdline); simpl in *; lia. }
  apply (mapM_raises_elem _ _ (n, tok)).
  - by apply (elem_of_lookup_imap_2 pair).
  - cbn [fst snd]. unfold SDFile.scaled_sd.
    destruct (Float.float tok) as [x|e]; cbn [mbind result_bind]; [|by eexists].
    unfold Np.getitem2.
    destruct (Np.axis_index (Np.nrows (SDFile.rnd sd)) _) as [r|e];
      cbn [mbind result_bind]; [|by eexists].
    rewrite (axis_index_out (Np.ncols (SDFile.rnd sd)) (Z.of_nat n))
      by (rewrite Hrnd; cbn [Np.ncols]; lia).
    by eexists.
Qed.

Lemma ragged_deviations_witness :
  Np.ncols (SDFile.rnd sdfile_ragged) = (length (Str.split "1 0.2") - 1)%nat
  ∧ raises (SDFile.sd_list sdfile_ragged 1).
Proof.
  apply (ragged_deviations draw_ones sd_ragged false sdfile_ragged "1 0.2"
           "2 0.2 0.3" 1); try reflexivity.
  vm_compute. lia.
Defined.

(** X20.  The deviations table must go as far as the baseline table: a
    data line of the baseline whose number is beyond the last line of the
    deviations table makes [vary_line] raise IndexError, and [vary]
    fail. *)
Theorem short_deviations (draw : nat → nat → spec_float)
    (mc0_lines sd_lines : list string) (frmt_line : string) (zero_run : bool)
    (self : DatFile.t) (i : nat) (line : string) :
  DatFile.__init__ draw mc0_lines sd_lines frmt_line zero_run = Ok self →
  mc0_lines !! i = Some line → data_line line = true →
  (length sd_lines ≤ i)%nat →
  DatFile.vary_line i self = Raise IndexError ∧ raises (DatFile.vary self).
Proof.
  intros (Hlines & Hsd & _)%DatFile_init_inv Hi Hd Hshort.
  destruct (SDFile_init_inv _ _ _ _ Hsd) as [first Hfirst].
  destruct (SDFile_init_some draw sd_lines zero_run first Hfirst)
    as (sd & Hsd' & Hl & _ & Hbn & _).
  rewrite Hsd in Hsd'. injection Hsd' as <-.
  rewrite <- Hlines in Hi.
  assert (SDFile.sd_list (DatFile.sdfile self) i = Raise IndexError) as Hr.
  { unfold SDFile.sd_list, SDFile.get_block_num, getitem.
    destruct (SDFile.block_nums (DatFile.sdfile self) !! i) as [b|];
      cbn [mbind result_bind]; [|done].
    rewrite Hl, (lookup_ge_None_2 sd_lines i) by done. done. }
  split.
  - rewrite (DatFile_vary_line_data self i line Hi Hd).
    unfold DatFile.varied. by rewrite Hr.
  - apply (DatFile_vary_raises self i line Hi).
    apply dat_line_raises; [done|by eexists].
Qed.

Lemma short_deviations_witness :
  DatFile.vary_line 1
    (ok_or no_datfile (DatFile.__init__ draw_ones ["1 5.0"; "2 5.0"] ["1 0.1"]
                         descriptor_1 false))
  = Raise IndexError
  ∧ raises (DatFile.vary
              (ok_or no_datfile (DatFile.__init__ draw_ones ["1 5.0"; "2 5.0"]
                                   ["1 0.1"] descriptor_1 false))).
Proof.
  apply (short_deviations draw_ones ["1 5.0"; "2 5.0"] ["1 0.1"] descriptor_1 false
           _ 1 "2 5.0"); reflexivity.
Defined.

(** ** Data lines *)

Lemma split_from_head (s : string) :
  ∀ (c : ascii) (t : string),
    ∃ t' toks, Str.split_from (String c t) s = String c t' :: toks.
Proof.
  induction s as [|a s IH]; intros c t; simpl.
  - by eexists _, _.
  - destruct (Str.isspace a).
    + by eexists _, _.
    + unfold Str.snoc. str_simpl. apply IH.
Qed.

Lemma data_line_cons (c : ascii) (s : string) :
  data_line (String c s) = if Str.isspace c then data_line s else Str.isdigit c.
Proof.
  unfold data_line, Str.split. simpl. destruct (Str.isspace c); [reflexivity|].
  unfold Str.snoc. str_simpl.
  by destruct (split_from_head s c "") as (t' & toks & ->).
Qed.

(** X21.  A data line is a line whose first character that is not
    whitespace is a decimal digit: a line that begins with a sign, a point
    or a letter is not one, whatever follows. *)
Theorem data_line_first_char (line : string) :
  is_data_line (Str.split line) = Ok true
  ↔ ∃ pre c rest, line = pre +:+ String c rest
      ∧ all_space pre = true ∧ Str.isdigit c = true.
Proof.
  rewrite is_data_line_split. split.
  - intros [= H]. induction line as [|a s IH]; [discriminate|].
    rewrite data_line_cons in H. destruct (Str.isspace a) eqn:Ha.
    + destruct (IH H) as (pre & c & rest & -> & Hpre & Hc).
      exists (String a pre), c, rest. str_simpl. simpl. by rewrite Ha, Hpre.
    + by exists "", a, s.
  - intros (pre & c & rest & -> & Hpre & Hc). f_equal.
    induction pre as [|a pre IH]; str_simpl.
    + by rewrite data_line_cons, (isdigit_not_space c Hc).
    + simpl in Hpre. apply andb_true_iff in Hpre as [Ha Hpre].
      rewrite data_line_cons, Ha. by apply IH.
Qed.

(** * The lines that are written *)

(** ** One line of a run *)

Lemma DatFile_vary_line_new (self : DatFile.t) (i : nat) (line : string) :
  VFile.lines (DatFile.base self) !! i = Some line →
  DatFile.vary_line i self
  = (λ new, DatFile.with_base self
              (with_lines (DatFile.base self)
                 (<[i := new]> (VFile.lines (DatFile.base self)))))
    <$> dat_line self i line.
Proof.
  intros Hl. pose proof (lookup_lt_Some _ _ _ Hl) as Hlt.
  pose proof (DatFile_vary_line_step self (take i (VFile.lines (DatFile.base self)))
                (drop (S i) (VFile.lines (DatFile.base self))) line) as Hstep.
  rewrite take_drop_middle, length_take_le in Hstep by (done || lia).
  rewrite (Hstep eq_refl).
  destruct (dat_line self i line) as [new|e]; cbn [fmap result_fmap]; [|done].
  by rewrite (insert_take_drop _ i new Hlt).
Qed.

Lemma InpFile_vary_line_new (self : InpFile.t) (i : nat) (line : string) :
  VFile.lines (InpFile.base self) !! i = Some line →
  InpFile.vary_line i self
  = (λ new, InpFile.with_base self
              (with_lines (InpFile.base self)
                 (<[i := new]> (VFile.lines (InpFile.base self)))))
    <$> inp_line (InpFile.effects self) (VFile.frmt_str (InpFile.base self)) line.
Proof.
  intros Hl. pose proof (lookup_lt_Some _ _ _ Hl) as Hlt.
  pose proof (InpFile_vary_line_step self (take i (VFile.lines (InpFile.base self)))
                (drop (S i) (VFile.lines (InpFile.base self))) line) as Hstep.
  rewrite take_drop_middle, length_take_le in Hstep by (done || lia).
  rewrite (Hstep eq_refl).
  destruct (inp_line _ _ line) as [new|e]; cbn [fmap result_fmap]; [|done].
  by rewrite (insert_take_drop _ i new Hlt).
Qed.



Lemma dat_line_data (self : DatFile.t) (i : nat) (line : string) :
  data_line line = true →
  dat_line self i line
  = (vs ← DatFile.varied self i (Str.split line);
     format (VFile.frmt_str (DatFile.base self)) vs).
Proof. intros Hd. unfold dat_line. by rewrite is_data_line_split, Hd. Qed.

Lemma inp_line_key (eff : Effects.t) (line : string) (sd v : spec_float) :
  Effects.get_sd eff line = Ok (Some sd) →
  InpFile.varied sd line = Ok v →
  inp_line eff "{:<8.6f}" line = Ok (ljust 8 (Float.to_fixed 6 v)).
Proof.
  intros Hsd Hv. unfold inp_line. rewrite Hsd. cbn [mbind result_bind].
  rewrite Hv. cbn [mbind result_bind]. apply format_scalar.
Qed.


(** ** Rendering and reading back *)

(** C9.  A descriptor with paddings 5 and 3, field specifier 10.5 and
    repeat count 4 makes [set_format] store the template of five spaces and
    four fields [{:<10.5f}] each followed by three spaces; [format_line]
    renders the values 1.0, 2.0, 3.0, 4.0 through it as one line, which it
    stores in place of line [line_num], the other lines being left as they
    are; and the floats of the tokens of that line are the four values
    again. *)
Theorem format_round_trip (frmt_line : string) (rest : list string)
    (self : VFile.t) (line_num : nat) :
  Re.findall_digits_then "x" frmt_line = ["5"; "3"] →
  Re.findall_f frmt_line = "10.5" :: rest →
  Re.search_digits_then "(" frmt_line = Some "4" →
  (line_num < VFile.num_lines self)%nat →
  ∃ template line self1 self2,
    DatFile._parse_format frmt_line = Ok template
    ∧ template = "     {:<10.5f}   {:<10.5f}   {:<10.5f}   {:<10.5f}   "
    ∧ format template values_1234 = Ok line
    ∧ line = "     1.00000      2.00000      3.00000      4.00000      "
    ∧ mapM Float.float (Str.split line) = Ok values_1234
    ∧ DatFile.set_format self frmt_line = Ok self1
    ∧ VFile.frmt_str self1 = template
    ∧ VFile.format_line values_1234 line_num self1 = Ok self2
    ∧ VFile.lines self2 = <[line_num := line]> (VFile.lines self)
    ∧ VFile.lines self2 !! line_num = Some line
    ∧ VFile.print_mc self2 !! line_num = Some (line +:+ VFile.newline)
    ∧ (∀ k, k ≠ line_num → VFile.lines self2 !! k = VFile.lines self !! k).
Proof.
  intros Hx Hf Hc Hlt.
  assert (DatFile._parse_format frmt_line
          = Ok "     {:<10.5f}   {:<10.5f}   {:<10.5f}   {:<10.5f}   ") as Ht.
  { rewrite _parse_format_eq, Hx, Hf, Hc. vm_compute. reflexivity. }
  assert (format "     {:<10.5f}   {:<10.5f}   {:<10.5f}   {:<10.5f}   " values_1234
          = Ok "     1.00000      2.00000      3.00000      4.00000      ")
    as Hline by (vm_compute; reflexivity).
  exists "     {:<10.5f}   {:<10.5f}   {:<10.5f}   {:<10.5f}   ",
    "     1.00000      2.00000      3.00000      4.00000      ",
    (VFile.set_frmt_str self "     {:<10.5f}   {:<10.5f}   {:<10.5f}   {:<10.5f}   "),
    {| VFile.lines :=
         <[line_num := "     1.00000      2.00000      3.00000      4.00000      "]>
           (VFile.lines self);
       VFile.frmt_str := "     {:<10.5f}   {:<10.5f}   {:<10.5f}   {:<10.5f}   " |}.
  split; [exact Ht|]. split; [reflexivity|]. split; [exact Hline|].
  split; [reflexivity|]. split; [vm_compute; reflexivity|].
  split; [unfold DatFile.set_format; by rewrite Ht|].
  split; [reflexivity|].
  split.
  { unfold VFile.format_line. cbn [VFile.set_frmt_str VFile.frmt_str VFile.lines].
    rewrite Hline. cbn [mbind result_bind]. unfold setitem.
    by destruct (decide _) as [_|Hn]; [|contradiction]. }
  cbn [VFile.lines]. split; [reflexivity|].
  split; [by apply list_lookup_insert_eq|].
  split.
  - apply print_mc_lookup. cbn [VFile.lines]. by apply list_lookup_insert_eq.
  - intros k Hk. by apply list_lookup_insert_ne.
Qed.

Lemma format_round_trip_witness :
  ∃ template line self1 self2,
    DatFile._parse_format descriptor_4 = Ok template
    ∧ template = "     {:<10.5f}   {:<10.5f}   {:<10.5f}   {:<10.5f}   "
    ∧ format template values_1234 = Ok line
    ∧ line = "     1.00000      2.00000      3.00000      4.00000      "
    ∧ mapM Float.float (Str.split line) = Ok values_1234
    ∧ DatFile.set_format vfile_3 descriptor_4 = Ok self1
    ∧ VFile.frmt_str self1 = template
    ∧ VFile.format_line values_1234 1 self1 = Ok self2
    ∧ VFile.lines self2 = <[1%nat := line]> (VFile.lines vfile_3)
    ∧ VFile.lines self2 !! 1%nat = Some line
    ∧ VFile.print_mc self2 !! 1%nat = Some (line +:+ VFile.newline)
    ∧ (∀ k, k ≠ 1%nat → VFile.lines self2 !! k = VFile.lines vfile_3 !! k).
Proof.
  apply (format_round_trip descriptor_4 [] vfile_3 1); try reflexivity.
  vm_compute. lia.
Defined.

(** The run end to end: the line that comes out of [format_line] is read
    back as the four values. *)
Example run_format_round_trip :
  (VFile.lines <$> (self1 ← DatFile.set_format vfile_3 descriptor_4;
                    VFile.format_line values_1234 1 self1))
  = Ok ["* title"; "     1.00000      2.00000      3.00000      4.00000      "; ""]
  ∧ mapM Float.float
      (Str.split "     1.00000      2.00000      3.00000      4.00000      ")
    = Ok values_1234.
Proof. split; vm_compute; reflexivity. Qed.

(** ** Deterministic mode, to the line written *)



(** The two runs of the deterministic mode end to end. *)
Example run_deterministic_mode :
  (DatFile.print_mc <$> DatFile.vary (datfile_24 true))
  = Ok (("table" +:+ VFile.newline)
        :: replicate 24 (" 5.000   " +:+ VFile.newline) ++ ["   " +:+ VFile.newline])
  ∧ (InpFile.print_mc <$> InpFile.vary_line 2 (inpfile true))
    = Ok ["* parameters" +:+ VFile.newline; "5.0 KEY" +:+ VFile.newline;
          "-5.000000" +:+ VFile.newline; "inf KEY" +:+ VFile.newline].
Proof. split; vm_compute; reflexivity. Qed.


(** ** Additive and multiplicative perturbation *)

(** One deviation on the line: [sd_list] is the raw deviation times the
    cell of the matrix, in the row of the block and the first column. *)
Lemma sd_list_one (sd : SDFile.t) (i : nat) (b : Z) (sdline label tok : string)
    (x : spec_float) :
  SDFile.lines sd !! i = Some sdline →
  Str.split sdline = [label; tok] →
  Float.float tok = Ok x →
  SDFile.block_nums sd !! i = Some b →
  (Z.to_nat (b mod 2) < Np.nrows (SDFile.rnd sd))%nat →
  (0 < Np.ncols (SDFile.rnd sd))%nat →
  SDFile.sd_list sd i
  = Ok [Float.mul x (Np.cell (SDFile.rnd sd) (Z.to_nat (b mod 2)) 0)].
Proof.
  intros Hl Hsplit Hx Hb Hrow Hcol.
  rewrite (sd_list_eq sd i b sdline Hb Hl), Hsplit.
  cbn [tail imap mapM fst snd]. unfold SDFile.scaled_sd, Np.getitem2.
  rewrite Hx. cbn [mbind result_bind].
  pose proof (Z.mod_pos_bound b 2 ltac:(lia)) as Hmod.
  rewrite (axis_index_in _ (b mod 2)) by lia. cbn [mbind result_bind].
  rewrite (axis_index_in _ (Z.of_nat 0)) by lia. reflexivity.
Qed.

(** C3.  A data line of the table with mean 5.0 whose scaled deviation (the
    raw deviation of the line of the deviations table times the cell of the
    matrix for the block of the line) is 0.2 is varied additively:
    [sd_list] is that product, [varied] is 5.0 + 0.2 = 5.2, and [vary_line]
    replaces the line by the rendering of 5.2 through the format string,
    which for a descriptor with one field [w.p] is the fixed notation of
    5.2 between the paddings.  A line of the scalar file with leading value
    5.0 whose key has coefficient 0.1 is varied multiplicatively: [varied]
    is 5.0 + 0.1 * 5.0 = 5.5, and [vary_line] replaces the line by
    [5.500000]. *)
Theorem additive_and_multiplicative :
  (∀ (self : DatFile.t) i line label mean sdline sdlabel sd raw_sd b,
     VFile.lines (DatFile.base self) !! i = Some line →
     Str.split line = [label; mean] → data_line line = true →
     Float.float mean = Ok (lit "5.0") →
     SDFile.lines (DatFile.sdfile self) !! i = Some sdline →
     Str.split sdline = [sdlabel; sd] →
     Float.float sd = Ok raw_sd →
     SDFile.block_nums (DatFile.sdfile self) !! i = Some b →
     (Z.to_nat (b mod 2) < Np.nrows (SDFile.rnd (DatFile.sdfile self)))%nat →
     (0 < Np.ncols (SDFile.rnd (DatFile.sdfile self)))%nat →
     Float.mul raw_sd (Np.cell (SDFile.rnd (DatFile.sdfile self)) (Z.to_nat (b mod 2)) 0)
     = lit "0.2" →
     SDFile.sd_list (DatFile.sdfile self) i = Ok [lit "0.2"]
     ∧ DatFile.varied self i [label; mean] = Ok [lit "5.2"]
     ∧ DatFile.vary_line i self
       = (formatted ← format (VFile.frmt_str (DatFile.base self)) [lit "5.2"];
          mret (DatFile.with_base self
                  (with_lines (DatFile.base self)
                     (<[i := formatted]> (VFile.lines (DatFile.base self))))))
     ∧ (∀ lead num cols w p,
          VFile.frmt_str (DatFile.base self)
          = Str.times " " lead
            +:+ Str.times ("{:<" +:+ (w +:+ "." +:+ p) +:+ "f}" +:+ Str.times " " num)
                  cols →
          Str.all_digits w = true → Str.all_digits p = true →
          Str.nonempty p = true → Z.to_nat cols = 1%nat →
          DatFile.vary_line i self
          = Ok (DatFile.with_base self
                  (with_lines (DatFile.base self)
                     (<[i := field_line w p lead num [lit "5.2"]]>
                        (VFile.lines (DatFile.base self)))))))
  ∧ (∀ (self : InpFile.t) i line tok rest sd,
     VFile.lines (InpFile.base self) !! i = Some line →
     VFile.frmt_str (InpFile.base self) = "{:<8.6f}" →
     Effects.get_sd (InpFile.effects self) line = Ok (Some sd) →
     Str.split line = tok :: rest →
     Float.float tok = Ok (lit "5.0") →
     sd = lit "0.1" →
     InpFile.varied sd line = Ok (lit "5.5")
     ∧ InpFile.vary_line i self
       = Ok (InpFile.with_base self
               (with_lines (InpFile.base self)
                  (<[i := "5.500000"]> (VFile.lines (InpFile.base self)))))).
Proof.
  split.
  - intros self i line label mean sdline sdlabel sd raw_sd b
      Hi Hsplit Hd Hm Hsi Hsdsplit Hsd Hb Hrow Hcol Hc.
    pose proof (sd_list_one _ i b sdline sdlabel sd raw_sd Hsi Hsdsplit Hsd Hb Hrow Hcol)
      as Hs.
    rewrite Hc in Hs.
    assert (DatFile.varied self i [label; mean] = Ok [lit "5.2"]) as Hv.
    { rewrite (DatFile_varied_eq self i [label; mean] _ [lit "5.0"] Hs)
        by (simpl; by rewrite Hm).
      vm_compute. reflexivity. }
    assert (DatFile.vary_line i self
            = (formatted ← format (VFile.frmt_str (DatFile.base self)) [lit "5.2"];
               mret (DatFile.with_base self
                       (with_lines (DatFile.base self)
                          (<[i := formatted]> (VFile.lines (DatFile.base self)))))))
      as Hline.
    { rewrite (DatFile_vary_line_new self i line Hi), (dat_line_data self i line Hd).
      rewrite Hsplit, Hv. cbn [mbind result_bind].
      by destruct (format _ _). }
    split; [exact Hs|]. split; [exact Hv|]. split; [exact Hline|].
    intros lead num cols w p Hfrmt Hw Hp Hn Hcols.
    rewrite Hline, Hfrmt, (format_template_fill lead num cols w p _ Hw Hp Hn), Hcols.
    reflexivity.
  - intros self i line tok rest sd Hi Hfrmt Hg Hsplit Hm ->.
    assert (InpFile.varied (lit "0.1") line = Ok (lit "5.5")) as Hv.
    { rewrite (InpFile_varied_eq _ _ line tok rest Hsplit Hm).
      vm_compute. reflexivity. }
    split; [exact Hv|].
    rewrite (InpFile_vary_line_new self i line Hi), Hfrmt.
    rewrite (inp_line_key _ line _ _ Hg Hv). reflexivity.
Qed.

Lemma additive_and_multiplicative_witness :
  (SDFile.sd_list (DatFile.sdfile (datfile_24 false)) 1 = Ok [lit "0.2"]
   ∧ DatFile.varied (datfile_24 false) 1 ["1"; "5.0"] = Ok [lit "5.2"]
   ∧ DatFile.vary_line 1 (datfile_24 false)
     = Ok (DatFile.with_base (datfile_24 false)
             (with_lines (DatFile.base (datfile_24 false))
                (<[1%nat := " 5.200   "]>
                   (VFile.lines (DatFile.base (datfile_24 false)))))))
  ∧ (InpFile.varied (lit "0.1") "5.0 KEY" = Ok (lit "5.5")
     ∧ InpFile.vary_line 1 (inpfile false)
       = Ok (InpFile.with_base (inpfile false)
               (with_lines (InpFile.base (inpfile false))
                  (<[1%nat := "5.500000"]>
                     (VFile.lines (InpFile.base (inpfile false))))))).
Proof.
  destruct additive_and_multiplicative as [Hadd Hmul]. split.
  - destruct (Hadd (datfile_24 false) 1%nat "1 5.0" "1" "5.0" "1 0.2" "1" "0.2"
                (lit "0.2") 0)
      as (Hs & Hv & _ & Hline); try reflexivity; try (vm_compute; lia).
    split; [exact Hs|]. split; [exact Hv|].
    apply (Hline 1 1 1 "7" "3"); reflexivity.
  - apply (Hmul (inpfile false) 1%nat "5.0 KEY" "5.0" ["KEY"] (lit "0.1"));
      reflexivity.
Defined.

(** The two runs end to end: deviation 0.2 and key coefficient 0.1, every
    sample being 1.0. *)
Example run_additive_multiplicative :
  (VFile.lines ∘ DatFile.base <$> DatFile.vary_line 1 (datfile_24 false))
    = Ok ("table" :: " 5.200   " :: replicate 23 "1 5.0" ++ ["   "])
  ∧ Effects.get_sd (InpFile.effects (inpfile false)) "5.0 KEY" = Ok (Some (lit "0.1"))
  ∧ (VFile.lines ∘ InpFile.base <$> InpFile.vary_line 1 (inpfile false))
    = Ok ["* parameters"; "5.500000"; "-5.0 KEY"; "inf KEY"].
Proof. repeat split; vm_compute; reflexivity. Qed.
